(** * scikit-multiflow: stream generator, speed evaluator and demo loop

    A shallow embedding of

    - [skmultiflow/core/instances/instance_header.py]  ([InstanceHeader]),
    - [skmultiflow/data/generators/sea_generator.py]   ([SEAGenerator]),
    - [skmultiflow/evaluation/evaluate_stream_gen_speed.py]
      ([EvaluateStreamGenerationSpeed]),
    - [skmultiflow/demos/_test_oza_bagging_adwin.py]   ([demo]),

    followed by the properties of these programs.

    Conventions.  Python integers are [Z].  A Python float is the
    rational [Q] it stands for, with [float("inf")] as a separate
    constructor.  In the generator every product and sum of floats is
    rounded to the nearest double ([Py.round]): the labels depend on it.
    The evaluator and the demo take the timer readings, the counts and
    their quotients as exact numbers; the two tests of the evaluator are
    given on doubles as well ([time_left_double],
    [percentage_reached_double]), and a statement that the rounding could
    change carries the condition under which it does not.  A call that
    may raise returns an [outcome]; a [while] loop whose exit the code
    does not bound runs on fuel, and [OutOfFuel] is the model of a loop
    that is still running. *)

From Stdlib Require Import String.
From Stdlib Require Import ZArith QArith Qround Qpower List Bool Lia Lqa.
Import ListNotations.

Local Open Scope Z_scope.

(* ================================================================== *)
(** * Part I: the programs *)
(* ================================================================== *)

(** ** Python values, exceptions and effects *)

Module Py.

Inductive exn : Type :=
| IndexError
| ValueError
| ZeroDivisionError.

(** What a call can come to: a value, an exception, or no answer within
    the fuel given. *)
Inductive outcome (A : Type) : Type :=
| Ok (a : A)
| Raise (e : exn)
| OutOfFuel.

Arguments Ok {A} a.
Arguments Raise {A} e.
Arguments OutOfFuel {A}.

Definition returned {A} (o : outcome A) : bool :=
  match o with Ok _ => true | _ => false end.

Definition finished {A} (o : outcome A) : bool :=
  match o with OutOfFuel => false | _ => true end.

(** Stateful, fallible code: the state outlives an exception, as the
    mutations of a Python object do. *)
Definition M (St A : Type) : Type := St -> outcome A * St.

Definition ret {St A} (a : A) : M St A := fun s => (Ok a, s).

Definition bind {St A B} (m : M St A) (k : A -> M St B) : M St B :=
  fun s =>
    match m s with
    | (Ok a, s') => k a s'
    | (Raise e, s') => (Raise e, s')
    | (OutOfFuel, s') => (OutOfFuel, s')
    end.

Definition raise {St A} (e : exn) : M St A := fun s => (Raise e, s).
Definition out_of_fuel {St A} : M St A := fun s => (OutOfFuel, s).
Definition get {St} : M St St := fun s => (Ok s, s).
Definition put {St} (s : St) : M St unit := fun _ => (Ok tt, s).
Definition modify {St} (f : St -> St) : M St unit := fun s => (Ok tt, f s).
Definition lift_outcome {St A} (o : outcome A) : M St A := fun s => (o, s).

(** [seq[i]] on a Python list: a negative index counts from the end, an
    index outside [-len, len) raises [IndexError]. *)
Definition getitem {A} (l : list A) (i : Z) : outcome A :=
  let n := Z.of_nat (List.length l) in
  let j := if i <? 0 then i + n else i in
  if (0 <=? j) && (j <? n) then
    match nth_error l (Z.to_nat j) with
    | Some x => Ok x
    | None => Raise IndexError
    end
  else Raise IndexError.

(** *** Doubles

    A Python float is an IEEE 754 double, held here as the rational it
    stands for.  An operation on doubles gives the double nearest to
    the exact result, a tie going to the one whose last bit is 0. *)

(** [2^e] *)
Definition pow2 (e : Z) : Q := (2 ^ e)%Q.

(** The binade of a positive number: [2^mag q <= q < 2^(mag q + 1)]. *)
Definition mag (q : Q) : Z :=
  let e := Z.log2 (Qnum q) - Z.log2 (Zpos (Qden q)) in
  if Qle_bool (pow2 e) q then e else e - 1.

(** Rounding to the nearest integer, a tie to the even one. *)
Definition rne (q : Q) : Z :=
  let f := Qfloor q in
  match (q - inject_Z f ?= 1 # 2)%Q with
  | Lt => f
  | Gt => f + 1
  | Eq => if Z.even f then f else f + 1
  end.

(** A positive number rounded to 53 significant bits. *)
Definition round_pos (q : Q) : Q :=
  Qred (inject_Z (rne (q * pow2 (52 - mag q))) * pow2 (mag q - 52)).

(** The double nearest to [q].  The exponent is not bounded: the
    numbers rounded here, the draws of the generator scaled by 10 and
    their sums, the counts of the evaluator and its elapsed times, are
    far from the smallest and the largest double. *)
Definition round (q : Q) : Q :=
  match (q ?= 0)%Q with
  | Eq => 0%Q
  | Gt => round_pos q
  | Lt => (- round_pos (- q))%Q
  end.

(** [x + y] and [x * y] on doubles. *)
Definition fadd (x y : Q) : Q := round (x + y).
Definition fmul (x y : Q) : Q := round (x * y).

(** A float that may be [float("inf")]. *)
Inductive float : Type :=
| Fin (q : Q)
| Inf.

(** [x <= f] for a finite [x]. *)
Definition le_float (x : Q) (f : float) : bool :=
  match f with
  | Fin q => Qle_bool x q
  | Inf => true
  end.

End Py.

Import Py.

Declare Scope py_scope.
Delimit Scope py_scope with py.
Notation "x <- m ;; k" := (bind m (fun x => k))
  (at level 61, m at next level, right associativity) : py_scope.
Notation "m ;;; k" := (bind m (fun _ => k))
  (at level 61, right associativity) : py_scope.

(** ** instance_header.py *)

Module Header.

Section InstanceHeader.

Variable A : Type.

(** [header = None] is the constructor's default. *)
Record InstanceHeader : Type := mkInstanceHeader {
  header : option (list A)
}.

Definition __init__ (h : option (list A)) : InstanceHeader :=
  mkInstanceHeader h.

(** The result is a Python value that may be [None]. *)
Definition get_header_label_at (self : InstanceHeader) (header_index : Z)
  : outcome (option A) :=
  match header self with
  | Some l =>
      if (header_index >? -1) && (header_index <? Z.of_nat (List.length l))
      then match getitem l header_index with
           | Ok x => Ok (Some x)
           | Raise e => Raise e
           | OutOfFuel => OutOfFuel
           end
      else Ok None
  | None => Ok None
  end.

Definition get_class_type (self : InstanceHeader) : string := "instance".

End InstanceHeader.

Arguments mkInstanceHeader {A} _.
Arguments header {A} _.
Arguments __init__ {A} _.
Arguments get_header_label_at {A} _ _.

End Header.

(** ** sea_generator.py *)

Module Sea.

(** [numpy.random], as far as the generator uses it: [seed], [rand]
    (a float of the half-open interval [0, 1)) and [randint].  It is
    the one part of the generator that is not in the repository.  [seed]
    is read on the seeds that numpy accepts, the integers of
    [0, 2^32); numpy refuses the others with an exception of its own.
    What [rand] returns is a double: the largest double below 1 is
    [1 - 2^-53]. *)
Class NumpyRandom : Type := {
  RandomState : Type;
  seed : Z -> RandomState;
  rand : RandomState -> Q * RandomState;
  randint : Z -> RandomState -> Z * RandomState;
  rand_range : forall s, (0 <= fst (rand s))%Q /\ (fst (rand s) < 1)%Q;
  rand_double : forall s, (fst (rand s) <= 1 - pow2 (-53))%Q
}.

Section Generator.

Context {NR : NumpyRandom}.

(** Set in [__init__] and never written again. *)
Definition num_numerical_attributes : Z := 3.
Definition num_nominal_attributes : Z := 0.
Definition num_values_per_nominal_att : Z := 0.
Definition num_classes : Z := 2.

Record SEAGenerator : Type := mkSEAGenerator {
  current_instance_x : option (list Q);
  current_instance_y : option (list Q);
  classification_function_index : Z;
  instance_seed : Z;
  balance_classes : bool;
  noise_percentage : Q;
  next_class_should_be_zero : bool;
  class_header : list string;
  attributes_header : list string
}.

(** [self.instance_random = np.random] is a reference to the module-wide
    generator, not a copy: the random state is outside the object and is
    shared by every generator of the process. *)
Record Store : Type := mkStore {
  obj : SEAGenerator;
  np_random : RandomState
}.

Definition set_obj (f : SEAGenerator -> SEAGenerator) (st : Store) : Store :=
  mkStore (f (obj st)) (np_random st).

Definition set_next_class_should_be_zero (b : bool) (g : SEAGenerator)
  : SEAGenerator :=
  mkSEAGenerator (current_instance_x g) (current_instance_y g)
    (classification_function_index g) (instance_seed g) (balance_classes g)
    (noise_percentage g) b (class_header g) (attributes_header g).

Definition set_current_instance (x y : list Q) (g : SEAGenerator)
  : SEAGenerator :=
  mkSEAGenerator (Some x) (Some y)
    (classification_function_index g) (instance_seed g) (balance_classes g)
    (noise_percentage g) (next_class_should_be_zero g)
    (class_header g) (attributes_header g).

Definition set_classification_function_index (i : Z) (g : SEAGenerator)
  : SEAGenerator :=
  mkSEAGenerator (current_instance_x g) (current_instance_y g)
    i (instance_seed g) (balance_classes g)
    (noise_percentage g) (next_class_should_be_zero g)
    (class_header g) (attributes_header g).

(** [self.instance_random.seed(self.instance_seed)] *)
Definition reseed (st : Store) : Store :=
  mkStore (obj st) (seed (instance_seed (obj st))).

(** [self.instance_random.rand()] *)
Definition draw : M Store Q :=
  fun st => let (r, s') := rand (np_random st) in (Ok r, mkStore (obj st) s').

(** [self.instance_random.randint(n)] *)
Definition draw_int (n : Z) : M Store Z :=
  fun st => let (r, s') := randint n (np_random st) in
            (Ok r, mkStore (obj st) s').

(** [0 if (att1 + att2 <= 8) else 1]: the sum is a sum of doubles. *)
Definition classification_function_zero (att1 att2 att3 : Q) : Z :=
  if Qle_bool (fadd att1 att2) 8 then 0 else 1.

Definition classification_function_one (att1 att2 att3 : Q) : Z :=
  if Qle_bool (fadd att1 att2) 9 then 0 else 1.

Definition classification_function_two (att1 att2 att3 : Q) : Z :=
  if Qle_bool (fadd att1 att2) 7 then 0 else 1.

Definition classification_function_three (att1 att2 att3 : Q) : Z :=
  if Qle_bool (fadd att1 att2) (19 # 2) then 0 else 1.

(** The literal [0.01] of the noise test: the double nearest to 1/100,
    which is [5764607523034235 / 2^59]. *)
Definition one_percent : Q := round (1 # 100).

Definition classification_functions : list (Q -> Q -> Q -> Z) :=
  [ classification_function_zero; classification_function_one;
    classification_function_two; classification_function_three ].

(** ["NumAtt" + str(i)] for [i] in [range(3)] *)
Definition numatt_headers : list string :=
  ["NumAtt0"%string; "NumAtt1"%string; "NumAtt2"%string].

(** [__configure]: stores the four options as they are, seeds the shared
    random generator and fills the headers. *)
Definition __configure (classification_function instance_seed0 : Z)
    (balance_classes0 : bool) (noise_percentage0 : Q) (st : Store) : Store :=
  reseed
    (mkStore
       (mkSEAGenerator
          (current_instance_x (obj st)) (current_instance_y (obj st))
          classification_function instance_seed0 balance_classes0
          noise_percentage0 false ["class"%string] numatt_headers)
       (np_random st)).

(** [SEAGenerator(...)]; [np] is the state of [numpy.random] before the
    call.  The body has no [raise]; the seeds are those that
    [numpy.random.seed] accepts (see [NumpyRandom]). *)
Definition __init__ (classification_function instance_seed0 : Z)
    (balance_classes0 : bool) (noise_percentage0 : Q) (np : RandomState)
  : outcome Store :=
  Ok (__configure classification_function instance_seed0 balance_classes0
        noise_percentage0
        (mkStore (mkSEAGenerator None None 0 0 false 0 false [] []) np)).

Definition estimated_remaining_instances (self : SEAGenerator) : Z := -1.
Definition has_more_instances (self : SEAGenerator) : bool := true.
Definition is_restartable (self : SEAGenerator) : bool := true.
Definition has_more_mini_batch (self : SEAGenerator) : bool := true.
Definition get_num_targeting_tasks (self : SEAGenerator) : Z := 1.

Definition restart (st : Store) : Store :=
  set_obj (set_next_class_should_be_zero false) (reseed st).

Definition prepare_for_use (st : Store) : Store := restart st.

(** [c = []; for i in range(self.num_classes): c.append(i)] *)
Definition get_classes (self : SEAGenerator) : list Z :=
  map Z.of_nat (seq 0 (Z.to_nat num_classes)).

(** [self.<attribute>] and [self.<attribute> = ...] *)
Definition attr {A} (field : SEAGenerator -> A) : M Store A :=
  fun st => (Ok (field (obj st)), st).

Definition update (f : SEAGenerator -> SEAGenerator) : M Store unit :=
  modify (set_obj f).

(** The [while not desired_class_found] loop of [next_instance]: three
    draws, the classification function looked up in the list, and, when
    classes are balanced, a retry until the class wanted next comes up. *)
Fixpoint find_instance (fuel : nat) : M Store (Q * Q * Q * Z) :=
  match fuel with
  | O => out_of_fuel
  | S fuel' =>
      (r1 <- draw ;;
       r2 <- draw ;;
       r3 <- draw ;;
       let att1 := fmul 10 r1 in
       let att2 := fmul 10 r2 in
       let att3 := fmul 10 r3 in
       index <- attr classification_function_index ;;
       f <- lift_outcome (getitem classification_functions index) ;;
       let group := f att1 att2 att3 in
       balance <- attr balance_classes ;;
       if negb balance then ret (att1, att2, att3, group)
       else
         z <- attr next_class_should_be_zero ;;
         if (z && (group =? 0)) || (negb z && (group =? 1)) then
           update (set_next_class_should_be_zero (negb z)) ;;;
           ret (att1, att2, att3, group)
         else find_instance fuel')%py
  end.

(** [data[j, :] = row] on a two-dimensional array held as a list of rows;
    the code only writes rows that exist. *)
Fixpoint set_row (j : nat) (row : list Q) (data : list (list Q))
  : list (list Q) :=
  match data, j with
  | [], _ => []
  | _ :: rest, O => row :: rest
  | r :: rest, S j' => r :: set_row j' row rest
  end.

(** [np.zeros([rows, cols])] *)
Definition zeros (rows cols : nat) : list (list Q) :=
  repeat (repeat 0%Q cols) rows.

(** The body of [for j in range(batch_size)], for the [n] indices from
    [j] on. *)
Fixpoint fill_rows (fuel : nat) (n j : nat) (data : list (list Q))
  : M Store (list (list Q)) :=
  match n with
  | O => ret data
  | S n' =>
      (found <- find_instance fuel ;;
       let '(att1, att2, att3, group) := found in
       r <- draw ;;
       noise <- attr noise_percentage ;;
       let group :=
         if Qle_bool (fadd one_percent r) noise
         then (if group =? 0 then 1 else 0) else group in
       let data := set_row j [att1; att2; att3; inject_Z group] data in
       let row := nth j data [] in
       update (set_current_instance
                 (firstn (Z.to_nat num_numerical_attributes) row)
                 (skipn (Z.to_nat num_numerical_attributes) row)) ;;;
       fill_rows fuel n' (S j) data)%py
  end.

(** [next_instance(batch_size)]: the features matrix and the flattened
    labels column.  [np.zeros] refuses a negative dimension. *)
Definition next_instance (fuel : nat) (batch_size : Z)
  : M Store (list (list Q) * list Q) :=
  if batch_size <? 0 then raise ValueError
  else
    (data <- fill_rows fuel (Z.to_nat batch_size) 0
               (zeros (Z.to_nat batch_size)
                      (Z.to_nat (num_numerical_attributes + 1))) ;;
     ret (map (firstn (Z.to_nat num_numerical_attributes)) data,
          flat_map (skipn (Z.to_nat num_numerical_attributes)) data))%py.

(** The [while new_function == self.classification_function_index] loop
    of [generate_drift]. *)
Fixpoint redraw_function (fuel : nat) (new_function : Z) : M Store Z :=
  match fuel with
  | O => out_of_fuel
  | S fuel' =>
      (index <- attr classification_function_index ;;
       if new_function =? index
       then (n <- draw_int 4 ;; redraw_function fuel' n)
       else ret new_function)%py
  end.

Definition generate_drift (fuel : nat) : M Store unit :=
  (n <- draw_int 4 ;;
   new_function <- redraw_function fuel n ;;
   update (set_classification_function_index new_function))%py.

(** What a caller sees of successive [next_instance] calls with the
    batch sizes [sizes]: the outcome of each call. *)
Fixpoint outputs (fuel : nat) (sizes : list Z) (st : Store)
  : list (outcome (list (list Q) * list Q)) :=
  match sizes with
  | [] => []
  | n :: rest =>
      let (o, st') := next_instance fuel n st in o :: outputs fuel rest st'
  end.

(** The generator's options, as the constructor stored them. *)
Definition same_options (a b : SEAGenerator) : Prop :=
  classification_function_index a = classification_function_index b
  /\ instance_seed a = instance_seed b
  /\ balance_classes a = balance_classes b
  /\ noise_percentage a = noise_percentage b.

(** A row of [np.zeros([batch_size, 4])]. *)
Definition zero_row : list Q :=
  repeat 0%Q (Z.to_nat (num_numerical_attributes + 1)).

(** Two stores from which [next_instance] produces the same samples: the
    same random state and the same four attributes that the sampling
    reads.  The last instance and the headers may differ. *)
Definition same_source (a b : Store) : Prop :=
  np_random a = np_random b
  /\ classification_function_index (obj a)
     = classification_function_index (obj b)
  /\ balance_classes (obj a) = balance_classes (obj b)
  /\ noise_percentage (obj a) = noise_percentage (obj b)
  /\ next_class_should_be_zero (obj a) = next_class_should_be_zero (obj b).

(** A computation whose outcome and effect on the source depend on the
    source only. *)
Definition respects {A} (m : M Store A) : Prop :=
  forall a b, same_source a b ->
    fst (m a) = fst (m b) /\ same_source (snd (m a)) (snd (m b)).

(** *** The generator as the documentation words it *)

(** The thresholds of the four classification functions. *)
Definition spec_threshold (index : Z) : Q :=
  if index =? 0 then 8
  else if index =? 1 then 9
  else if index =? 2 then 7
  else 19 # 2.

(** 0 if [att1 + att2 <= T], 1 otherwise, [att1 + att2] being the sum
    as Python computes it, a double. *)
Definition spec_label (index : Z) (att1 att2 : Q) : Z :=
  if Qle_bool (fadd att1 att2) (spec_threshold index) then 0 else 1.

(** The same with the sum of the two numbers taken exactly. *)
Definition exact_label (index : Z) (att1 att2 : Q) : Z :=
  if Qle_bool (att1 + att2) (spec_threshold index) then 0 else 1.

Definition spec_row_label (index : Z) (row : list Q) : Q :=
  inject_Z (spec_label index (nth 0 row 0%Q) (nth 1 row 0%Q)).

(** The label is flipped when the noise draw [r] has
    [0.01 + r <= noise_percentage], the sum being a double. *)
Definition spec_flipped (noise r : Q) : bool :=
  Qle_bool (fadd one_percent r) noise.

(** One sample without class balancing: four draws. *)
Definition spec_sample (index : Z) (noise : Q) (s : RandomState)
  : list Q * Q * RandomState :=
  let (r1, s1) := rand s in
  let (r2, s2) := rand s1 in
  let (r3, s3) := rand s2 in
  let (r4, s4) := rand s3 in
  let base := spec_label index (fmul 10 r1) (fmul 10 r2) in
  let label := if spec_flipped noise r4 then 1 - base else base in
  ([fmul 10 r1; fmul 10 r2; fmul 10 r3], inject_Z label, s4).

Fixpoint spec_batch (index : Z) (noise : Q) (n : nat) (s : RandomState)
  : list (list Q) * list Q * RandomState :=
  match n with
  | O => ([], [], s)
  | S n' =>
      let '(x, l, s1) := spec_sample index noise s in
      let '(X, y, s2) := spec_batch index noise n' s1 in
      (x :: X, l :: y, s2)
  end.

(** A row of three features, each in [0, 10). *)
Definition spec_features (row : list Q) : Prop :=
  List.length row = 3%nat
  /\ Forall (fun a => (0 <= a)%Q /\ (a < 10)%Q) row.

(** *** The remaining accessors *)

Definition get_num_nominal_attributes (self : SEAGenerator) : Z :=
  num_nominal_attributes.

Definition get_num_numerical_attributes (self : SEAGenerator) : Z :=
  num_numerical_attributes.

Definition get_num_values_per_nominal_attribute (self : SEAGenerator) : Z :=
  num_values_per_nominal_att.

Definition get_num_attributes (self : SEAGenerator) : Z :=
  num_numerical_attributes
  + num_nominal_attributes * num_values_per_nominal_att.

Definition get_num_targets (self : SEAGenerator) : Z := num_classes.

Definition get_attributes_header (self : SEAGenerator) : list string :=
  attributes_header self.

Definition get_classes_header (self : SEAGenerator) : list string :=
  class_header self.

Definition get_last_instance (self : SEAGenerator)
  : option (list Q) * option (list Q) :=
  (current_instance_x self, current_instance_y self).

(** The store that successive [next_instance] calls with the batch sizes
    [sizes] leave, whatever each call came to. *)
Fixpoint after_calls (fuel : nat) (sizes : list Z) (st : Store) : Store :=
  match sizes with
  | [] => st
  | n :: rest => after_calls fuel rest (snd (next_instance fuel n st))
  end.

(** *** Vocabulary for the properties of the batches *)

(** [n] labels that alternate, the first one 0 if [zero_first] and 1
    otherwise. *)
Fixpoint alternating (zero_first : bool) (n : nat) : list Q :=
  match n with
  | O => []
  | S n' =>
      inject_Z (if zero_first then 0 else 1)
        :: alternating (negb zero_first) n'
  end.

(** A row of the [data] array: three features of [0, 10) and a label
    that is 0 or 1. *)
Definition data_row (row : list Q) : Prop :=
  exists a b c l,
    row = [a; b; c; l]
    /\ ((0 <= a)%Q /\ (a < 10)%Q)
    /\ ((0 <= b)%Q /\ (b < 10)%Q)
    /\ ((0 <= c)%Q /\ (c < 10)%Q)
    /\ (l = inject_Z 0 \/ l = inject_Z 1).

(** The label opposite to the threshold label of a row. *)
Definition spec_row_flipped (index : Z) (row : list Q) : Q :=
  inject_Z (1 - spec_label index (nth 0 row 0%Q) (nth 1 row 0%Q)).

(** The position of the list of functions that a Python index selects:
    the indices -4 to -1 count from the end. *)
Definition wrapped (index : Z) : Z :=
  if (-4 <=? index) && (index <? 0) then index + 4 else index.

(** Stores that differ at most in how the index names the classification
    function, in the last instance and in the headers. *)
Definition same_function (a b : Store) : Prop :=
  np_random a = np_random b
  /\ getitem classification_functions (classification_function_index (obj a))
     = getitem classification_functions
         (classification_function_index (obj b))
  /\ balance_classes (obj a) = balance_classes (obj b)
  /\ noise_percentage (obj a) = noise_percentage (obj b)
  /\ next_class_should_be_zero (obj a) = next_class_should_be_zero (obj b).

(** *** Vocabulary for the course of a batch *)

(** The options and the headers: everything of the generator that only
    the constructor and [generate_drift] write. *)
Definition same_setup (a b : SEAGenerator) : Prop :=
  same_options a b
  /\ class_header a = class_header b
  /\ attributes_header a = attributes_header b.

(** One pass through the body of the batch loop that came to an end:
    from [st] it wrote [row] and left [st']. *)
Definition sample_step (fuel : nat) (st : Store) (row : list Q) (st' : Store)
  : Prop :=
  exists att1 att2 att3 group st1,
    find_instance fuel st = (Ok (att1, att2, att3, group), st1)
    /\ let r := fst (rand (np_random st1)) in
       let group' :=
         if Qle_bool (fadd one_percent r) (noise_percentage (obj st1))
         then (if group =? 0 then 1 else 0) else group in
       row = [att1; att2; att3; inject_Z group']
       /\ st' = set_obj (set_current_instance (firstn 3 row) (skipn 3 row))
                  (mkStore (obj st1) (snd (rand (np_random st1)))).

(** Successive passes. *)
Inductive sample_steps (fuel : nat) : Store -> list (list Q) -> Store -> Prop :=
| steps_done (st : Store) : sample_steps fuel st [] st
| steps_next (st st1 st' : Store) (row : list Q) (rows : list (list Q)) :
    sample_step fuel st row st1 ->
    sample_steps fuel st1 rows st' ->
    sample_steps fuel st (row :: rows) st'.

(** A computation that leaves the setup alone, whatever it comes to. *)
Definition keeps_setup {A} (m : M Store A) : Prop :=
  forall st, same_setup (obj st) (obj (snd (m st))).

(** A computation whose outcome and effect depend on the function the
    index selects, not on the index. *)
Definition respects_function {A} (m : M Store A) : Prop :=
  forall a b, same_function a b ->
    fst (m a) = fst (m b) /\ same_function (snd (m a)) (snd (m b)).

(** The generator with its index replaced by the position it wraps to. *)
Definition unwrapped (st : Store) : Store :=
  set_obj (set_classification_function_index
             (wrapped (classification_function_index (obj st)))) st.

(** The random state after [k] draws of [rand]. *)
Definition draws (k : nat) (s : RandomState) : RandomState :=
  Nat.iter k (fun s => snd (rand s)) s.

End Generator.

End Sea.

(** ** evaluate_stream_gen_speed.py *)

Module Evaluator.

(** A batch: the features matrix and the labels vector. *)
Definition Batch : Type := (list (list Q) * list Q)%type.

(** What the evaluator asks of the [stream] object it is given. *)
Class BaseInstanceStream (S : Type) : Type := {
  estimated_remaining_instances : S -> Z;
  next_instance : Z -> M S Batch
}.

Record EvaluateStreamGenerationSpeed : Type := mkEvaluator {
  num_samples : Z;
  max_time : float;
  output_file : option string;
  batch_size : Z
}.

(** [EvaluateStreamGenerationSpeed(...)]: four assignments. *)
Definition __init__ (num_samples0 : Z) (max_time0 : float)
    (output_file0 : option string) (batch_size0 : Z)
  : outcome EvaluateStreamGenerationSpeed :=
  Ok (mkEvaluator num_samples0 max_time0 output_file0 batch_size0).

Definition default : EvaluateStreamGenerationSpeed :=
  mkEvaluator 100000 Inf None 1.

(** The calls the evaluator makes to the world around it, in order. *)
Inductive Event : Type :=
| EvTimer
| EvNextInstance (batch_size : Z).

(** The arguments of the [logging.info] calls; the message text (and its
    rounding to three decimals) is presentation. *)
Inductive LogRecord : Type :=
| MeasureSpeed (num_samples : Z)
| Evaluating
| Percent (p : Z)
| EvaluationTime (t : Q)
| Generated (sample_count : Z)
| SamplesPerSecond (rate : Q).

Section Measure.

Context {S : Type} {BS : BaseInstanceStream S}.

(** [clock n] is what the [n]-th call of [timer()] returns. *)
Variable clock : nat -> Q.

(** The locals of [_measure_stream_speed], the stream it drives and what
    it has done so far. *)
Record Run : Type := mkRun {
  stream : S;
  sample_count : Z;
  true_percentage_index : Z;
  timer_calls : nat;
  history : list Event;
  log : list LogRecord
}.

(** [history] and [log] are kept latest first; these are the calls and
    the log lines in the order they were made. *)
Definition events (r : Run) : list Event := rev_append (history r) [].
Definition logged (r : Run) : list LogRecord := rev_append (log r) [].

Definition start (s : S) : Run := mkRun s 0 0 0 [] [].

Definition timer : M Run Q :=
  fun r =>
    (Ok (clock (timer_calls r)),
     mkRun (stream r) (sample_count r) (true_percentage_index r)
       (Datatypes.S (timer_calls r)) (EvTimer :: history r) (log r)).

Definition info (m : LogRecord) : M Run unit :=
  modify (fun r =>
    mkRun (stream r) (sample_count r) (true_percentage_index r)
      (timer_calls r) (history r) (m :: log r)).

(** [stream.next_instance(batch_size)] *)
Definition pull (n : Z) : M Run Batch :=
  fun r =>
    let (o, s') := next_instance n (stream r) in
    (o, mkRun s' (sample_count r) (true_percentage_index r)
          (timer_calls r) (EvNextInstance n :: history r) (log r)).

Definition add_samples (n : Z) : M Run unit :=
  modify (fun r =>
    mkRun (stream r) (sample_count r + n) (true_percentage_index r)
      (timer_calls r) (history r) (log r)).

Definition next_percentage : M Run unit :=
  modify (fun r =>
    mkRun (stream r) (sample_count r) (true_percentage_index r + 1)
      (timer_calls r) (history r) (log r)).

(** [float(sample_count) + batch_size >= ((index+1)*num_samples)/20] *)
Definition percentage_reached (self : EvaluateStreamGenerationSpeed)
    (r : Run) : bool :=
  Qle_bool
    (inject_Z ((true_percentage_index r + 1) * num_samples self) / 20)
    (inject_Z (sample_count r) + inject_Z (batch_size self)).

(** The inner [while]: one log line per twentieth reached. *)
Fixpoint log_progress (fuel : nat) (self : EvaluateStreamGenerationSpeed)
  : M Run unit :=
  match fuel with
  | O => out_of_fuel
  | Datatypes.S fuel' =>
      (r <- get ;;
       if percentage_reached self r then
         next_percentage ;;;
         r <- get ;;
         info (Percent (true_percentage_index r * 5)) ;;;
         log_progress fuel' self
       else ret tt)%py
  end.

(** The condition of the outer [while], at the reading [t] of the timer.
    [&] evaluates its three operands. *)
Definition budget_left (self : EvaluateStreamGenerationSpeed)
    (init_time : Q) (stream_local_max : float) (t : Q) (count : Z) : bool :=
  le_float (t - init_time) (max_time self)
  && (count + batch_size self <=? num_samples self)
  && le_float (inject_Z (count + batch_size self)) stream_local_max.

(** The outer [while]. *)
Fixpoint measure_loop (fuel : nat) (self : EvaluateStreamGenerationSpeed)
    (init_time : Q) (stream_local_max : float) : M Run unit :=
  match fuel with
  | O => out_of_fuel
  | Datatypes.S fuel' =>
      (t <- timer ;;
       r <- get ;;
       if budget_left self init_time stream_local_max t (sample_count r) then
         pull (batch_size self) ;;;
         add_samples (batch_size self) ;;;
         log_progress fuel' self ;;;
         measure_loop fuel' self init_time stream_local_max
       else ret tt)%py
  end.

Definition local_max (s : S) : float :=
  if estimated_remaining_instances s =? -1 then Inf
  else Fin (inject_Z (estimated_remaining_instances s)).

Definition _measure_stream_speed (fuel : nat)
    (self : EvaluateStreamGenerationSpeed) : M Run unit :=
  (init_time <- timer ;;
   info (MeasureSpeed (num_samples self)) ;;;
   info Evaluating ;;;
   r <- get ;;
   let stream_local_max := local_max (stream r) in
   measure_loop fuel self init_time stream_local_max ;;;
   end_time <- timer ;;
   r <- get ;;
   info (EvaluationTime (end_time - init_time)) ;;;
   info (Generated (sample_count r)) ;;;
   if Qeq_bool (end_time - init_time) 0 then raise ZeroDivisionError
   else info (SamplesPerSecond
                (inject_Z (sample_count r) / (end_time - init_time))))%py.

(** [eval(stream)]: the outcome and the run; the stream handed back is
    [stream] of the run. *)
Definition eval (fuel : nat) (self : EvaluateStreamGenerationSpeed) (s : S)
  : outcome unit * Run :=
  _measure_stream_speed fuel self (start s).

(** *** States the run passes through *)

(** After the timer has been read. *)
Definition ticked (r : Run) : Run :=
  mkRun (stream r) (sample_count r) (true_percentage_index r)
    (Datatypes.S (timer_calls r)) (EvTimer :: history r) (log r).

(** After a pull that left the stream in [s']. *)
Definition pulled (n : Z) (s' : S) (r : Run) : Run :=
  mkRun s' (sample_count r) (true_percentage_index r)
    (timer_calls r) (EvNextInstance n :: history r) (log r).

(** After [sample_count += n]. *)
Definition counted (n : Z) (r : Run) : Run :=
  mkRun (stream r) (sample_count r + n) (true_percentage_index r)
    (timer_calls r) (history r) (log r).

(** The history after [k] more iterations that pull [n] each. *)
Definition iterated (n : Z) (k : nat) (h : list Event) : list Event :=
  Nat.iter k (fun h => EvNextInstance n :: EvTimer :: h) h.

(** The state in which the outer loop starts: the timer read once, two
    lines logged. *)
Definition begun (self : EvaluateStreamGenerationSpeed) (s : S) : Run :=
  mkRun s 0 0 1 [EvTimer] [Evaluating; MeasureSpeed (num_samples self)].

(** The lines after the outer loop, from the state [r] it ended in. *)
Definition finish (r : Run) : outcome unit * Run :=
  let elapsed := (clock (timer_calls r) - clock 0)%Q in
  let closing := [Generated (sample_count r); EvaluationTime elapsed] in
  if Qeq_bool elapsed 0 then
    (Raise ZeroDivisionError,
     mkRun (stream r) (sample_count r) (true_percentage_index r)
       (Datatypes.S (timer_calls r)) (EvTimer :: history r)
       (closing ++ log r))
  else
    (Ok tt,
     mkRun (stream r) (sample_count r) (true_percentage_index r)
       (Datatypes.S (timer_calls r)) (EvTimer :: history r)
       (SamplesPerSecond (inject_Z (sample_count r) / elapsed)
          :: closing ++ log r)).

(** The first [k] calls of [next_instance(n)] on [s] all return batches. *)
Fixpoint delivers (n : Z) (k : nat) (s : S) : bool :=
  match k with
  | O => true
  | Datatypes.S k' =>
      match next_instance n s with
      | (Ok _, s') => delivers n k' s'
      | _ => false
      end
  end.

(** The first [k] calls of [next_instance(n)] on [s] come back, with a
    batch or an exception; after an exception there is no further call. *)
Fixpoint answers (n : Z) (k : nat) (s : S) : bool :=
  match k with
  | O => true
  | Datatypes.S k' =>
      match next_instance n s with
      | (Ok _, s') => answers n k' s'
      | (Raise _, _) => true
      | (OutOfFuel, _) => false
      end
  end.

(** The events of [k] iterations of the outer loop. *)
Definition iteration_events (n : Z) (k : nat) : list Event :=
  concat (repeat [EvTimer; EvNextInstance n] k).

(** Number of samples asked of the stream. *)
Definition requested (l : list Event) : Z :=
  fold_right (fun e acc =>
    match e with EvNextInstance n => n + acc | EvTimer => acc end) 0 l.

(** Number of [next_instance] calls. *)
Definition pulls (l : list Event) : nat :=
  List.length (filter (fun e =>
    match e with EvNextInstance _ => true | EvTimer => false end) l).

(** *** Vocabulary for the exact course of a run *)

(** The number of samples the two count conditions of the loop allow:
    [num_samples], or what the stream has left when that is less. *)
Definition sample_limit (self : EvaluateStreamGenerationSpeed) (s : S) : Z :=
  if estimated_remaining_instances s =? -1 then num_samples self
  else Z.min (num_samples self) (estimated_remaining_instances s).

(** The stream after [k] calls of [next_instance(n)]. *)
Fixpoint after_pulls (n : Z) (k : nat) (s : S) : S :=
  match k with
  | O => s
  | Datatypes.S k' => after_pulls n k' (snd (next_instance n s))
  end.

(** The progress index the inner loop stops at when [count] samples are
    counted: the twentieths of [num_samples] that [count + batch_size]
    reaches. *)
Definition percentage_index_at (self : EvaluateStreamGenerationSpeed)
    (count : Z) : Z :=
  20 * (count + batch_size self) / num_samples self.

(** The progress lines for the indices above [from] up to [to]. *)
Definition percent_lines (from to : Z) : list LogRecord :=
  map (fun i => Percent ((from + Z.of_nat i) * 5))
    (seq 1 (Z.to_nat (to - from))).

Definition is_percent (m : LogRecord) : bool :=
  match m with Percent _ => true | _ => false end.

(** *** The two tests on doubles *)

(** [budget_left] and [percentage_reached] take the timer readings and
    the counts as exact numbers.  These are the time test and the
    progress test with each operation rounded as the source has it:
    the difference of two readings; [float(sample_count)], the sum with
    [batch_size] and the quotient by 20. *)
Definition time_left_double (self : EvaluateStreamGenerationSpeed)
    (init_time t : Q) : bool :=
  le_float (round (t - init_time)) (max_time self).

Definition percentage_reached_double (self : EvaluateStreamGenerationSpeed)
    (r : Run) : bool :=
  Qle_bool
    (round (inject_Z ((true_percentage_index r + 1) * num_samples self) / 20))
    (fadd (round (inject_Z (sample_count r)))
       (round (inject_Z (batch_size self)))).

(** [elapsed] is over [max_time] by more than one part in [2^53] of
    itself, the most that rounding the difference can take away. *)
Definition over_time (self : EvaluateStreamGenerationSpeed) (elapsed : Q)
  : Prop :=
  match max_time self with
  | Fin m => (m < elapsed * (1 - pow2 (-53)))%Q
             /\ (m < elapsed * (1 + pow2 (-53)))%Q
  | Inf => False
  end.

End Measure.

End Evaluator.

(** ** _test_oza_bagging_adwin.py *)

Module Demo.

(** The classifier the demo drives, [OzaBaggingAdwin] over [KNNAdwin],
    seen through the two calls the loop makes.  [predict] answers [None]
    when it has no prediction, and otherwise one label per row of [X];
    [partial_fit] takes the optional [classes] argument. *)
Class Classifier (C : Type) : Type := {
  predict : list (list Q) -> C -> option (list Q) * C;
  partial_fit : list (list Q) -> list Q -> option (list Z) -> C -> C;
  predict_shape : forall X c p,
    fst (predict X c) = Some p -> List.length p = List.length X
}.

(** The calls on the stream and on the classifier, in order.  [id] is the
    number of [next_instance] calls made before the one that produced the
    batch. *)
Inductive Event : Type :=
| EvNextInstance (id : nat) (n : Z) (X : list (list Q)) (y : list Q)
| EvPredict (id : nat) (X : list (list Q)) (my_pred : option (list Q))
| EvPartialFit (id : nat) (X : list (list Q)) (y : list Q)
    (classes : option (list Z)).

Inductive Output : Type :=
| Progress (p : Z)
| SamplesAnalyzed (sample_count : Z)
| MyPerformance (performance : Q).

Section Loop.

Context {NR : Sea.NumpyRandom} {C : Type} {CL : Classifier C}.

Record Demo : Type := mkDemo {
  stream : Sea.Store;
  clf : C;
  sample_count : Z;
  correctly_classified : Z;
  first : bool;
  next_id : nat;
  history : list Event;
  printed : list Output
}.

(** [history] and [printed] are kept latest first; these are the calls
    and the lines written in the order they were made. *)
Definition events (d : Demo) : list Event := rev_append (history d) [].
Definition output (d : Demo) : list Output := rev_append (printed d) [].

Definition start (st : Sea.Store) (c : C) : Demo :=
  mkDemo st c 0 0 true 0 [] [].

Definition emit (o : Output) : M Demo unit :=
  modify (fun d =>
    mkDemo (stream d) (clf d) (sample_count d) (correctly_classified d)
      (first d) (next_id d) (history d) (o :: printed d)).

(** [X, y = stream.next_instance(n)] *)
Definition pull (fuel : nat) (n : Z) : M Demo (nat * list (list Q) * list Q) :=
  fun d =>
    match Sea.next_instance fuel n (stream d) with
    | (Ok (X, y), st') =>
        (Ok (next_id d, X, y),
         mkDemo st' (clf d) (sample_count d) (correctly_classified d)
           (first d) (S (next_id d))
           (EvNextInstance (next_id d) n X y :: history d) (printed d))
    | (Raise e, st') =>
        (Raise e,
         mkDemo st' (clf d) (sample_count d) (correctly_classified d)
           (first d) (next_id d) (history d) (printed d))
    | (OutOfFuel, st') =>
        (OutOfFuel,
         mkDemo st' (clf d) (sample_count d) (correctly_classified d)
           (first d) (next_id d) (history d) (printed d))
    end.

(** [my_pred = clf.predict(X)] *)
Definition call_predict (id : nat) (X : list (list Q))
  : M Demo (option (list Q)) :=
  fun d =>
    let (p, c') := predict X (clf d) in
    (Ok p,
     mkDemo (stream d) c' (sample_count d) (correctly_classified d)
       (first d) (next_id d) (EvPredict id X p :: history d) (printed d)).

(** [clf.partial_fit(X, y, classes=...)] *)
Definition call_partial_fit (id : nat) (X : list (list Q)) (y : list Q)
    (classes : option (list Z)) : M Demo unit :=
  modify (fun d =>
    mkDemo (stream d) (partial_fit X y classes (clf d)) (sample_count d)
      (correctly_classified d) (first d) (next_id d)
      (EvPartialFit id X y classes :: history d) (printed d)).

Definition set_first (b : bool) : M Demo unit :=
  modify (fun d =>
    mkDemo (stream d) (clf d) (sample_count d) (correctly_classified d)
      b (next_id d) (history d) (printed d)).

Definition count_correct : M Demo unit :=
  modify (fun d =>
    mkDemo (stream d) (clf d) (sample_count d) (correctly_classified d + 1)
      (first d) (next_id d) (history d) (printed d)).

Definition count_sample : M Demo unit :=
  modify (fun d =>
    mkDemo (stream d) (clf d) (sample_count d + 1) (correctly_classified d)
      (first d) (next_id d) (history d) (printed d)).

(** [x % m] and [x // m] on floats, for a positive [m], on exact
    numbers: they are the remainder and the quotient the source computes
    when [x] and [m] are integers below [2^53], as they are when
    [max_samples] is a multiple of 20. *)
Definition float_floordiv (x m : Q) : Z := Qfloor (x / m).
Definition float_mod (x m : Q) : Q := (x - m * inject_Z (float_floordiv x m))%Q.

(** The progress line at the head of the loop body. *)
Definition log_percent (max_samples : Z) : M Demo unit :=
  (d <- get ;;
   let twentieth := (inject_Z max_samples / 20)%Q in
   if Qeq_bool (float_mod (inject_Z (sample_count d)) twentieth) 0
   then emit (Progress
                (float_floordiv (inject_Z (sample_count d)) twentieth * 5))
   else ret tt)%py.

(** [if my_pred is not None: if y[0] == my_pred[0]: correct += 1] *)
Definition score (y : list Q) (my_pred : option (list Q)) : M Demo unit :=
  match my_pred with
  | Some p =>
      (y0 <- lift_outcome (getitem y 0) ;;
       p0 <- lift_outcome (getitem p 0) ;;
       if Qeq_bool y0 p0 then count_correct else ret tt)%py
  | None => ret tt
  end.

(** [while sample_count < max_samples] *)
Fixpoint main_loop (fuel : nat) (max_samples : Z) : M Demo unit :=
  match fuel with
  | O => out_of_fuel
  | S fuel' =>
      (d <- get ;;
       if sample_count d <? max_samples then
         log_percent max_samples ;;;
         b <- pull fuel 1 ;;
         let '(id, X, y) := b in
         my_pred <- call_predict id X ;;
         d <- get ;;
         (if first d then
            call_partial_fit id X y
              (Some (Sea.get_classes (Sea.obj (stream d)))) ;;;
            set_first false
          else call_partial_fit id X y None) ;;;
         score y my_pred ;;;
         count_sample ;;;
         main_loop fuel' max_samples
       else ret tt)%py
  end.

(** [if train_size > 0]: one batch, one [partial_fit], no [predict]. *)
Definition pretrain (fuel : nat) (train_size : Z) : M Demo unit :=
  if train_size >? 0 then
    (b <- pull fuel train_size ;;
     let '(id, X, y) := b in
     d <- get ;;
     call_partial_fit id X y (Some (Sea.get_classes (Sea.obj (stream d)))) ;;;
     set_first false)%py
  else ret tt.

(** The two [print] lines. *)
Definition report : M Demo unit :=
  (d <- get ;;
   emit (SamplesAnalyzed (sample_count d)) ;;;
   if sample_count d =? 0 then raise ZeroDivisionError
   else emit (MyPerformance
                (inject_Z (correctly_classified d)
                 / inject_Z (sample_count d))))%py.

Definition body (fuel : nat) (max_samples train_size : Z) : M Demo unit :=
  (pretrain fuel train_size ;;;
   main_loop fuel max_samples ;;;
   report)%py.

(** The demo with its two constants as parameters; [c] is the classifier
    as constructed, [np] the state of [numpy.random] at the start. *)
Definition demo_with (max_samples train_size : Z) (fuel : nat)
    (c : C) (np : Sea.RandomState) : outcome unit * Demo :=
  let blank := Sea.mkStore
                 (Sea.mkSEAGenerator None None 0 0 false 0 false [] []) np in
  match Sea.__init__ 1 42 false (67 # 10) np with
  | Ok st => body fuel max_samples train_size (start (Sea.prepare_for_use st) c)
  | Raise e => (Raise e, start blank c)
  | OutOfFuel => (OutOfFuel, start blank c)
  end.

Definition demo : nat -> C -> Sea.RandomState -> outcome unit * Demo :=
  demo_with 20000 10.

(** One pass through the loop body: the batch pulled, the prediction made
    for it and the [classes] argument of the fit. *)
Record Round : Type := mkRound {
  round_id : nat;
  round_X : list (list Q);
  round_y : list Q;
  round_pred : option (list Q);
  round_classes : option (list Z)
}.

(** The events of a round. *)
Definition round_events (r : Round) : list Event :=
  [EvNextInstance (round_id r) 1 (round_X r) (round_y r);
   EvPredict (round_id r) (round_X r) (round_pred r);
   EvPartialFit (round_id r) (round_X r) (round_y r) (round_classes r)].

(** The round adds to [correctly_classified]. *)
Definition round_correct (r : Round) : bool :=
  match round_pred r with
  | Some p =>
      match getitem (round_y r) 0, getitem p 0 with
      | Ok y0, Ok p0 => Qeq_bool y0 p0
      | _, _ => false
      end
  | None => false
  end.

(** The round has a prediction that is not the [None] sentinel. *)
Definition round_answered (r : Round) : bool :=
  match round_pred r with Some _ => true | None => false end.

Definition count_rounds (f : Round -> bool) (rounds : list Round) : Z :=
  Z.of_nat (List.length (filter f rounds)).

(** Test-then-train on the learner's state: the prediction of each round
    is made in the state left by the rounds before it, and the round's
    batch reaches the learner through [partial_fit] after that. *)
Inductive prequential : C -> list Round -> C -> Prop :=
| prequential_done (c : C) : prequential c [] c
| prequential_round (c c' : C) (r : Round) (rest : list Round) :
    round_pred r = fst (predict (round_X r) c) ->
    prequential
      (partial_fit (round_X r) (round_y r) (round_classes r)
         (snd (predict (round_X r) c))) rest c' ->
    prequential c (r :: rest) c'.

Definition is_predict (e : Event) : bool :=
  match e with EvPredict _ _ _ => true | _ => false end.

Definition is_partial_fit (e : Event) : bool :=
  match e with EvPartialFit _ _ _ _ => true | _ => false end.

Definition event_id (e : Event) : nat :=
  match e with
  | EvNextInstance id _ _ _ => id
  | EvPredict id _ _ => id
  | EvPartialFit id _ _ _ => id
  end.

(** Predictions that are not the [None] sentinel. *)
Definition answered (l : list Event) : Z :=
  Z.of_nat (List.length (filter (fun e =>
    match e with EvPredict _ _ (Some _) => true | _ => false end) l)).

(** What precedes the loop: with a positive [train_size], one batch of
    that size pulled and fitted with the classes, leaving the learner in
    [c0]; otherwise nothing. *)
Definition pretraining (train_size : Z) (c : C) (pre : list Event) (c0 : C)
  : Prop :=
  (0 < train_size
   /\ exists X0 y0,
        pre = [EvNextInstance 0 train_size X0 y0;
               EvPartialFit 0 X0 y0 (Some [0; 1])]
        /\ Z.of_nat (List.length X0) = train_size
        /\ List.length y0 = List.length X0
        /\ c0 = partial_fit X0 y0 (Some [0; 1]) c)
  \/ (train_size <= 0 /\ pre = [] /\ c0 = c).

(** The generator the demo constructs draws without class balancing from
    a classification function of the list. *)
Definition unbalanced (st : Sea.Store) : Prop :=
  Sea.balance_classes (Sea.obj st) = false
  /\ 0 <= Sea.classification_function_index (Sea.obj st) <= 3.

(** *** Vocabulary for the trace of the demo *)

(** After [predict] and [partial_fit] on the batch [X, y] pulled as
    number [id]. *)
Definition after_fit (id : nat) (X : list (list Q)) (y : list Q) (d : Demo)
  : Demo :=
  let classes := if first d
                 then Some (Sea.get_classes (Sea.obj (stream d)))
                 else None in
  mkDemo (stream d)
    (partial_fit X y classes (snd (predict X (clf d))))
    (sample_count d) (correctly_classified d) false (next_id d)
    (EvPartialFit id X y classes
       :: EvPredict id X (fst (predict X (clf d))) :: history d)
    (printed d).

(** The [classes] arguments of the [partial_fit] calls, in order. *)
Definition fit_classes (l : list Event) : list (option (list Z)) :=
  flat_map (fun e =>
    match e with EvPartialFit _ _ _ classes => [classes] | _ => [] end) l.

(** The label of every row of a pulled batch is the opposite of its
    threshold label. *)
Definition flipped_batch (index : Z) (e : Event) : Prop :=
  match e with
  | EvNextInstance _ _ X y => y = map (Sea.spec_row_flipped index) X
  | _ => True
  end.

(** The progress lines of [n] passes through the loop that start at
    the count [from], when a twentieth of [max_samples] is [m]. *)
Definition progress_lines (m from : Z) (n : nat) : list Output :=
  flat_map (fun i =>
    let count := from + Z.of_nat i in
    if count mod m =? 0 then [Progress (count / m * 5)] else [])
    (seq 0 n).

(** What [fit_classes] is after [k] calls of [partial_fit], the first
    of them made while [first] had the value given. *)
Definition classes_once (first : bool) (k : nat)
  : list (option (list Z)) :=
  match k with
  | O => []
  | S k' => (if first then Some [0; 1] else None) :: repeat None k'
  end.

End Loop.

End Demo.

(** ** SEAGenerator as the evaluator's stream *)

(** [SEAGenerator] extends [BaseInstanceStream]: the evaluator sees the
    generator together with the random state it draws from. *)
Definition sea_stream {NR : Sea.NumpyRandom} (fuel : nat)
  : Evaluator.BaseInstanceStream Sea.Store :=
  {| Evaluator.estimated_remaining_instances :=
       fun st => Sea.estimated_remaining_instances (Sea.obj st);
     Evaluator.next_instance := Sea.next_instance fuel |}.

(** ** Concrete collaborators, for running the programs *)

Module Fixtures.

(** A scripted random generator: the state counts the draws, and the
    draws repeat 0.3, 0.5, 0.9, 0.0. *)
Definition scripted_draw (n : Z) : Q :=
  if n mod 4 =? 0 then 3 # 10
  else if n mod 4 =? 1 then 1 # 2
  else if n mod 4 =? 2 then 9 # 10
  else 0.

Definition scripted_random : Sea.NumpyRandom.
Proof.
  refine {| Sea.RandomState := Z;
            Sea.seed := fun z => 4 * z;
            Sea.rand := fun n => (scripted_draw n, n + 1);
            Sea.randint := fun k n => (n mod k, n + 1) |}.
  - intro s; unfold scripted_draw; cbn [fst].
    destruct (s mod 4 =? 0); [|destruct (s mod 4 =? 1);
                               [|destruct (s mod 4 =? 2)]];
      split; unfold Qle, Qlt; simpl; lia.
  - intro s; unfold scripted_draw; cbn [fst].
    destruct (s mod 4 =? 0); [|destruct (s mod 4 =? 1);
                               [|destruct (s mod 4 =? 2)]];
      vm_compute; discriminate.
Defined.

(** Draws that meet a rounding: ten times the first one is the double
    [3 + 2^-51], and its sum with 5, a quarter of the way from the
    double 8 to the next one, rounds to 8. *)
Definition rounding_draw (n : Z) : Q :=
  if n mod 4 =? 0 then 2702159776422298 # 9007199254740992
  else if n mod 4 =? 1 then 1 # 2
  else 0.

Definition rounding_random : Sea.NumpyRandom.
Proof.
  refine {| Sea.RandomState := Z;
            Sea.seed := fun z => 4 * z;
            Sea.rand := fun n => (rounding_draw n, n + 1);
            Sea.randint := fun k n => (n mod k, n + 1) |}.
  - intro s; unfold rounding_draw; cbn [fst].
    destruct (s mod 4 =? 0); [|destruct (s mod 4 =? 1)];
      split; unfold Qle, Qlt; simpl; lia.
  - intro s; unfold rounding_draw; cbn [fst].
    destruct (s mod 4 =? 0); [|destruct (s mod 4 =? 1)];
      vm_compute; discriminate.
Defined.

(** A stream of [k] remaining instances, all zero, that refuses a request
    it cannot serve. *)
Definition bounded_stream : Evaluator.BaseInstanceStream Z :=
  {| Evaluator.estimated_remaining_instances := fun k => k;
     Evaluator.next_instance := fun n k =>
       if (0 <=? n) && (n <=? k)
       then (Ok (repeat [0%Q; 0%Q; 0%Q] (Z.to_nat n), repeat 0%Q (Z.to_nat n)),
             k - n)
       else (Raise ValueError, k) |}.

(** A classifier that has no prediction before it has seen [warm]
    instances and predicts class 1 afterwards; the state is the number of
    instances seen. *)
Definition warming_classifier (warm : nat) : Demo.Classifier nat.
Proof.
  refine {| Demo.predict := fun X c =>
              (if Nat.ltb c warm then None
               else Some (map (fun _ => 1%Q) X), c);
            Demo.partial_fit := fun X _ _ c => (List.length X + c)%nat |}.
  intros X c p; simpl.
  destruct (Nat.ltb c warm); [discriminate|].
  intro H; injection H as <-. apply length_map.
Defined.

(** One timer tick per call. *)
Definition ticking_clock (n : nat) : Q := inject_Z (Z.of_nat n).

(** A generator over the scripted draws, constructed with seed 42 and
    prepared for use; [Sea.__init__] returns [Ok] of the store that
    [prepare_for_use] is applied to here. *)
Definition scripted_sea (classification_function : Z) (balance : bool)
    (noise : Q) : @Sea.Store scripted_random :=
  Sea.prepare_for_use
    (Sea.__configure classification_function 42 balance noise
       (Sea.mkStore (Sea.mkSEAGenerator None None 0 0 false 0 false [] [])
          (0 : @Sea.RandomState scripted_random))).

(** A generator of function 0 without noise over the draws that meet
    a rounding. *)
Definition rounding_sea : @Sea.Store rounding_random :=
  Sea.prepare_for_use
    (Sea.__configure 0 42 false 0
       (Sea.mkStore (Sea.mkSEAGenerator None None 0 0 false 0 false [] [])
          (0 : @Sea.RandomState rounding_random))).

(** The demo on the scripted draws, with a classifier that is cold for
    the first two instances of the loop. *)
Definition scripted_demo
  : outcome unit * @Demo.Demo scripted_random nat :=
  @Demo.demo scripted_random nat (warming_classifier 12)
    (Z.to_nat 20001) 0%nat 0.

(** The scripted generator as a stream; without class balancing one
    unit of fuel serves every sample. *)
Definition scripted_stream : Evaluator.BaseInstanceStream Sea.Store :=
  @sea_stream scripted_random 1.

End Fixtures.

(* ================================================================== *)
(** * Part II: properties *)
(* ================================================================== *)

(** ** Python indexing *)

Section Getitem.

Variable A : Type.

(** An index within [0, len) selects the entry at that position. *)
Lemma getitem_inside (l : list A) (i : Z) :
  0 <= i < Z.of_nat (List.length l) ->
  exists x, nth_error l (Z.to_nat i) = Some x /\ getitem l i = Ok x.
Proof.
  intros Hi. unfold getitem.
  destruct (i <? 0) eqn:Hneg; [apply Z.ltb_lt in Hneg; lia|].
  replace ((0 <=? i) && (i <? Z.of_nat (List.length l))) with true
    by (symmetry; apply andb_true_iff; split;
        [apply Z.leb_le | apply Z.ltb_lt]; lia).
  destruct (nth_error l (Z.to_nat i)) as [x|] eqn:Hnth.
  - exists x; split; reflexivity.
  - apply nth_error_None in Hnth. lia.
Qed.

(** An index outside [-len, len) raises. *)
Lemma getitem_outside (l : list A) (i : Z) :
  i < - Z.of_nat (List.length l) \/ Z.of_nat (List.length l) <= i ->
  getitem l i = Raise IndexError.
Proof.
  intros Hi. unfold getitem.
  destruct (i <? 0) eqn:Hneg.
  - apply Z.ltb_lt in Hneg.
    replace (0 <=? i + Z.of_nat (List.length l)) with false
      by (symmetry; apply Z.leb_gt; lia).
    reflexivity.
  - apply Z.ltb_ge in Hneg.
    replace (i <? Z.of_nat (List.length l)) with false
      by (symmetry; apply Z.ltb_ge; lia).
    rewrite andb_false_r. reflexivity.
Qed.

End Getitem.

(** ** Rounding to the nearest double *)

Module Rounding.

Import Py.

Lemma pow2_pos (e : Z) : (0 < pow2 e)%Q.
Proof. apply Qpower_0_lt. reflexivity. Qed.

Lemma pow2_add (a b : Z) : (pow2 (a + b) == pow2 a * pow2 b)%Q.
Proof. apply Qpower_plus. discriminate. Qed.

Lemma pow2_le (a b : Z) : a <= b -> (pow2 a <= pow2 b)%Q.
Proof. intro H. apply Qpower_le_compat_l; [exact H|discriminate]. Qed.

Lemma pow2_lt_inv (a b : Z) : (pow2 a < pow2 b)%Q -> a < b.
Proof. intro H. apply (Qpower_lt_compat_l_inv 2); [exact H|reflexivity]. Qed.

Lemma pow2_nonneg (e : Z) : 0 <= e -> (pow2 e == inject_Z (2 ^ e))%Q.
Proof. intro H. unfold pow2. rewrite Zpower_Qpower by exact H. reflexivity. Qed.

Lemma Zdiv_lt_cross (n A d B : Z) :
  0 < d -> 0 < B -> n * B < A * d ->
  (inject_Z n / inject_Z d < inject_Z A / inject_Z B)%Q.
Proof.
  intros Hd HB H. destruct d as [|d|d]; try lia. destruct B as [|B|B]; try lia.
  unfold Qlt, Qdiv, Qmult, Qinv, inject_Z. cbn [Qnum Qden].
  rewrite !Z.mul_1_r, !Pos.mul_1_l. lia.
Qed.

Lemma Zdiv_le_cross (n A d B : Z) :
  0 < d -> 0 < B -> A * d <= n * B ->
  (inject_Z A / inject_Z B <= inject_Z n / inject_Z d)%Q.
Proof.
  intros Hd HB H. destruct d as [|d|d]; try lia. destruct B as [|B|B]; try lia.
  unfold Qle, Qdiv, Qmult, Qinv, inject_Z. cbn [Qnum Qden].
  rewrite !Z.mul_1_r, !Pos.mul_1_l. lia.
Qed.

Lemma mag_spec (q : Q) :
  (0 < q)%Q -> (pow2 (mag q) <= q)%Q /\ (q < pow2 (mag q + 1))%Q.
Proof.
  intro Hq. destruct q as [n d]. unfold mag. cbn [Qnum Qden].
  assert (Hn : 0 < n) by (unfold Qlt in Hq; cbn in Hq; lia).
  set (a := Z.log2 n). set (b := Z.log2 (Z.pos d)).
  destruct (Z.log2_spec n Hn) as [Ha1 Ha2]. fold a in Ha1, Ha2.
  destruct (Z.log2_spec (Z.pos d) ltac:(lia)) as [Hb1 Hb2].
  fold b in Hb1, Hb2.
  assert (Ha0 : 0 <= a) by apply Z.log2_nonneg.
  assert (Hb0 : 0 <= b) by apply Z.log2_nonneg.
  replace (Z.succ a) with (a + 1) in Ha2 by lia.
  replace (Z.succ b) with (b + 1) in Hb2 by lia.
  assert (Hq' : (n # d == inject_Z n / inject_Z (Z.pos d))%Q)
    by apply Qmake_Qdiv.
  assert (Hup : (n # d < pow2 (a - b + 1))%Q).
  { replace (a - b + 1) with ((a + 1) - b) by lia.
    unfold pow2. rewrite Qpower_minus by discriminate.
    fold (pow2 (a + 1)). fold (pow2 b).
    rewrite (pow2_nonneg (a + 1)), (pow2_nonneg b), Hq' by lia.
    apply Zdiv_lt_cross; nia. }
  assert (Hlow : (pow2 (a - b - 1) <= n # d)%Q).
  { replace (a - b - 1) with (a - (b + 1)) by lia.
    unfold pow2. rewrite Qpower_minus by discriminate.
    fold (pow2 a). fold (pow2 (b + 1)).
    rewrite (pow2_nonneg a), (pow2_nonneg (b + 1)), Hq' by lia.
    apply Zdiv_le_cross; nia. }
  destruct (Qle_bool (pow2 (a - b)) (n # d)) eqn:E.
  - apply Qle_bool_iff in E. split; assumption.
  - split; [exact Hlow|].
    replace (a - b - 1 + 1) with (a - b) by lia.
    apply Qnot_le_lt. intro H. apply Qle_bool_iff in H. congruence.
Qed.

Lemma mag_unique (q : Q) (e : Z) :
  (pow2 e <= q)%Q -> (q < pow2 (e + 1))%Q -> mag q = e.
Proof.
  intros H1 H2.
  assert (Hq : (0 < q)%Q)
    by (eapply Qlt_le_trans; [apply (pow2_pos e)|exact H1]).
  destruct (mag_spec q Hq) as [M1 M2].
  assert (mag q < e + 1)
    by (apply pow2_lt_inv; eapply Qle_lt_trans; eassumption).
  assert (e < mag q + 1)
    by (apply pow2_lt_inv; eapply Qle_lt_trans; eassumption).
  lia.
Qed.

Lemma mag_le (x y : Q) : (0 < x)%Q -> (x <= y)%Q -> mag x <= mag y.
Proof.
  intros Hx Hxy.
  assert (Hy : (0 < y)%Q) by (eapply Qlt_le_trans; eassumption).
  destruct (mag_spec x Hx) as [Lx _]. destruct (mag_spec y Hy) as [_ Uy].
  assert (mag x < mag y + 1); [|lia].
  apply pow2_lt_inv. eapply Qle_lt_trans; [exact Lx|].
  eapply Qle_lt_trans; eassumption.
Qed.

Lemma mag_comp (x y : Q) : (0 < x)%Q -> (x == y)%Q -> mag x = mag y.
Proof.
  intros Hx E. destruct (mag_spec x Hx) as [Lx Ux].
  symmetry. apply mag_unique; rewrite <- E; assumption.
Qed.

(** The rest of [q] above its floor. *)
Lemma Qfloor_rest (q : Q) :
  (0 <= q - inject_Z (Qfloor q))%Q /\ (q - inject_Z (Qfloor q) < 1)%Q.
Proof.
  pose proof (Qfloor_le q) as H1. pose proof (Qlt_floor q) as H2.
  rewrite inject_Z_plus in H2. change (inject_Z 1) with 1%Q in H2.
  split; lra.
Qed.

Lemma rne_error (q : Q) :
  (- (1 # 2) <= inject_Z (rne q) - q)%Q /\ (inject_Z (rne q) - q <= 1 # 2)%Q.
Proof.
  unfold rne. destruct (Qfloor_rest q) as [R1 R2].
  destruct (q - inject_Z (Qfloor q) ?= 1 # 2)%Q eqn:E.
  - apply Qeq_alt in E.
    destruct (Z.even (Qfloor q)); rewrite ?inject_Z_plus;
      change (inject_Z 1) with 1%Q; split; lra.
  - apply Qlt_alt in E. split; lra.
  - apply Qgt_alt in E. rewrite inject_Z_plus.
    change (inject_Z 1) with 1%Q. split; lra.
Qed.

Lemma rne_comp (x y : Q) : (x == y)%Q -> rne x = rne y.
Proof.
  intro E. unfold rne. rewrite (Qfloor_comp _ _ E).
  assert (E2 : (x - inject_Z (Qfloor y) == y - inject_Z (Qfloor y))%Q)
    by (rewrite E; reflexivity).
  rewrite (Qcompare_comp _ _ E2 (1 # 2) (1 # 2) (Qeq_refl _)).
  reflexivity.
Qed.

Lemma rne_integer (k : Z) : rne (inject_Z k) = k.
Proof.
  unfold rne. rewrite Qfloor_Z.
  replace (inject_Z k - inject_Z k ?= 1 # 2)%Q with Lt; [reflexivity|].
  symmetry. apply Qlt_alt.
  setoid_replace (inject_Z k - inject_Z k)%Q with 0%Q by ring. reflexivity.
Qed.

Lemma rne_le (x y : Q) : (x <= y)%Q -> rne x <= rne y.
Proof.
  intro Hxy.
  pose proof (Qfloor_resp_le _ _ Hxy) as Hf.
  destruct (Qfloor_rest x) as [Lx Ux]. destruct (Qfloor_rest y) as [Ly Uy].
  unfold rne.
  destruct (Qcompare_spec (x - inject_Z (Qfloor x)) (1 # 2)) as [Ex|Ex|Ex];
    destruct (Qcompare_spec (y - inject_Z (Qfloor y)) (1 # 2)) as [Ey|Ey|Ey];
    destruct (Z.eq_dec (Qfloor x) (Qfloor y)) as [Eq|Ne];
    try rewrite Eq in *;
    repeat match goal with |- context [Z.even ?f] => destruct (Z.even f) end;
    try lia; exfalso; lra.
Qed.

(** The scaled number lies between [2^52] and [2^53]. *)
Lemma scaled_range (x : Q) :
  (0 < x)%Q ->
  (pow2 52 <= x * pow2 (52 - mag x))%Q
  /\ (x * pow2 (52 - mag x) < pow2 53)%Q.
Proof.
  intro Hx. destruct (mag_spec x Hx) as [M1 M2].
  pose proof (pow2_pos (52 - mag x)) as Hp.
  split.
  - setoid_replace (pow2 52) with (pow2 (mag x) * pow2 (52 - mag x))%Q.
    + apply Qmult_le_compat_r; [exact M1|apply Qlt_le_weak; exact Hp].
    + rewrite <- pow2_add. replace (mag x + (52 - mag x)) with 52 by lia.
      reflexivity.
  - setoid_replace (pow2 53) with (pow2 (mag x + 1) * pow2 (52 - mag x))%Q.
    + apply Qmult_lt_compat_r; assumption.
    + rewrite <- pow2_add. replace (mag x + 1 + (52 - mag x)) with 53 by lia.
      reflexivity.
Qed.

Lemma round_pos_value (x : Q) :
  (round_pos x
   == inject_Z (rne (x * pow2 (52 - mag x))) * pow2 (mag x - 52))%Q.
Proof. unfold round_pos. apply Qred_correct. Qed.

Lemma round_pos_bounds (x : Q) :
  (0 < x)%Q ->
  (pow2 (mag x) <= round_pos x)%Q /\ (round_pos x <= pow2 (mag x + 1))%Q.
Proof.
  intro Hx. destruct (scaled_range x Hx) as [S1 S2].
  pose proof (pow2_pos (mag x - 52)) as Hp.
  rewrite round_pos_value.
  assert (R1 : 2 ^ 52 <= rne (x * pow2 (52 - mag x))).
  { rewrite <- (rne_integer (2 ^ 52)). apply rne_le.
    rewrite <- (pow2_nonneg 52) by lia. exact S1. }
  assert (R2 : rne (x * pow2 (52 - mag x)) <= 2 ^ 53).
  { rewrite <- (rne_integer (2 ^ 53)). apply rne_le.
    rewrite <- (pow2_nonneg 53) by lia. apply Qlt_le_weak. exact S2. }
  split.
  - setoid_replace (pow2 (mag x)) with (pow2 52 * pow2 (mag x - 52))%Q.
    + apply Qmult_le_compat_r; [|apply Qlt_le_weak; exact Hp].
      rewrite (pow2_nonneg 52) by lia. rewrite <- Zle_Qle. exact R1.
    + rewrite <- pow2_add. replace (52 + (mag x - 52)) with (mag x) by lia.
      reflexivity.
  - setoid_replace (pow2 (mag x + 1)) with (pow2 53 * pow2 (mag x - 52))%Q.
    + apply Qmult_le_compat_r; [|apply Qlt_le_weak; exact Hp].
      rewrite (pow2_nonneg 53) by lia. rewrite <- Zle_Qle. exact R2.
    + rewrite <- pow2_add.
      replace (53 + (mag x - 52)) with (mag x + 1) by lia. reflexivity.
Qed.

Lemma round_pos_positive (x : Q) : (0 < x)%Q -> (0 < round_pos x)%Q.
Proof.
  intro Hx. eapply Qlt_le_trans; [apply (pow2_pos (mag x))|].
  apply round_pos_bounds. exact Hx.
Qed.

Lemma round_pos_le (x y : Q) :
  (0 < x)%Q -> (x <= y)%Q -> (round_pos x <= round_pos y)%Q.
Proof.
  intros Hx Hxy.
  assert (Hy : (0 < y)%Q) by (eapply Qlt_le_trans; eassumption).
  pose proof (mag_le x y Hx Hxy) as Hm.
  destruct (Z.eq_dec (mag x) (mag y)) as [E|N].
  - rewrite !round_pos_value, E.
    apply Qmult_le_compat_r; [|apply Qlt_le_weak; apply pow2_pos].
    rewrite <- Zle_Qle. apply rne_le.
    apply Qmult_le_compat_r; [exact Hxy|apply Qlt_le_weak; apply pow2_pos].
  - eapply Qle_trans; [apply (round_pos_bounds x Hx)|].
    eapply Qle_trans; [|apply (round_pos_bounds y Hy)].
    apply pow2_le. lia.
Qed.

Lemma round_pos_comp (x y : Q) :
  (0 < x)%Q -> (x == y)%Q -> round_pos x = round_pos y.
Proof.
  intros Hx E. unfold round_pos. rewrite (mag_comp x y Hx E).
  rewrite (rne_comp (x * pow2 (52 - mag y)) (y * pow2 (52 - mag y)));
    [reflexivity|]. rewrite E. reflexivity.
Qed.

(** Rounding depends on the number, not on the fraction that writes
    it. *)
Lemma round_comp (x y : Q) : (x == y)%Q -> round x = round y.
Proof.
  intro E. unfold round. rewrite (Qcompare_comp x y E 0%Q 0%Q (Qeq_refl 0%Q)).
  destruct (Qcompare_spec y 0) as [H|H|H]; [reflexivity| |].
  - f_equal. apply round_pos_comp; [lra|rewrite E; reflexivity].
  - apply round_pos_comp; [lra|exact E].
Qed.

(** Rounding keeps the order. *)
Lemma round_le (x y : Q) : (x <= y)%Q -> (round x <= round y)%Q.
Proof.
  intro Hxy. unfold round.
  destruct (Qcompare_spec x 0) as [Hx|Hx|Hx];
    destruct (Qcompare_spec y 0) as [Hy|Hy|Hy]; try lra.
  - apply Qlt_le_weak. apply round_pos_positive. exact Hy.
  - pose proof (round_pos_positive (- x) ltac:(lra)). lra.
  - pose proof (round_pos_le (- y) (- x) ltac:(lra) ltac:(lra)). lra.
  - pose proof (round_pos_positive (- x) ltac:(lra)).
    pose proof (round_pos_positive y Hy). lra.
  - apply round_pos_le; assumption.
Qed.

Lemma round_nonneg (x : Q) : (0 <= x)%Q -> (0 <= round x)%Q.
Proof. intro H. apply (round_le 0 x H). Qed.

(** The error of a rounding is at most one part in [2^53]. *)
Lemma round_pos_error (x : Q) :
  (0 < x)%Q ->
  (x - x * pow2 (-53) <= round_pos x)%Q
  /\ (round_pos x <= x + x * pow2 (-53))%Q.
Proof.
  intro Hx. destruct (mag_spec x Hx) as [M1 _].
  destruct (rne_error (x * pow2 (52 - mag x))) as [E1 E2].
  pose proof (pow2_pos (mag x - 52)) as Hp.
  assert (Hs : (x * pow2 (52 - mag x) * pow2 (mag x - 52) == x)%Q).
  { rewrite <- Qmult_assoc, <- pow2_add.
    replace (52 - mag x + (mag x - 52)) with 0 by lia.
    change (pow2 0) with 1%Q. ring. }
  assert (Hu : ((1 # 2) * pow2 (mag x - 52) <= x * pow2 (-53))%Q).
  { setoid_replace ((1 # 2) * pow2 (mag x - 52))%Q
      with (pow2 (mag x) * pow2 (-53))%Q.
    - apply Qmult_le_compat_r; [exact M1|apply Qlt_le_weak; apply pow2_pos].
    - rewrite <- pow2_add. replace (mag x + -53) with (-1 + (mag x - 52))
        by lia.
      rewrite pow2_add. reflexivity. }
  rewrite round_pos_value.
  set (m := inject_Z (rne (x * pow2 (52 - mag x)))) in *.
  set (s := (x * pow2 (52 - mag x))%Q) in *.
  set (p := pow2 (mag x - 52)) in *.
  set (u := pow2 (-53)) in *. clearbody m s p u.
  assert (B1 : (s - (1 # 2) <= m)%Q) by lra.
  assert (B2 : (m <= s + (1 # 2))%Q) by lra.
  assert (A1 : (s * p - (1 # 2) * p <= m * p)%Q).
  { setoid_replace (s * p - (1 # 2) * p)%Q with ((s - (1 # 2)) * p)%Q
      by ring.
    apply Qmult_le_compat_r; [exact B1|apply Qlt_le_weak; exact Hp]. }
  assert (A2 : (m * p <= s * p + (1 # 2) * p)%Q).
  { setoid_replace (s * p + (1 # 2) * p)%Q with ((s + (1 # 2)) * p)%Q
      by ring.
    apply Qmult_le_compat_r; [exact B2|apply Qlt_le_weak; exact Hp]. }
  split; lra.
Qed.

Lemma Qred_integer (n : Z) : Qred (inject_Z n) = inject_Z n.
Proof.
  unfold Qred, inject_Z.
  pose proof (Z.ggcd_gcd n 1) as Hg.
  pose proof (Z.ggcd_correct_divisors n 1) as Hd.
  destruct (Z.ggcd n 1) as [g [a b]]. cbn [fst snd] in *.
  rewrite Z.gcd_1_r in Hg. subst g. destruct Hd as [-> Hb].
  replace b with 1 by lia. replace (1 * a) with a by lia. reflexivity.
Qed.

(** A whole number of at most 53 bits is a double. *)
Lemma round_integer (k : Z) :
  Z.abs k <= 2 ^ 53 -> round (inject_Z k) = inject_Z k.
Proof.
  assert (Hpos : forall n, 0 < n <= 2 ^ 53 ->
                   round_pos (inject_Z n) = inject_Z n).
  { intros n Hn.
    assert (Hq : (0 < inject_Z n)%Q) by (rewrite <- (Zlt_Qlt 0); lia).
    destruct (mag_spec _ Hq) as [M1 M2].
    assert (Hm0 : 0 <= mag (inject_Z n)).
    { assert (0 < mag (inject_Z n) + 1); [|lia].
      apply pow2_lt_inv. eapply Qle_lt_trans; [|exact M2].
      change (pow2 0) with (inject_Z 1). rewrite <- Zle_Qle. lia. }
    assert (Hm1 : mag (inject_Z n) <= 53).
    { assert (mag (inject_Z n) < 54); [|lia].
      apply pow2_lt_inv. eapply Qle_lt_trans; [exact M1|].
      rewrite (pow2_nonneg 54) by lia. rewrite <- Zlt_Qlt. lia. }
    set (e := mag (inject_Z n)) in *.
    destruct (Z.eq_dec e 53) as [E53|N53].
    - (* only 2^53 itself *)
      assert (n = 2 ^ 53).
      { rewrite E53, (pow2_nonneg 53) in M1 by lia.
        rewrite <- Zle_Qle in M1. lia. }
      subst n. vm_compute. reflexivity.
    - unfold round_pos. fold e.
      rewrite (rne_comp _ (inject_Z (n * 2 ^ (52 - e)))).
      2:{ rewrite inject_Z_mult, (pow2_nonneg (52 - e)) by lia.
          reflexivity. }
      rewrite rne_integer.
      transitivity (Qred (inject_Z n)); [|apply Qred_integer].
      apply Qred_complete.
      rewrite inject_Z_mult, <- (pow2_nonneg (52 - e)) by lia.
      rewrite <- Qmult_assoc, <- pow2_add.
      replace (52 - e + (e - 52)) with 0 by lia.
      change (pow2 0) with 1%Q. ring. }
  intro Hk. unfold round.
  destruct (Qcompare_spec (inject_Z k) 0) as [H|H|H].
  - apply (inject_Z_injective k 0) in H. subst k. reflexivity.
  - change 0%Q with (inject_Z 0) in H. rewrite <- Zlt_Qlt in H.
    rewrite <- inject_Z_opp, Hpos by lia. rewrite inject_Z_opp.
    unfold Qopp, inject_Z. cbn. rewrite Z.opp_involutive. reflexivity.
  - change 0%Q with (inject_Z 0) in H. rewrite <- Zlt_Qlt in H.
    apply Hpos. lia.
Qed.

(** Only zero rounds to zero. *)
Lemma round_zero (x : Q) : (round x == 0)%Q <-> (x == 0)%Q.
Proof.
  unfold round. destruct (Qcompare_spec x 0) as [H|H|H].
  - split; [intros _; exact H|reflexivity].
  - pose proof (round_pos_positive (- x) ltac:(lra)). split; lra.
  - pose proof (round_pos_positive x H). split; lra.
Qed.

(** A number that [x] passes by more than one part in [2^53] is passed
    by the double of [x] too. *)
Lemma round_above (x m : Q) :
  (m < x * (1 - pow2 (-53)))%Q -> (m < x * (1 + pow2 (-53)))%Q ->
  (m < round x)%Q.
Proof.
  intros Hlo Hhi. unfold round.
  destruct (Qcompare_spec x 0) as [Hx|Hx|Hx].
  - rewrite Hx in Hlo. lra.
  - destruct (round_pos_error (- x) ltac:(lra)) as [_ E]. lra.
  - destruct (round_pos_error x Hx) as [E _]. lra.
Qed.

Lemma pow2_minus_53 : pow2 (-53) = (1 # 9007199254740992)%Q.
Proof. reflexivity. Qed.

(** The sum and the product of doubles that are not negative. *)
Lemma fadd_le (x y x' y' : Q) :
  (x <= x')%Q -> (y <= y')%Q -> (fadd x y <= fadd x' y')%Q.
Proof. intros H1 H2. apply round_le. lra. Qed.

End Rounding.

(** ** InstanceHeader *)

Module HeaderSpec.

Import Header.

(** C10.  For every header and every integer index,
    [get_header_label_at] returns the entry at that index when the header
    is a list and the index is within [0, len); it returns [None] when the
    header is [None], when the index is negative (so [-1] never selects
    the last entry) and when the index is [len] or more; it never
    raises. *)
Theorem get_header_label_at_bounds (A : Type) (h : InstanceHeader A) (i : Z) :
  (forall l, header h = Some l -> 0 <= i < Z.of_nat (List.length l) ->
     exists x, nth_error l (Z.to_nat i) = Some x
               /\ get_header_label_at h i = Ok (Some x))
  /\ (forall l, header h = Some l ->
        i < 0 \/ Z.of_nat (List.length l) <= i ->
        get_header_label_at h i = Ok None)
  /\ (header h = None -> get_header_label_at h i = Ok None)
  /\ returned (get_header_label_at h i) = true.
Proof.
  unfold get_header_label_at.
  destruct (header h) as [l|] eqn:Hh.
  2:{ split; [|split; [|split]]; intros; try discriminate; reflexivity. }
  destruct ((i >? -1) && (i <? Z.of_nat (List.length l))) eqn:Hguard.
  - apply andb_true_iff in Hguard as [Hlo Hhi].
    apply Z.gtb_lt in Hlo. apply Z.ltb_lt in Hhi.
    destruct (getitem_inside A l i) as (x & Hnth & Hget); [lia|].
    rewrite Hget. split; [|split; [|split]].
    + intros l' Hl' _. injection Hl' as <-. exists x; split; auto.
    + intros l' Hl' Hout. injection Hl' as <-. lia.
    + discriminate.
    + reflexivity.
  - apply andb_false_iff in Hguard.
    split; [|split; [|split]]; try reflexivity.
    + intros l' Hl' Hin. injection Hl' as <-.
      destruct Hguard as [Hlo|Hhi].
      * rewrite Z.gtb_ltb in Hlo. apply Z.ltb_ge in Hlo. lia.
      * apply Z.ltb_ge in Hhi. lia.
Qed.

Lemma get_header_label_at_bounds_witness :
  get_header_label_at (__init__ (Some ["NumAtt0"; "NumAtt1"; "class"]%string)) 1
    = Ok (Some "NumAtt1"%string)
  /\ get_header_label_at
       (__init__ (Some ["NumAtt0"; "NumAtt1"; "class"]%string)) (-1)
     = Ok None
  /\ get_header_label_at (__init__ (@None (list string))) 0 = Ok None.
Proof.
  split; [|split].
  - destruct (get_header_label_at_bounds string
                (__init__ (Some ["NumAtt0"; "NumAtt1"; "class"]%string)) 1)
      as (Hin & _).
    destruct (Hin _ eq_refl) as (x & Hx & Hget); [simpl; lia|].
    simpl in Hx. injection Hx as <-. exact Hget.
  - destruct (get_header_label_at_bounds string
                (__init__ (Some ["NumAtt0"; "NumAtt1"; "class"]%string)) (-1))
      as (_ & Hout & _).
    apply (Hout _ eq_refl). left; lia.
  - destruct (get_header_label_at_bounds string (__init__ None) 0)
      as (_ & _ & Hnone & _).
    apply Hnone. reflexivity.
Defined.

End HeaderSpec.

(** ** SEAGenerator *)

Module SeaSpec.

Import Sea.

Section Facts.
Context {NR : NumpyRandom}.

(** Writing row [j] of an array whose first [j] rows are [done]. *)
Lemma set_row_middle (done rest : list (list Q)) (old row : list Q) :
  set_row (List.length done) row (done ++ old :: rest) = done ++ row :: rest.
Proof.
  induction done as [|d done IH]; simpl; [reflexivity|]. now rewrite IH.
Qed.

Lemma nth_middle_row (done rest : list (list Q)) (row : list Q) :
  nth (List.length done) (done ++ row :: rest) [] = row.
Proof.
  induction done as [|d done IH]; simpl; [reflexivity|]. exact IH.
Qed.

(** The four functions of the list are the four thresholds; an index
    below zero counts from the end of the list. *)
Lemma lookup_classification_function (index : Z) :
  -4 <= index <= 3 ->
  exists f, getitem classification_functions index = Ok f
            /\ forall a1 a2 a3,
                 f a1 a2 a3 = spec_label (wrapped index) a1 a2.
Proof.
  intros H.
  assert (index = -4 \/ index = -3 \/ index = -2 \/ index = -1
          \/ index = 0 \/ index = 1 \/ index = 2 \/ index = 3)
    as [ -> | [ -> | [ -> | [ -> | [ -> | [ -> | [ -> | -> ] ] ] ] ] ] ]
    by lia;
    eexists; (split; [reflexivity|]); intros; reflexivity.
Qed.

(** Without balancing the rejection loop runs once: three draws and the
    threshold label. *)
Lemma find_instance_unbalanced (fuel : nat) (st : Store) :
  balance_classes (obj st) = false ->
  -4 <= classification_function_index (obj st) <= 3 ->
  find_instance (S fuel) st =
    let s0 := np_random st in
    let r1 := fst (rand s0) in let s1 := snd (rand s0) in
    let r2 := fst (rand s1) in let s2 := snd (rand s1) in
    let r3 := fst (rand s2) in let s3 := snd (rand s2) in
    (Ok (fmul 10 r1, fmul 10 r2, fmul 10 r3,
         spec_label (wrapped (classification_function_index (obj st)))
           (fmul 10 r1) (fmul 10 r2)),
     mkStore (obj st) s3).
Proof.
  intros Hb Hi.
  destruct (lookup_classification_function _ Hi) as (f & Hf & Hspec).
  cbn [find_instance]. unfold bind, draw, attr, lift_outcome, ret.
  destruct (rand (np_random st)) as [r1 s1].
  cbn [obj np_random fst snd].
  destruct (rand s1) as [r2 s2]. cbn [obj np_random fst snd].
  destruct (rand s2) as [r3 s3]. cbn [obj np_random fst snd].
  rewrite Hf, Hb. cbn [negb]. rewrite Hspec. reflexivity.
Qed.

(** The batch loop fills the array with the rows of the documented batch;
    [done] are the rows already written. *)
Lemma fill_rows_unbalanced (fuel n : nat) :
  forall (done : list (list Q)) (st : Store),
  balance_classes (obj st) = false ->
  -4 <= classification_function_index (obj st) <= 3 ->
  let spec := spec_batch (wrapped (classification_function_index (obj st)))
                (noise_percentage (obj st)) n (np_random st) in
  exists data' st',
    fill_rows (S fuel) n (List.length done) (done ++ repeat zero_row n) st
      = (Ok data', st')
    /\ np_random st' = snd spec
    /\ same_options (obj st) (obj st')
    /\ map (firstn 3) data' = map (firstn 3) done ++ fst (fst spec)
    /\ flat_map (skipn 3) data' = flat_map (skipn 3) done ++ snd (fst spec).
Proof.
  induction n as [|n IH]; intros done st Hb Hi spec.
  - exists done, st. subst spec. simpl. rewrite !app_nil_r.
    unfold same_options. auto 10.
  - subst spec. cbn [fill_rows repeat spec_batch].
    unfold bind at 1. rewrite (find_instance_unbalanced fuel st Hb Hi).
    cbv zeta. unfold spec_sample.
    destruct (rand (np_random st)) as [r1 s1]. cbn [fst snd].
    destruct (rand s1) as [r2 s2]. cbn [fst snd].
    destruct (rand s2) as [r3 s3]. cbn [fst snd].
    unfold bind, draw, attr, update, modify. cbn [obj np_random].
    destruct (rand s3) as [r4 s4]. cbn [obj np_random].
    rewrite set_row_middle, nth_middle_row.
    set (label := if Qle_bool (fadd one_percent r4)
                       (noise_percentage (obj st))
                  then _ else _).
    set (row := [fmul 10 r1; fmul 10 r2; fmul 10 r3; inject_Z label]).
    set (st1 := set_obj _ _).
    specialize (IH (done ++ [row]) st1 Hb Hi).
    rewrite length_app, Nat.add_1_r, <- app_assoc in IH. cbn [app] in IH.
    destruct IH as (data' & st' & Hrun & Hnp & Hopt & HX & Hy).
    exists data', st'. split; [exact Hrun|].
    change (classification_function_index (obj st1))
      with (classification_function_index (obj st)) in *.
    change (noise_percentage (obj st1)) with (noise_percentage (obj st)) in *.
    change (np_random st1) with s4 in *.
    destruct (spec_batch (wrapped (classification_function_index (obj st)))
                (noise_percentage (obj st)) n s4) as [[X y] s'].
    cbn [fst snd] in *.
    split; [exact Hnp|]. split; [exact Hopt|]. split.
    + rewrite HX, map_app, <- app_assoc. reflexivity.
    + rewrite Hy, flat_map_app, <- app_assoc. cbn [flat_map app skipn row].
      do 3 f_equal. subst label. unfold spec_flipped, spec_label.
      destruct (Qle_bool (fadd one_percent r4) (noise_percentage (obj st)));
        [|reflexivity].
      destruct (Qle_bool _ _); reflexivity.
Qed.


Lemma spec_batch_length (index : Z) (noise : Q) (n : nat) (s : RandomState) :
  List.length (fst (fst (spec_batch index noise n s))) = n
  /\ List.length (snd (fst (spec_batch index noise n s))) = n.
Proof.
  revert s; induction n as [|n IH]; intro s; cbn [spec_batch].
  - split; reflexivity.
  - destruct (spec_sample index noise s) as [[x l] s1].
    specialize (IH s1).
    destruct (spec_batch index noise n s1) as [[X y] s2].
    cbn [fst snd List.length] in *. destruct IH; split; congruence.
Qed.

(** Ten times a draw is a double of [0, 10): the product is at most
    [10 - 10 * 2^-53], which rounds to [10 - 2^-49]. *)
Lemma scaled_draw_range (s : RandomState) :
  (0 <= fmul 10 (fst (rand s)))%Q /\ (fmul 10 (fst (rand s)) < 10)%Q.
Proof.
  destruct (rand_range s) as [Hlo _]. pose proof (rand_double s) as Hhi.
  unfold fmul. split.
  - apply Rounding.round_nonneg. lra.
  - eapply Qle_lt_trans;
      [apply (Rounding.round_le _ (10 * (1 - pow2 (-53))))|].
    + lra.
    + vm_compute. reflexivity.
Qed.

Lemma spec_sample_features (index : Z) (noise : Q) (s : RandomState) :
  spec_features (fst (fst (spec_sample index noise s))).
Proof.
  unfold spec_sample.
  pose proof (scaled_draw_range s) as H1.
  destruct (rand s) as [r1 s1].
  pose proof (scaled_draw_range s1) as H2.
  destruct (rand s1) as [r2 s2].
  pose proof (scaled_draw_range s2) as H3.
  destruct (rand s2) as [r3 s3].
  destruct (rand s3) as [r4 s4].
  cbn [fst snd] in *. split; [reflexivity|].
  repeat constructor; tauto.
Qed.

Lemma spec_batch_features (index : Z) (noise : Q) (n : nat) (s : RandomState) :
  Forall spec_features (fst (fst (spec_batch index noise n s))).
Proof.
  revert s; induction n as [|n IH]; intro s; cbn [spec_batch].
  - constructor.
  - pose proof (spec_sample_features index noise s) as Hx.
    destruct (spec_sample index noise s) as [[x l] s1].
    specialize (IH s1).
    destruct (spec_batch index noise n s1) as [[X y] s2].
    cbn [fst snd] in *. constructor; assumption.
Qed.

(** The literal [0.01] is a little more than one hundredth. *)
Lemma one_percent_value :
  one_percent = (5764607523034235 # 576460752303423488)%Q
  /\ (1 # 100 < one_percent)%Q.
Proof. split; vm_compute; reflexivity. Qed.

(** The sum of the noise test lies between [0.01] and a double just
    below 1.01. *)
Lemma noise_sum_range (s : RandomState) :
  (one_percent <= fadd one_percent (fst (rand s)))%Q
  /\ (fadd one_percent (fst (rand s)) < 101 # 100)%Q.
Proof.
  destruct (rand_range s) as [Hlo _]. pose proof (rand_double s) as Hhi.
  unfold fadd. split.
  - assert (E : round one_percent = one_percent)
      by (vm_compute; reflexivity).
    rewrite <- E at 1. apply Rounding.round_le. lra.
  - eapply Qle_lt_trans;
      [apply (Rounding.round_le _ (one_percent + (1 - pow2 (-53))))|].
    + lra.
    + vm_compute. reflexivity.
Qed.

(** Below the literal [0.01] no draw flips a label. *)
Lemma spec_unflipped (noise : Q) (s : RandomState) :
  (noise < one_percent)%Q -> spec_flipped noise (fst (rand s)) = false.
Proof.
  intro Hn. unfold spec_flipped.
  destruct (Qle_bool (fadd one_percent (fst (rand s))) noise) eqn:Hle;
    [|reflexivity].
  apply Qle_bool_iff in Hle.
  destruct (noise_sum_range s) as [Hlo _]. lra.
Qed.

(** From 1.01 on every draw flips the label. *)
Lemma spec_all_flipped (noise : Q) (s : RandomState) :
  (101 # 100 <= noise)%Q -> spec_flipped noise (fst (rand s)) = true.
Proof.
  intro Hn. unfold spec_flipped. apply Qle_bool_iff.
  destruct (noise_sum_range s) as [_ Hhi]. lra.
Qed.

Lemma spec_batch_quiet (index : Z) (noise : Q) (n : nat) (s : RandomState) :
  (noise < one_percent)%Q ->
  snd (fst (spec_batch index noise n s))
  = map (spec_row_label index) (fst (fst (spec_batch index noise n s))).
Proof.
  intro Hn. revert s; induction n as [|n IH]; intro s; cbn [spec_batch].
  - reflexivity.
  - unfold spec_sample.
    destruct (rand s) as [r1 s1]. destruct (rand s1) as [r2 s2].
    destruct (rand s2) as [r3 s3].
    pose proof (spec_unflipped noise s3 Hn) as Hq.
    destruct (rand s3) as [r4 s4]. cbn [fst] in Hq. rewrite Hq.
    specialize (IH s4).
    destruct (spec_batch index noise n s4) as [[X y] s5].
    cbn [fst snd map] in *. rewrite IH. reflexivity.
Qed.


(** Without class balancing and with an index that selects a function,
    [next_instance] returns the batch the documentation describes and
    leaves the options as they were. *)
Lemma next_instance_unbalanced (fuel : nat) (n : Z) (st : Store) :
  balance_classes (obj st) = false ->
  -4 <= classification_function_index (obj st) <= 3 ->
  0 <= n ->
  exists X y st',
    next_instance (S fuel) n st = (Ok (X, y), st')
    /\ (X, y, np_random st')
       = spec_batch (wrapped (classification_function_index (obj st)))
           (noise_percentage (obj st)) (Z.to_nat n) (np_random st)
    /\ same_options (obj st) (obj st').
Proof.
  intros Hb Hi Hn.
  unfold next_instance.
  destruct (n <? 0) eqn:Hneg; [apply Z.ltb_lt in Hneg; lia|].
  destruct (fill_rows_unbalanced fuel (Z.to_nat n) [] st Hb Hi)
    as (data' & st' & Hrun & Hnp & Hopt & HX & Hy).
  cbn [List.length app map flat_map] in *.
  unfold bind, zeros. fold zero_row. rewrite Hrun. unfold ret.
  destruct (spec_batch (wrapped (classification_function_index (obj st)))
              (noise_percentage (obj st)) (Z.to_nat n) (np_random st))
    as [[X y] s'].
  cbn [fst snd] in *.
  change (Z.to_nat num_numerical_attributes) with 3%nat.
  exists X, y, st'. rewrite HX, Hy, Hnp. auto.
Qed.

Lemma respects_ret {A} (x : A) : respects (ret x).
Proof. intros a b H; split; [reflexivity | exact H]. Qed.

Lemma respects_raise {A} (e : exn) : respects (@raise Store A e).
Proof. intros a b H; split; [reflexivity | exact H]. Qed.

Lemma respects_out_of_fuel {A} : respects (@out_of_fuel Store A).
Proof. intros a b H; split; [reflexivity | exact H]. Qed.

Lemma respects_lift_outcome {A} (o : outcome A) : respects (lift_outcome o).
Proof. intros a b H; split; [reflexivity | exact H]. Qed.

(** [respects] is kept by sequencing; the lemmas that follow give it for
    each primitive of the generator. *)
Lemma respects_bind {A B} (m : M Store A) (k : A -> M Store B) :
  respects m -> (forall x, respects (k x)) -> respects (bind m k).
Proof.
  intros Hm Hk a b H. unfold bind.
  destruct (Hm a b H) as [Ho Hs].
  destruct (m a) as [oa sa], (m b) as [ob sb]. cbn [fst snd] in *. subst ob.
  destruct oa as [x| |]; [apply Hk; exact Hs | split; auto | split; auto].
Qed.

Lemma respects_draw : respects draw.
Proof.
  intros a b (Hnp & Hrest). unfold draw. rewrite Hnp.
  destruct (rand (np_random b)) as [r s']. cbn [fst snd].
  split; [reflexivity|]. split; [reflexivity | exact Hrest].
Qed.

Lemma respects_attr {A} (field : SEAGenerator -> A) :
  (forall a b, same_source a b -> field (obj a) = field (obj b)) ->
  respects (attr field).
Proof.
  intros Hf a b H. unfold attr. cbn [fst snd].
  split; [f_equal; apply Hf; exact H | exact H].
Qed.

Lemma respects_update (f : SEAGenerator -> SEAGenerator) :
  (forall a b, same_source a b -> same_source (set_obj f a) (set_obj f b)) ->
  respects (update f).
Proof.
  intros Hf a b H. unfold update, modify. cbn [fst snd].
  split; [reflexivity | apply Hf; exact H].
Qed.

Lemma same_source_set_next_class (z : bool) (a b : Store) :
  same_source a b ->
  same_source (set_obj (set_next_class_should_be_zero z) a)
              (set_obj (set_next_class_should_be_zero z) b).
Proof. intros (H1 & H2 & H3 & H4 & H5). repeat split; assumption. Qed.

Lemma same_source_set_current (x y x' y' : list Q) (a b : Store) :
  same_source a b ->
  same_source (set_obj (set_current_instance x y) a)
              (set_obj (set_current_instance x' y') b).
Proof. intros (H1 & H2 & H3 & H4 & H5). repeat split; assumption. Qed.

Lemma respects_find_instance (fuel : nat) : respects (find_instance fuel).
Proof.
  induction fuel as [|fuel IH]; cbn [find_instance].
  - apply respects_out_of_fuel.
  - repeat (apply respects_bind; [apply respects_draw | intro]).
    apply respects_bind.
    { apply respects_attr. intros a b H; apply H. }
    intro index. apply respects_bind; [apply respects_lift_outcome | intro f].
    apply respects_bind.
    { apply respects_attr. intros a b H; apply H. }
    intros [|]; cbn [negb]; [|apply respects_ret].
    apply respects_bind.
    { apply respects_attr. intros a b H; apply H. }
    intro z. destruct (_ || _); [|exact IH].
    apply respects_bind; [|intro; apply respects_ret].
    apply respects_update. apply same_source_set_next_class.
Qed.

Lemma respects_fill_rows (fuel n : nat) :
  forall j data, respects (fill_rows fuel n j data).
Proof.
  induction n as [|n IH]; intros j data; cbn [fill_rows].
  - apply respects_ret.
  - apply respects_bind; [apply respects_find_instance|].
    intros [[[att1 att2] att3] group].
    apply respects_bind; [apply respects_draw | intro r].
    apply respects_bind.
    { apply respects_attr. intros a b H; apply H. }
    intro noise. apply respects_bind; [|intro; apply IH].
    apply respects_update. intros a b. apply same_source_set_current.
Qed.

Lemma respects_next_instance (fuel : nat) (n : Z) :
  respects (next_instance fuel n).
Proof.
  unfold next_instance. destruct (n <? 0); [apply respects_raise|].
  apply respects_bind; [apply respects_fill_rows | intro; apply respects_ret].
Qed.

(** Equal sources give equal outputs, call after call. *)
Lemma outputs_same_source (fuel : nat) (sizes : list Z) :
  forall a b, same_source a b -> outputs fuel sizes a = outputs fuel sizes b.
Proof.
  induction sizes as [|n sizes IH]; intros a b H; cbn [outputs]; [reflexivity|].
  destruct (respects_next_instance fuel n a b H) as [Ho Hs].
  destruct (next_instance fuel n a) as [oa sa].
  destruct (next_instance fuel n b) as [ob sb]. cbn [fst snd] in *.
  rewrite Ho, (IH sa sb Hs). reflexivity.
Qed.

(** C5.  For every generator, whatever it has produced so far, the
    outcomes of any sequence of [next_instance] calls made after
    [restart()] are those of the same calls made after constructing a
    generator with the same configuration (classification function, seed,
    balancing, noise) and calling [prepare_for_use()]: both start from the
    random state of the seed with [next_class_should_be_zero = False].
    And [prepare_for_use()] twice leaves the state that one call
    leaves. *)
Theorem restart_replays_construction (st : Store) (np : RandomState)
    (fuel : nat) (sizes : list Z) :
  exists fresh,
    __init__ (classification_function_index (obj st)) (instance_seed (obj st))
      (balance_classes (obj st)) (noise_percentage (obj st)) np = Ok fresh
    /\ outputs fuel sizes (restart st)
       = outputs fuel sizes (prepare_for_use fresh)
    /\ np_random (restart st) = seed (instance_seed (obj st))
    /\ next_class_should_be_zero (obj (restart st)) = false
    /\ prepare_for_use (prepare_for_use st) = prepare_for_use st.
Proof.
  eexists. split; [reflexivity|]. split; [|repeat split].
  apply outputs_same_source. repeat split.
Qed.

End Facts.
End SeaSpec.

(** ** EvaluateStreamGenerationSpeed *)

Module EvaluatorSpec.

Import Evaluator.

Section Facts.
Context {S : Type} {BS : BaseInstanceStream S}.
Variable clock : nat -> Q.
Variable self : EvaluateStreamGenerationSpeed.

Local Abbreviation Run := (@Run S).

(** The progress test, cleared of the division by 20. *)
Lemma percentage_reached_exact (r : Run) :
  percentage_reached self r
  = ((true_percentage_index r + 1) * num_samples self
       <=? 20 * (sample_count r + batch_size self)).
Proof.
  unfold percentage_reached, Qle_bool, Qdiv, Qmult, Qinv, Qplus, inject_Z.
  cbn [Qnum Qden].
  apply eq_true_iff_eq. rewrite !Z.leb_le.
  change (1 * 1)%positive with 1%positive.
  change (1 * 20)%positive with 20%positive. lia.
Qed.

(** The inner loop ends: the index cannot pass 41 while the count is
    within twice [num_samples].  It touches the index and the log only. *)
Lemma log_progress_returns (m : nat) :
  forall (fuel : nat) (r : Run),
  0 < num_samples self ->
  sample_count r + batch_size self <= 2 * num_samples self ->
  41 - true_percentage_index r <= Z.of_nat m ->
  (m < fuel)%nat ->
  exists r',
    log_progress fuel self r = (Ok tt, r')
    /\ stream r' = stream r
    /\ sample_count r' = sample_count r
    /\ timer_calls r' = timer_calls r
    /\ history r' = history r
    /\ true_percentage_index r <= true_percentage_index r'.
Proof.
  induction m as [|m IH]; intros fuel r Hns Hsc Hm Hfuel;
    (destruct fuel as [|fuel]; [lia|]);
    cbn [log_progress]; unfold bind, get;
    rewrite percentage_reached_exact;
    destruct (_ <=? _) eqn:Hreach.
  - apply Z.leb_le in Hreach. nia.
  - exists r. unfold ret. repeat split; lia.
  - unfold next_percentage, info, modify.
    cbn [stream sample_count true_percentage_index timer_calls history log].
    match goal with |- context [log_progress fuel self ?r1] =>
      destruct (IH fuel r1) as (r' & Hrun & H1 & H2 & H3 & H4 & H5);
        [exact Hns | exact Hsc | cbn [true_percentage_index]; lia | lia |];
        exists r'; rewrite Hrun;
        cbn [stream sample_count true_percentage_index timer_calls history
             log] in *;
        repeat split; auto; lia
    end.
  - exists r. unfold ret. repeat split; lia.
Qed.


Variable init_time : Q.
Variable stream_local_max : float.

(** A count the loop condition keeps the samples within: [num_samples],
    or what the stream has left. *)
Variable limit : Z.
Hypothesis budget_within_limit : forall t count,
  budget_left self init_time stream_local_max t count = true ->
  count + batch_size self <= limit.

(** One unfolding of the outer loop. *)
Lemma measure_loop_step (fuel : nat) (r : Run) :
  measure_loop clock (Datatypes.S fuel) self init_time stream_local_max r =
  if budget_left self init_time stream_local_max
       (clock (timer_calls r)) (sample_count r)
  then
    match next_instance (batch_size self) (stream r) with
    | (Ok _, s') =>
        match log_progress fuel self
                (counted (batch_size self)
                   (pulled (batch_size self) s' (ticked r))) with
        | (Ok _, r') =>
            measure_loop clock fuel self init_time stream_local_max r'
        | (Raise e, r') => (Raise e, r')
        | (OutOfFuel, r') => (OutOfFuel, r')
        end
    | (Raise e, s') => (Raise e, pulled (batch_size self) s' (ticked r))
    | (OutOfFuel, s') => (OutOfFuel, pulled (batch_size self) s' (ticked r))
    end
  else (Ok tt, ticked r).
Proof.
  cbn [measure_loop]. unfold bind at 1. unfold timer at 1.
  unfold bind at 1. unfold get at 1. fold (ticked r).
  cbn [sample_count ticked].
  destruct (budget_left _ _ _ _ _); [|reflexivity].
  unfold bind at 1. unfold pull at 1. cbn [stream ticked].
  destruct (next_instance (batch_size self) (stream r)) as [[b| |] s'];
    try reflexivity.
Qed.

Lemma iterated_shift (k : nat) (h : list Event) :
  iterated (batch_size self) k
    (EvNextInstance (batch_size self) :: EvTimer :: h)
  = iterated (batch_size self) (Datatypes.S k) h.
Proof.
  unfold iterated.
  exact (eq_sym (Nat.iter_succ_r k _
           (fun h => EvNextInstance (batch_size self) :: EvTimer :: h) h)).
Qed.

(** What the outer loop comes to from [r] when at most [n] more
    iterations fit in the sample budget. *)
Lemma measure_loop_runs (n : nat) :
  forall (fuel : nat) (r : Run),
  1 <= batch_size self ->
  0 <= sample_count r ->
  0 <= true_percentage_index r ->
  limit - sample_count r < (Z.of_nat n + 1) * batch_size self ->
  answers (batch_size self) n (stream r) = true ->
  (n + 43 <= fuel)%nat ->
  exists (k : nat) (o : outcome unit) (r' : Run),
    measure_loop clock fuel self init_time stream_local_max r = (o, r')
    /\ (k <= n)%nat
    /\ sample_count r' = sample_count r + Z.of_nat k * batch_size self
    /\ (timer_calls r <= timer_calls r')%nat
    /\ match o with
       | Ok _ =>
           history r' = EvTimer :: iterated (batch_size self) k (history r)
           /\ (exists j, budget_left self init_time stream_local_max
                           (clock j) (sample_count r') = false)
           /\ timer_calls r' = (timer_calls r + k + 1)%nat
       | Raise _ =>
           (k < n)%nat
           /\ history r'
              = EvNextInstance (batch_size self) :: EvTimer
                  :: iterated (batch_size self) k (history r)
           /\ delivers (batch_size self) n (stream r) = false
       | OutOfFuel => False
       end.
Proof.
  induction n as [|n IH]; intros fuel r Hbs Hsc Htpi Hrem Hans Hfuel;
    (destruct fuel as [|fuel]; [lia|]); rewrite measure_loop_step;
    destruct (budget_left _ _ _ _ _) eqn:Hbudget.
  - apply budget_within_limit in Hbudget. lia.
  - exists 0%nat, (Ok tt), (ticked r).
    cbn [ticked sample_count timer_calls history iterated Nat.iter].
    repeat split; try lia. eauto.
  - assert (Hcount : sample_count r + batch_size self <= num_samples self).
    { pose proof (budget_within_limit _ _ Hbudget) as Hlim.
      unfold budget_left in Hbudget.
      apply andb_true_iff in Hbudget as [Hbudget _].
      apply andb_true_iff in Hbudget as [_ Hcount].
      apply Z.leb_le in Hcount. exact Hcount. }
    pose proof (budget_within_limit _ _ Hbudget) as Hlim.
    cbn [answers delivers] in *.
    destruct (next_instance (batch_size self) (stream r)) as [[b|e|] s'].
    + set (r2 := counted _ _).
      destruct (log_progress_returns 41 fuel r2)
        as (r3 & Hlog & H1 & H2 & H3 & H4 & H5);
        [lia | subst r2; cbn [counted pulled ticked sample_count]; lia
        | subst r2; cbn [counted pulled ticked true_percentage_index]; lia
        | lia |].
      rewrite Hlog.
      subst r2; cbn [counted pulled ticked stream sample_count timer_calls
                       history true_percentage_index] in *.
      destruct (IH fuel r3) as (k & o & r' & Hrun & Hk & Hsc' & Ht & Ho);
        [lia | lia | lia | rewrite H2; lia | rewrite H1; exact Hans | lia |].
      exists (Datatypes.S k), o, r'. rewrite Hrun.
      rewrite H4, iterated_shift in Ho. rewrite H2 in Hsc'. rewrite H3 in Ht.
      split; [reflexivity|]. split; [lia|]. split; [lia|]. split; [lia|].
      destruct o as [u|e|]; [| |exact Ho].
      * destruct Ho as (Hh & Hj & Htc).
        split; [exact Hh|]. split; [exact Hj|]. lia.
      * destruct Ho as (Hlt & Hh & Hd). rewrite H1 in Hd.
        repeat split; [lia | exact Hh | exact Hd].
    + exists 0%nat, (Raise e), (pulled (batch_size self) s' (ticked r)).
      cbn [pulled ticked sample_count timer_calls history iterated Nat.iter].
      repeat split; try lia.
    + discriminate.
  - exists 0%nat, (Ok tt), (ticked r).
    cbn [ticked sample_count timer_calls history iterated Nat.iter].
    repeat split; try lia. eauto.
Qed.


End Facts.

Section Traces.

Variable n : Z.

Lemma iteration_events_snoc (k : nat) :
  iteration_events n k ++ [EvTimer; EvNextInstance n]
  = iteration_events n (Datatypes.S k).
Proof.
  unfold iteration_events.
  induction k as [|k IH]; [reflexivity|].
  change (repeat [EvTimer; EvNextInstance n] (Datatypes.S k))
    with ([EvTimer; EvNextInstance n] :: repeat [EvTimer; EvNextInstance n] k).
  cbn [concat]. rewrite <- app_assoc, IH. reflexivity.
Qed.

Lemma pulls_app (l1 l2 : list Event) :
  pulls (l1 ++ l2) = (pulls l1 + pulls l2)%nat.
Proof. unfold pulls. rewrite filter_app, length_app. reflexivity. Qed.

Lemma requested_app (l1 l2 : list Event) :
  requested (l1 ++ l2) = requested l1 + requested l2.
Proof.
  unfold requested. induction l1 as [|e l1 IH]; [reflexivity|].
  cbn [app fold_right]. rewrite IH. destruct e; lia.
Qed.

Lemma pulls_iteration_events (k : nat) : pulls (iteration_events n k) = k.
Proof.
  induction k as [|k IH]; [reflexivity|].
  rewrite <- iteration_events_snoc, pulls_app, IH. cbn. lia.
Qed.

Lemma requested_iteration_events (k : nat) :
  requested (iteration_events n k) = Z.of_nat k * n.
Proof.
  induction k as [|k IH]; [reflexivity|].
  rewrite <- iteration_events_snoc, requested_app, IH.
  cbn [requested fold_right]. lia.
Qed.

Lemma rev_iterated (k : nat) (h : list Event) :
  rev (iterated n k h) = rev h ++ iteration_events n k.
Proof.
  induction k as [|k IH].
  - cbn. rewrite app_nil_r. reflexivity.
  - change (iterated n (Datatypes.S k) h)
      with (EvNextInstance n :: EvTimer :: iterated n k h).
    cbn [rev]. rewrite IH.
    rewrite <- !app_assoc. cbn [app].
    rewrite iteration_events_snoc. reflexivity.
Qed.

End Traces.

Section Whole.

Context {S : Type} {BS : BaseInstanceStream S}.
Variable clock : nat -> Q.
Variable self : EvaluateStreamGenerationSpeed.

Local Abbreviation Run := (@Run S).

(** [eval] is the outer loop between its prologue and [finish]. *)
Lemma eval_unfold (fuel : nat) (s : S) :
  eval clock fuel self s =
  match measure_loop clock fuel self (clock 0) (local_max s) (begun self s) with
  | (Ok _, r) => finish clock r
  | (Raise e, r) => (Raise e, r)
  | (OutOfFuel, r) => (OutOfFuel, r)
  end.
Proof.
  unfold eval, _measure_stream_speed, start.
  unfold bind at 1. unfold timer at 1. cbn [timer_calls stream sample_count
    true_percentage_index history log].
  unfold bind at 1. unfold info at 1, modify at 1.
  cbn [timer_calls stream sample_count true_percentage_index history log].
  unfold bind at 1. unfold info at 1, modify at 1.
  cbn [timer_calls stream sample_count true_percentage_index history log].
  unfold bind at 1. unfold get at 1.
  cbn [timer_calls stream sample_count true_percentage_index history log].
  unfold bind at 1. fold (begun self s).
  destruct (measure_loop clock fuel self (clock 0) (local_max s) (begun self s))
    as [[u|e|] r]; try reflexivity.
  unfold finish, bind, timer, get, info, modify, raise.
  cbn [timer_calls stream sample_count true_percentage_index history log].
  destruct (Qeq_bool _ 0); reflexivity.
Qed.


Lemma budget_within_num_samples (init_time : Q) (slm : float) (t : Q)
    (count : Z) :
  budget_left self init_time slm t count = true ->
  count + batch_size self <= num_samples self.
Proof.
  unfold budget_left. intro H.
  apply andb_true_iff in H as [H _]. apply andb_true_iff in H as [_ H].
  apply Z.leb_le in H. exact H.
Qed.

Lemma budget_within_stream (init_time : Q) (remaining : Z) (t : Q)
    (count : Z) :
  budget_left self init_time (Fin (inject_Z remaining)) t count = true ->
  count + batch_size self <= remaining.
Proof.
  unfold budget_left. intro H.
  apply andb_true_iff in H as [_ H]. cbn [le_float] in H.
  apply Qle_bool_iff in H. rewrite Zle_Qle. exact H.
Qed.

Lemma delivers_answers (n : Z) (k : nat) :
  forall s, delivers n k s = true -> answers n k s = true.
Proof.
  induction k as [|k IH]; intros s H; [reflexivity|].
  cbn [delivers answers] in *.
  destruct (next_instance n s) as [[b|e|] s']; try discriminate.
  apply IH. exact H.
Qed.

(** After [floor(total / size)] steps of [size] no further step fits in
    [total]. *)
Lemma quotient_bounds_iterations (total size : Z) :
  1 <= size ->
  total - 0 < (Z.of_nat (Z.to_nat (total / size)) + 1) * size.
Proof.
  intro Hsize.
  destruct (Z.neg_nonneg_cases total) as [Hneg|Hpos].
  - assert (total / size < 0) by (apply Z.div_lt_upper_bound; lia).
    replace (Z.to_nat (total / size)) with 0%nat by lia. lia.
  - pose proof (Z.div_pos total size Hpos ltac:(lia)) as Hq.
    pose proof (Z.mul_succ_div_gt total size ltac:(lia)) as Hgt.
    rewrite Z2Nat.id by lia. lia.
Qed.

Lemma events_of_history (r : Run) : events r = rev (history r).
Proof. unfold events. rewrite rev_append_rev, app_nil_r. reflexivity. Qed.

Lemma finish_facts (r : Run) :
  finished (fst (finish clock r)) = true
  /\ sample_count (snd (finish clock r)) = sample_count r
  /\ history (snd (finish clock r)) = EvTimer :: history r
  /\ exists older t,
       log (snd (finish clock r))
       = older ++ Generated (sample_count r) :: EvaluationTime t :: log r.
Proof.
  unfold finish. destruct (Qeq_bool _ 0); cbn [fst snd finished sample_count
    history log]; repeat split.
  - exists [], (clock (timer_calls r) - clock 0)%Q. reflexivity.
  - eexists [_], (clock (timer_calls r) - clock 0)%Q. reflexivity.
Qed.

(** With [batch_size = 0] nothing in the loop condition moves. *)
Lemma measure_loop_stalls (init_time : Q) :
  batch_size self = 0 ->
  1 <= num_samples self ->
  max_time self = Inf ->
  (forall s', returned (fst (next_instance 0 s')) = true) ->
  forall (fuel : nat) (r : Run),
  sample_count r = 0 ->
  0 <= true_percentage_index r ->
  fst (measure_loop clock fuel self init_time Inf r) = OutOfFuel.
Proof.
  intros Hbs Hns Hmax Hok.
  induction fuel as [|fuel IH]; intros r Hsc Htpi; [reflexivity|].
  rewrite measure_loop_step. unfold budget_left.
  rewrite Hmax, Hbs, Hsc. cbn [le_float andb Z.add].
  replace (0 <=? num_samples self) with true by (symmetry; apply Z.leb_le; lia).
  specialize (Hok (stream r)).
  destruct (next_instance 0 (stream r)) as [[b|e|] s']; try discriminate.
  destruct fuel as [|fuel]; [reflexivity|].
  cbn [log_progress]. unfold bind at 1. unfold get at 1.
  rewrite percentage_reached_exact.
  cbn [counted pulled ticked sample_count true_percentage_index].
  rewrite Hbs, Hsc.
  replace (_ <=? _) with false by (symmetry; apply Z.leb_gt; nia).
  unfold ret. apply IH; cbn [counted pulled ticked sample_count
    true_percentage_index]; lia.
Qed.





End Whole.
End EvaluatorSpec.

(** *** Runs on the concrete collaborators *)

Module EvaluatorRuns.

Import Evaluator EvaluatorSpec Fixtures.

#[local] Existing Instance scripted_random.
#[local] Existing Instance bounded_stream.
#[local] Existing Instance scripted_stream.






End EvaluatorRuns.

(** ** The demo loop *)

Module DemoSpec.

Import Demo.

Section Facts.
Context {NR : Sea.NumpyRandom} {C : Type} {CL : Classifier C}.

Local Abbreviation Demo := (@Demo NR C).

(** Read the fields of a state that is written out. *)
Ltac demo_fields :=
  cbn [stream clf sample_count correctly_classified first next_id history
       printed].

Tactic Notation "demo_fields" "in" "*" :=
  cbn [stream clf sample_count correctly_classified first next_id history
       printed] in *.

Lemma unbalanced_same_options (a b : Sea.Store) :
  Sea.same_options (Sea.obj a) (Sea.obj b) -> unbalanced a -> unbalanced b.
Proof.
  intros (Hi & _ & Hb & _) [H1 H2]. unfold unbalanced.
  rewrite <- Hi, <- Hb. auto.
Qed.

(** A pull from the demo's generator returns a batch of the size asked. *)
Lemma pull_unbalanced (fuel : nat) (n : Z) (d : Demo) :
  unbalanced (stream d) ->
  0 <= n ->
  exists X y st',
    pull (S fuel) n d
    = (Ok (next_id d, X, y),
       mkDemo st' (clf d) (sample_count d) (correctly_classified d)
         (first d) (S (next_id d))
         (EvNextInstance (next_id d) n X y :: history d) (printed d))
    /\ unbalanced st'
    /\ Z.of_nat (List.length X) = n
    /\ List.length y = List.length X.
Proof.
  intros [Hb Hi] Hn.
  destruct (SeaSpec.next_instance_unbalanced fuel n (stream d) Hb
              ltac:(lia) Hn)
    as (X & y & st' & Hrun & Hspec & Hopt).
  destruct (SeaSpec.spec_batch_length
              (Sea.wrapped
                 (Sea.classification_function_index (Sea.obj (stream d))))
              (Sea.noise_percentage (Sea.obj (stream d)))
              (Z.to_nat n) (Sea.np_random (stream d))) as [HlX Hly].
  rewrite <- Hspec in HlX, Hly. cbn [fst snd] in HlX, Hly.
  exists X, y, st'. unfold pull. rewrite Hrun.
  split; [reflexivity|]. split.
  - apply (unbalanced_same_options (stream d));
      [exact Hopt | split; assumption].
  - split; [lia | congruence].
Qed.

(** The progress line prints at most one line. *)
Lemma log_percent_returns (max_samples : Z) (d : Demo) :
  exists lines,
    log_percent max_samples d
    = (Ok tt,
       mkDemo (stream d) (clf d) (sample_count d) (correctly_classified d)
         (first d) (next_id d) (history d) (lines ++ printed d)).
Proof.
  unfold log_percent, bind, get.
  destruct (Qeq_bool _ 0).
  - eexists [_]. reflexivity.
  - exists []. destruct d; reflexivity.
Qed.

Lemma getitem_single {A} (l : list A) :
  List.length l = 1%nat -> exists x, l = [x] /\ getitem l 0 = Ok x.
Proof.
  destruct l as [|x [|x' l]]; try discriminate. intros _.
  exists x; split; reflexivity.
Qed.

(** Scoring a one-row batch adds one for a right prediction and nothing
    for a wrong or missing one. *)
Lemma score_returns (y : list Q) (p : option (list Q)) (d : Demo)
    (r : Round) :
  round_y r = y -> round_pred r = p ->
  List.length y = 1%nat ->
  (forall l, p = Some l -> List.length l = 1%nat) ->
  score y p d
  = (Ok tt,
     mkDemo (stream d) (clf d) (sample_count d)
       (correctly_classified d + (if round_correct r then 1 else 0))
       (first d) (next_id d) (history d) (printed d)).
Proof.
  intros Hy Hp Hly Hlp. unfold score, round_correct. rewrite Hy, Hp.
  destruct p as [l|].
  - destruct (getitem_single y Hly) as (y0 & -> & Hgy).
    destruct (getitem_single l (Hlp l eq_refl)) as (p0 & -> & Hgp).
    unfold bind, lift_outcome. rewrite Hgy, Hgp.
    destruct (Qeq_bool y0 p0); unfold count_correct, modify, ret.
    + reflexivity.
    + rewrite Z.add_0_r. destruct d; reflexivity.
  - unfold ret. rewrite Z.add_0_r. destruct d; reflexivity.
Qed.


(** The loop from [d]: as many rounds as [sample_count] is short of
    [max_samples]. *)
Lemma main_loop_rounds (max_samples : Z) (n : nat) :
  forall (fuel : nat) (d : Demo),
  unbalanced (stream d) ->
  Z.to_nat (max_samples - sample_count d) = n ->
  (n < fuel)%nat ->
  exists (rounds : list Round) (lines : list Output) (d' : Demo),
    main_loop fuel max_samples d = (Ok tt, d')
    /\ List.length rounds = n
    /\ map round_id rounds = seq (next_id d) n
    /\ Forall (fun r => List.length (round_X r) = 1%nat
                       /\ List.length (round_y r) = 1%nat) rounds
    /\ history d' = rev (flat_map round_events rounds) ++ history d
    /\ printed d' = lines ++ printed d
    /\ sample_count d' = sample_count d + Z.of_nat n
    /\ correctly_classified d'
       = correctly_classified d + count_rounds round_correct rounds
    /\ prequential (clf d) rounds (clf d')
    /\ unbalanced (stream d').
Proof.
  induction n as [|n IH]; intros fuel d Hunb Hn Hfuel;
    (destruct fuel as [|fuel]; [lia|]);
    cbn [main_loop]; unfold bind at 1; unfold get at 1.
  - replace (sample_count d <? max_samples) with false
      by (symmetry; apply Z.ltb_ge; lia).
    exists [], [], d. unfold ret, count_rounds. cbn.
    destruct Hunb as [Hb [Hlo Hhi]].
    repeat split; auto; try lia; constructor.
  - replace (sample_count d <? max_samples) with true
      by (symmetry; apply Z.ltb_lt; lia).
    destruct (log_percent_returns max_samples d) as (lines1 & Hlog).
    unfold bind at 1. rewrite Hlog.
    set (d1 := mkDemo _ _ _ _ _ _ _ (lines1 ++ printed d)).
    destruct (pull_unbalanced fuel 1 d1 Hunb ltac:(lia))
      as (X & y & st' & Hpull & Hunb' & HlX & Hly).
    unfold bind at 1. rewrite Hpull.
    subst d1. demo_fields.
    unfold bind at 1. unfold call_predict at 1.
    demo_fields.
    pose proof (predict_shape X (clf d)) as Hshape.
    destruct (predict X (clf d)) as [p c1] eqn:Hpred. cbn [fst] in Hshape.
    unfold bind at 1. unfold get at 1.
    demo_fields.
    set (classes := if first d
                    then Some (Sea.get_classes (Sea.obj st')) else None).
    set (r := mkRound (next_id d) X y p classes).
    assert (Hfit :
      (if first d
       then bind (call_partial_fit (next_id d) X y
                    (Some (Sea.get_classes (Sea.obj st'))))
              (fun _ => set_first false)
       else call_partial_fit (next_id d) X y None)
        (mkDemo st' c1 (sample_count d) (correctly_classified d) (first d)
           (S (next_id d))
           (EvPredict (next_id d) X p
              :: EvNextInstance (next_id d) 1 X y :: history d)
           (lines1 ++ printed d))
      = (Ok tt,
         mkDemo st' (partial_fit X y classes c1) (sample_count d)
           (correctly_classified d) false (S (next_id d))
           (rev (round_events r) ++ history d) (lines1 ++ printed d))).
    { subst classes r. destruct (first d); reflexivity. }
    unfold bind at 1. rewrite Hfit.
    unfold bind at 1.
    rewrite (score_returns y p _ r eq_refl eq_refl); [|lia|].
    2:{ intros l Hl. rewrite (Hshape l); [lia | congruence]. }
    demo_fields.
    unfold bind at 1. unfold count_sample at 1, modify at 1.
    demo_fields.
    match goal with |- context [main_loop fuel max_samples ?d6] =>
      destruct (IH fuel d6)
        as (rounds & lines & d' & Hrun & Hlen & Hids & Hone & Hh & Hp & Hsc
            & Hcc & Hpreq & Hu);
        [ exact Hunb' | cbn [sample_count]; lia | lia | ]
    end.
    demo_fields in *.
    exists (r :: rounds), (lines ++ lines1), d'.
    split; [exact Hrun|]. split; [cbn; lia|].
    split; [cbn [map seq round_id r]; rewrite Hids; reflexivity|].
    split; [constructor; [subst r; cbn; split; lia | exact Hone]|].
    split.
    { rewrite Hh. cbn [flat_map]. rewrite rev_app_distr, <- app_assoc.
      reflexivity. }
    split; [rewrite Hp, app_assoc; reflexivity|].
    split; [lia|].
    split.
    { rewrite Hcc. unfold count_rounds. cbn [filter].
      destruct (round_correct r); cbn [List.length]; lia. }
    split; [|exact Hu].
    apply prequential_round; subst r; cbn [round_X round_y round_pred
      round_classes]; rewrite Hpred; [reflexivity | exact Hpreq].
Qed.


(** The store the demo starts from. *)
Lemma demo_store_unbalanced (np : Sea.RandomState) :
  exists st,
    Sea.__init__ 1 42 false (67 # 10) np = Ok st
    /\ unbalanced (Sea.prepare_for_use st)
    /\ Sea.get_classes (Sea.obj (Sea.prepare_for_use st)) = [0; 1].
Proof.
  eexists. split; [reflexivity|]. split; [|reflexivity].
  split; cbn; [reflexivity | lia].
Qed.

Lemma same_options_classes (a b : Sea.SEAGenerator) :
  Sea.get_classes a = Sea.get_classes b.
Proof. reflexivity. Qed.

(** The whole demo: an optional pretraining batch, [max_samples] rounds,
    two lines of output. *)
Lemma demo_with_runs (max_samples train_size : Z) (fuel : nat) (c : C)
    (np : Sea.RandomState) :
  1 <= max_samples ->
  (Z.to_nat max_samples < fuel)%nat ->
  exists (pre : list Event) (c0 : C) (rounds : list Round)
         (lines : list Output) (d' : Demo),
    demo_with max_samples train_size fuel c np = (Ok tt, d')
    /\ pretraining train_size c pre c0
    /\ List.length rounds = Z.to_nat max_samples
    /\ map round_id rounds
       = seq (if (0 <? train_size)%Z then 1 else 0) (Z.to_nat max_samples)
    /\ Forall (fun r => List.length (round_X r) = 1%nat
                       /\ List.length (round_y r) = 1%nat) rounds
    /\ events d' = pre ++ flat_map round_events rounds
    /\ output d'
       = lines ++ [SamplesAnalyzed max_samples;
                   MyPerformance
                     (inject_Z (count_rounds round_correct rounds)
                      / inject_Z max_samples)]
    /\ sample_count d' = max_samples
    /\ correctly_classified d' = count_rounds round_correct rounds
    /\ prequential c0 rounds (clf d').
Proof.
  intros Hmax Hfuel.
  destruct (demo_store_unbalanced np) as (st & Hinit & Hunb & Hclasses).
  unfold demo_with. rewrite Hinit. unfold body.
  destruct fuel as [|fuel]; [lia|].
  set (d0 := start (Sea.prepare_for_use st) c).
  assert (Hpre : exists pre c0 d1,
    pretrain (S fuel) train_size d0 = (Ok tt, d1)
    /\ pretraining train_size c pre c0
    /\ history d1 = rev pre /\ printed d1 = [] /\ sample_count d1 = 0
    /\ correctly_classified d1 = 0 /\ clf d1 = c0
    /\ next_id d1 = (if (0 <? train_size)%Z then 1 else 0)%nat
    /\ unbalanced (stream d1)).
  { unfold pretrain, pretraining. destruct (train_size >? 0) eqn:Hts.
    - rewrite Z.gtb_ltb in Hts. apply Z.ltb_lt in Hts.
      destruct (pull_unbalanced fuel train_size d0 Hunb ltac:(lia))
        as (X0 & y0 & st' & Hpull & Hunb' & HlX & Hly).
      unfold bind at 1. rewrite Hpull.
      unfold bind, get, call_partial_fit, set_first, modify.
      subst d0. cbn [start stream clf sample_count correctly_classified
                     first next_id history printed].
      rewrite (same_options_classes (Sea.obj st')
                 (Sea.obj (Sea.prepare_for_use st))), Hclasses.
      replace (0 <? train_size) with true by (symmetry; apply Z.ltb_lt; lia).
      eexists _, _, _. split; [reflexivity|].
      split; [left; split; [exact Hts|]; exists X0, y0; auto|].
      cbn. auto 10.
    - rewrite Z.gtb_ltb in Hts. apply Z.ltb_ge in Hts.
      replace (0 <? train_size) with false by (symmetry; apply Z.ltb_ge; lia).
      exists [], c, d0. unfold ret. subst d0. cbn. auto 10. }
  destruct Hpre as (pre & c0 & d1 & Hrun1 & Hcase & Hh1 & Hp1 & Hsc1 & Hcc1
                    & Hclf1 & Hid1 & Hunb1).
  unfold bind at 1. rewrite Hrun1.
  destruct (main_loop_rounds max_samples (Z.to_nat max_samples) (S fuel) d1)
    as (rounds & lines & d2 & Hrun2 & Hlen & Hids & Hone & Hh2 & Hp2 & Hsc2
        & Hcc2 & Hpreq & Hunb2);
    [exact Hunb1 | rewrite Hsc1; f_equal; lia | exact Hfuel |].
  unfold bind at 1. rewrite Hrun2.
  rewrite Hsc1, Z2Nat.id in Hsc2 by lia. cbn [Z.add] in Hsc2.
  rewrite Hcc1 in Hcc2. cbn [Z.add] in Hcc2.
  rewrite Hp1, app_nil_r in Hp2. rewrite Hh1 in Hh2. rewrite Hclf1 in Hpreq.
  rewrite Hid1 in Hids.
  unfold report, bind, get, emit, modify. rewrite Hsc2.
  replace (max_samples =? 0) with false by (symmetry; apply Z.eqb_neq; lia).
  eexists pre, c0, rounds, (rev lines), _.
  split; [reflexivity|].
  unfold events, output.
  demo_fields.
  rewrite !rev_append_rev, !app_nil_r, Hh2, Hp2, Hcc2.
  rewrite rev_app_distr, !rev_involutive.
  cbn [rev app]. rewrite <- !app_assoc.
  repeat split; auto.
Qed.


(** In the events of rounds every [partial_fit] comes right after the
    pull and the [predict] of its own batch. *)
Lemma fit_follows_predict (rounds : list Round) :
  forall before e after,
  flat_map round_events rounds = before ++ e :: after ->
  is_partial_fit e = true ->
  exists before' r,
    In r rounds
    /\ e = EvPartialFit (round_id r) (round_X r) (round_y r) (round_classes r)
    /\ before
       = before' ++ [EvNextInstance (round_id r) 1 (round_X r) (round_y r);
                     EvPredict (round_id r) (round_X r) (round_pred r)].
Proof.
  induction rounds as [|r rounds IH]; intros before e after Heq Hfit.
  - destruct before; discriminate.
  - cbn [flat_map round_events app] in Heq.
    destruct before as [|e1 [|e2 [|e3 before]]]; cbn [app] in Heq.
    + injection Heq as <- _. discriminate.
    + injection Heq as _ <- _. discriminate.
    + injection Heq as <- <- <- _.
      exists [], r. split; [left; reflexivity|]. split; reflexivity.
    + injection Heq as <- <- <- Heq.
      destruct (IH before e after Heq Hfit) as (before' & r' & Hin & He & Hb).
      exists (round_events r ++ before'), r'.
      split; [right; exact Hin|]. split; [exact He|].
      rewrite Hb. reflexivity.
Qed.

(** The events of rounds carry the ids of the rounds. *)
Lemma round_event_ids (rounds : list Round) (e : Event) :
  In e (flat_map round_events rounds) ->
  In (event_id e) (map round_id rounds).
Proof.
  induction rounds as [|r rounds IH]; cbn [flat_map map]; [tauto|].
  rewrite in_app_iff. intros [Hin|Hin].
  - left. cbn in Hin. destruct Hin as [<-|[<-|[<-|[]]]]; reflexivity.
  - right. apply IH. exact Hin.
Qed.

(** Rounds numbered from [first_id + 1] have no event on batch
    [first_id]. *)
Lemma no_round_before (first_id : nat) (rounds : list Round) (n : nat) :
  map round_id rounds = seq (S first_id) n ->
  filter (fun e => Nat.eqb (event_id e) first_id)
    (flat_map round_events rounds) = [].
Proof.
  intro Hids.
  destruct (filter _ _) as [|e l] eqn:Hf; [reflexivity|].
  assert (Hin : In e (filter (fun e => Nat.eqb (event_id e) first_id)
                        (flat_map round_events rounds)))
    by (rewrite Hf; left; reflexivity).
  apply filter_In in Hin as [Hin Hid]. apply Nat.eqb_eq in Hid.
  apply round_event_ids in Hin. rewrite Hids, Hid in Hin.
  apply in_seq in Hin. lia.
Qed.

Lemma count_rounds_bounds (f g : Round -> bool) (rounds : list Round) :
  (forall r, f r = true -> g r = true) ->
  0 <= count_rounds f rounds <= count_rounds g rounds
  /\ count_rounds g rounds <= Z.of_nat (List.length rounds).
Proof.
  intro Hfg. unfold count_rounds.
  induction rounds as [|r rounds IH]; cbn [filter List.length]; [lia|].
  specialize (Hfg r).
  destruct (f r) eqn:Hf, (g r) eqn:Hg; cbn [List.length]; try lia.
  all: specialize (Hfg eq_refl); discriminate.
Qed.

Lemma correct_is_answered (r : Round) :
  round_correct r = true -> round_answered r = true.
Proof.
  unfold round_correct, round_answered.
  destruct (round_pred r); [reflexivity | discriminate].
Qed.

(** C2.  In the evaluation loop every round pulls one instance, calls
    [predict] on it and only then calls [partial_fit] on it: the events of
    the loop are those of [max_samples] rounds with distinct batches, each
    [partial_fit] is immediately preceded by the [predict] on the same
    batch (itself preceded by the pull of that batch), and each round's
    prediction is computed in the learner state left by the rounds before
    it.  No round fits a batch before predicting it. *)
Theorem demo_tests_then_trains (max_samples train_size : Z) (fuel : nat)
    (c : C) (np : Sea.RandomState) :
  1 <= max_samples ->
  (Z.to_nat max_samples < fuel)%nat ->
  exists (pre : list Event) (c0 : C) (rounds : list Round),
    fst (demo_with max_samples train_size fuel c np) = Ok tt
    /\ pretraining train_size c pre c0
    /\ events (snd (demo_with max_samples train_size fuel c np))
       = pre ++ flat_map round_events rounds
    /\ Z.of_nat (List.length rounds) = max_samples
    /\ NoDup (map round_id rounds)
    /\ (forall before e after,
          flat_map round_events rounds = before ++ e :: after ->
          is_partial_fit e = true ->
          exists before' r,
            In r rounds
            /\ e = EvPartialFit (round_id r) (round_X r) (round_y r)
                   (round_classes r)
            /\ before
               = before'
                 ++ [EvNextInstance (round_id r) 1 (round_X r) (round_y r);
                     EvPredict (round_id r) (round_X r) (round_pred r)])
    /\ prequential c0 rounds
         (clf (snd (demo_with max_samples train_size fuel c np))).
Proof.
  intros Hmax Hfuel.
  destruct (demo_with_runs max_samples train_size fuel c np Hmax Hfuel)
    as (pre & c0 & rounds & lines & d' & Hrun & Hpre & Hlen & Hids & Hone
        & Hev & Hout & Hsc & Hcc & Hpreq).
  exists pre, c0, rounds. rewrite Hrun. cbn [fst snd].
  split; [reflexivity|]. split; [exact Hpre|]. split; [exact Hev|].
  split; [lia|]. split; [rewrite Hids; apply seq_NoDup|].
  split; [apply fit_follows_predict | exact Hpreq].
Qed.


(** C3, as amended.  When [predict] returns [None] for an instance the loop
    does not crash and does not count the instance as correct; the
    instance still counts in [sample_count].  The performance reported is
    the number of correct predictions divided by the number of all
    instances processed, whether or not a prediction was produced for
    them. *)
Theorem sentinel_counts_as_a_miss (max_samples train_size : Z) (fuel : nat)
    (c : C) (np : Sea.RandomState) :
  1 <= max_samples ->
  (Z.to_nat max_samples < fuel)%nat ->
  exists (pre : list Event) (rounds : list Round) (lines : list Output),
    fst (demo_with max_samples train_size fuel c np) = Ok tt
    /\ events (snd (demo_with max_samples train_size fuel c np))
       = pre ++ flat_map round_events rounds
    /\ Z.of_nat (List.length rounds) = max_samples
    /\ (forall r, In r rounds -> round_pred r = None ->
                  round_correct r = false)
    /\ correctly_classified (snd (demo_with max_samples train_size fuel c np))
       = count_rounds round_correct rounds
    /\ sample_count (snd (demo_with max_samples train_size fuel c np))
       = Z.of_nat (List.length rounds)
    /\ output (snd (demo_with max_samples train_size fuel c np))
       = lines ++ [SamplesAnalyzed max_samples;
                   MyPerformance
                     (inject_Z (count_rounds round_correct rounds)
                      / inject_Z (Z.of_nat (List.length rounds)))]
    /\ 0 <= count_rounds round_correct rounds
         <= count_rounds round_answered rounds
    /\ count_rounds round_answered rounds <= Z.of_nat (List.length rounds).
Proof.
  intros Hmax Hfuel.
  destruct (demo_with_runs max_samples train_size fuel c np Hmax Hfuel)
    as (pre & c0 & rounds & lines & d' & Hrun & Hpre & Hlen & Hids & Hone
        & Hev & Hout & Hsc & Hcc & Hpreq).
  exists pre, rounds, lines. rewrite Hrun. cbn [fst snd].
  assert (Hn : Z.of_nat (List.length rounds) = max_samples) by lia.
  rewrite Hn.
  destruct (count_rounds_bounds round_correct round_answered rounds
              correct_is_answered) as [Hb1 Hb2].
  repeat split; auto; try lia.
  intros r _ Hnone. unfold round_correct. rewrite Hnone. reflexivity.
Qed.

End Facts.
End DemoSpec.

(** ** Construction *)

Module ConstructionSpec.

Section Facts.

Context {NR : Sea.NumpyRandom}.

(** An index the list does not have raises when the function is looked
    up, after the three draws. *)
Lemma find_instance_unknown_function (fuel : nat) (st : Sea.Store) :
  Sea.classification_function_index (Sea.obj st) < -4
  \/ 3 < Sea.classification_function_index (Sea.obj st) ->
  fst (Sea.find_instance (S fuel) st) = Raise IndexError.
Proof.
  intro Hout. cbn [Sea.find_instance].
  unfold bind, Sea.draw, Sea.attr, lift_outcome.
  destruct (Sea.rand (Sea.np_random st)) as [r1 s1].
  cbn [Sea.obj Sea.np_random].
  destruct (Sea.rand s1) as [r2 s2]. cbn [Sea.obj Sea.np_random].
  destruct (Sea.rand s2) as [r3 s3]. cbn [Sea.obj Sea.np_random].
  rewrite getitem_outside; [reflexivity|].
  change (Z.of_nat (List.length Sea.classification_functions)) with 4. lia.
Qed.

Lemma next_instance_unknown_function (fuel : nat) (n : Z) (st : Sea.Store) :
  Sea.classification_function_index (Sea.obj st) < -4
  \/ 3 < Sea.classification_function_index (Sea.obj st) ->
  1 <= n ->
  fst (Sea.next_instance (S fuel) n st) = Raise IndexError.
Proof.
  intros Hout Hn. unfold Sea.next_instance.
  replace (n <? 0) with false by (symmetry; apply Z.ltb_ge; lia).
  destruct (Z.to_nat n) as [|m] eqn:Hm; [lia|].
  cbn [Sea.fill_rows]. unfold bind at 1. unfold bind at 1.
  pose proof (find_instance_unknown_function fuel st Hout) as Hfind.
  destruct (Sea.find_instance (S fuel) st) as [[x|e|] st'];
    cbn [fst] in Hfind; try discriminate.
  injection Hfind as ->. reflexivity.
Qed.

(** C6, as amended.  Neither constructor checks its options.
    [SEAGenerator(...)], with a seed that numpy takes, returns a generator
    for every classification function index and stores the index, the
    seed, the balancing flag and the noise as given; an index that the list of functions does not have
    (below -4 or above 3) raises [IndexError] only later, in
    [next_instance] for a batch of at least one sample.
    [EvaluateStreamGenerationSpeed(...)] returns an evaluator for every
    [batch_size], stored as given. *)
Theorem constructors_accept_any_options (classification_function seed0 : Z)
    (balance : bool) (noise : Q) (np : Sea.RandomState)
    (num_samples0 : Z) (max_time0 : float) (output_file0 : option string)
    (batch_size0 : Z) :
  (0 <= seed0 < 2 ^ 32 ->
   exists st,
     Sea.__init__ classification_function seed0 balance noise np = Ok st
     /\ Sea.classification_function_index (Sea.obj st)
        = classification_function
     /\ Sea.instance_seed (Sea.obj st) = seed0
     /\ Sea.balance_classes (Sea.obj st) = balance
     /\ Sea.noise_percentage (Sea.obj st) = noise
     /\ (classification_function < -4 \/ 3 < classification_function ->
         forall (fuel : nat) (n : Z), 1 <= n ->
         fst (Sea.next_instance (S fuel) n st) = Raise IndexError))
  /\ (exists ev,
        Evaluator.__init__ num_samples0 max_time0 output_file0 batch_size0
        = Ok ev
        /\ Evaluator.batch_size ev = batch_size0
        /\ Evaluator.num_samples ev = num_samples0
        /\ Evaluator.max_time ev = max_time0).
Proof.
  split.
  - intros _. eexists. split; [reflexivity|]. repeat split.
    intros Hout fuel n Hn.
    apply next_instance_unknown_function; [exact Hout | exact Hn].
  - eexists. split; [reflexivity|]. repeat split.
Qed.

End Facts.

Lemma constructors_accept_any_options_witness :
  (exists st,
     @Sea.__init__ Fixtures.scripted_random 7 42 false 0 0 = Ok st
     /\ Sea.classification_function_index (Sea.obj st) = 7
     /\ fst (Sea.next_instance 1 1 st) = Raise IndexError)
  /\ (exists ev,
        Evaluator.__init__ 100000 Inf None 0 = Ok ev
        /\ Evaluator.batch_size ev = 0).
Proof.
  destruct (@constructors_accept_any_options Fixtures.scripted_random
              7 42 false 0 0 100000 Inf None 0)
    as [Hsea (ev & Hev & Hbs & _)].
  destruct Hsea as (st & Hinit & Hidx & _ & _ & _ & Hlater); [lia|].
  split.
  - exists st. split; [exact Hinit|]. split; [exact Hidx|].
    apply Hlater; [right|]; lia.
  - exists ev. split; assumption.
Defined.

(** Index 7 and batch sizes 0 and -5 are taken at construction. *)
Lemma invalid_options_are_not_rejected :
  returned (@Sea.__init__ Fixtures.scripted_random 7 42 false 0 0) = true
  /\ returned (Evaluator.__init__ 100000 Inf None 0) = true
  /\ returned (Evaluator.__init__ 100000 Inf None (-5)) = true.
Proof. repeat split. Qed.

End ConstructionSpec.

(** ** The labels of a batch *)

Module SeaLabels.

Import Sea.

Section Facts.
Context {NR : NumpyRandom}.

(** Without class balancing a batch that [next_instance] returns is the
    batch the documentation describes, whatever the index and the
    fuel. *)
Lemma next_instance_returned (fuel : nat) (n : Z) (st : Store)
    (X : list (list Q)) (y : list Q) (st' : Store) :
  balance_classes (obj st) = false ->
  next_instance fuel n st = (Ok (X, y), st') ->
  (X, y, np_random st')
  = spec_batch (wrapped (classification_function_index (obj st)))
      (noise_percentage (obj st)) (Z.to_nat n) (np_random st).
Proof.
  intros Hb Hrun.
  destruct (Z.lt_trichotomy n 0) as [Hn|[->|Hn]].
  - unfold next_instance in Hrun.
    replace (n <? 0) with true in Hrun
      by (symmetry; apply Z.ltb_lt; exact Hn).
    discriminate.
  - cbn in Hrun. injection Hrun as <- <- <-. reflexivity.
  - destruct fuel as [|fuel].
    + unfold next_instance in Hrun.
      replace (n <? 0) with false in Hrun
        by (symmetry; apply Z.ltb_ge; lia).
      destruct (Z.to_nat n) as [|m] eqn:Hm; [lia|].
      cbn in Hrun. discriminate.
    + destruct (Z_le_gt_dec (-4) (classification_function_index (obj st)))
        as [Hlo|Hlo];
        [destruct (Z_le_gt_dec (classification_function_index (obj st)) 3)
           as [Hhi|Hhi]|].
      * destruct (SeaSpec.next_instance_unbalanced fuel n st Hb
                    (conj Hlo Hhi) ltac:(lia))
          as (X0 & y0 & st0 & Hrun0 & Hspec & _).
        rewrite Hrun0 in Hrun. injection Hrun as <- <- <-. exact Hspec.
      * pose proof (ConstructionSpec.next_instance_unknown_function
                      fuel n st ltac:(lia) ltac:(lia)) as Hraise.
        rewrite Hrun in Hraise. discriminate.
      * pose proof (ConstructionSpec.next_instance_unknown_function
                      fuel n st ltac:(lia) ltac:(lia)) as Hraise.
        rewrite Hrun in Hraise. discriminate.
Qed.

(** C9, as amended.  With [balance_classes = False], every batch that
    [next_instance(n)] returns has [n] samples of exactly three features
    each, every feature in [0, 10); the label of a sample is 0 if
    [att1 + att2 <= T] and 1 otherwise, where [att1 + att2] is the sum
    as Python computes it, rounded to the nearest double, and [T] = 8,
    9, 7, 9.5 for the index 0, 1, 2, 3 and also for the index -4, -3,
    -2, -1, which Python counts from the end of the list ([att3] plays
    no part); the label is flipped exactly when the draw [r] that
    follows has [0.01 + r <= noise_percentage], in doubles; hence,
    whenever [noise_percentage < 0.01], no label is flipped and every
    label is the threshold function of its row.  For each of these
    eight indices and every [n >= 0] the call does return.  (At
    [noise_percentage = 0.01] a draw of 0.0 does flip the label, and a
    row whose exact sum is above [T] has label 0 when the sum rounds to
    [T].) *)
Theorem next_instance_labels (n : Z) (st : Store) :
  balance_classes (obj st) = false ->
  let index := wrapped (classification_function_index (obj st)) in
  let noise := noise_percentage (obj st) in
  (forall (fuel : nat) (X : list (list Q)) (y : list Q) (st' : Store),
     next_instance fuel n st = (Ok (X, y), st') ->
     (X, y, np_random st') = spec_batch index noise (Z.to_nat n) (np_random st)
     /\ Z.of_nat (List.length X) = n
     /\ List.length y = List.length X
     /\ Forall spec_features X
     /\ ((noise < one_percent)%Q -> y = map (spec_row_label index) X))
  /\ (-4 <= classification_function_index (obj st) <= 3 -> 0 <= n ->
      forall fuel : nat,
      exists X y st', next_instance (S fuel) n st = (Ok (X, y), st')).
Proof.
  intros Hb index noise. split.
  - intros fuel X y st' Hrun.
    pose proof (next_instance_returned fuel n st X y st' Hb Hrun) as Hspec.
    fold index noise in Hspec.
    assert (Hn : 0 <= n).
    { destruct (Z.lt_ge_cases n 0) as [Hneg|Hpos]; [|exact Hpos].
      unfold next_instance in Hrun.
      replace (n <? 0) with true in Hrun
        by (symmetry; apply Z.ltb_lt; exact Hneg).
      discriminate. }
    pose proof (SeaSpec.spec_batch_length index noise (Z.to_nat n)
                  (np_random st)) as [HlX Hly].
    pose proof (SeaSpec.spec_batch_features index noise (Z.to_nat n)
                  (np_random st)) as Hf.
    pose proof (SeaSpec.spec_batch_quiet index noise (Z.to_nat n)
                  (np_random st)) as Hq.
    rewrite <- Hspec in HlX, Hly, Hf, Hq. cbn [fst snd] in *.
    repeat split; auto; try lia; congruence.
  - intros Hi Hn fuel.
    destruct (SeaSpec.next_instance_unbalanced fuel n st Hb Hi Hn)
      as (X & y & st' & Hrun & _).
    exists X, y, st'. exact Hrun.
Qed.

End Facts.
End SeaLabels.

(** ** Runs of the generator and of the demo on the concrete
    collaborators *)

Module SeaRuns.

Import Sea Fixtures.

#[local] Existing Instance scripted_random.

Lemma next_instance_labels_witness :
  exists X y,
    fst (next_instance 1 2 (scripted_sea (-4) false 0)) = Ok (X, y)
    /\ Z.of_nat (List.length X) = 2
    /\ Forall spec_features X
    /\ y = map (spec_row_label 0) X.
Proof.
  destruct (SeaLabels.next_instance_labels 2 (scripted_sea (-4) false 0)
              eq_refl) as [Hany Hruns].
  destruct (Hruns ltac:(cbn; lia) ltac:(lia) 0%nat)
    as (X & y & st' & Hrun).
  destruct (Hany _ _ _ _ Hrun) as (_ & Hlen & _ & Hfeat & Hquiet).
  exists X, y. rewrite Hrun.
  split; [reflexivity|]. split; [exact Hlen|]. split; [exact Hfeat|].
  apply Hquiet. reflexivity.
Defined.

(** Two places where the labels are not what the claim says.  At
    [noise_percentage = 0.01] the noise draw 0.0 flips the label: the
    sample (3, 5, 9) of function 0 is below the threshold 8 and comes
    out with label 1.  And without noise the sample whose first two
    features are [3 + 2^-51] and 5 comes out with label 0, its sum
    being 8 in doubles, though the exact sum is above the threshold
    8. *)
Lemma labels_at_the_edges :
  ((noise_percentage (obj (scripted_sea 0 false one_percent))
    <= one_percent)%Q
   /\ exists X y,
        fst (next_instance 1 1 (scripted_sea 0 false one_percent))
        = Ok (X, y)
        /\ y = [1%Q]
        /\ map (spec_row_label 0) X = [0%Q]
        /\ y <> map (spec_row_label 0) X)
  /\ (balance_classes (obj rounding_sea) = false
      /\ (noise_percentage (obj rounding_sea) <= 1 # 100)%Q
      /\ fst (@next_instance rounding_random 1 1 rounding_sea)
         = Ok ([[6755399441055745 # 2251799813685248; 5; 0]%Q], [0%Q])
      /\ (8 < (6755399441055745 # 2251799813685248) + 5)%Q
      /\ exact_label 0 (6755399441055745 # 2251799813685248) 5 = 1
      /\ spec_label 0 (6755399441055745 # 2251799813685248) 5 = 0).
Proof.
  split.
  - split; [apply Qle_refl|].
    eexists _, _. split; [vm_compute; reflexivity|].
    split; [reflexivity|]. split; [reflexivity|]. discriminate.
  - split; [reflexivity|]. split; [discriminate|].
    split; [vm_compute; reflexivity|]. repeat split.
Qed.

(** The outputs the restart theorem is about, on the scripted draws. *)
Example restart_outputs :
  outputs 1 [1; 2] (restart (scripted_sea 1 false 0))
  = [Ok ([[3; 5; 9]%Q], [0%Q]);
     Ok ([[3; 5; 9]%Q; [3; 5; 9]%Q], [0%Q; 0%Q])].
Proof. vm_compute. reflexivity. Qed.

End SeaRuns.

Module DemoRuns.

Import Demo Fixtures.

#[local] Existing Instance scripted_random.

Lemma demo_tests_then_trains_witness :
  exists (pre : list Event) (rounds : list Round),
    fst scripted_demo = Ok tt
    /\ events (snd scripted_demo) = pre ++ flat_map round_events rounds
    /\ Z.of_nat (List.length rounds) = 20000
    /\ NoDup (map round_id rounds).
Proof.
  unfold scripted_demo, demo.
  destruct (@DemoSpec.demo_tests_then_trains scripted_random nat
              (warming_classifier 12) 20000 10 (Z.to_nat 20001) 0%nat 0)
    as (pre & c0 & rounds & Hok & _ & Hev & Hlen & Hnodup & _).
  - lia.
  - lia.
  - exists pre, rounds. auto.
Defined.


Lemma sentinel_counts_as_a_miss_witness :
  exists (rounds : list Round) (lines : list Output),
    fst scripted_demo = Ok tt
    /\ sample_count (snd scripted_demo) = Z.of_nat (List.length rounds)
    /\ output (snd scripted_demo)
       = lines ++ [SamplesAnalyzed 20000;
                   MyPerformance
                     (inject_Z (count_rounds round_correct rounds)
                      / inject_Z (Z.of_nat (List.length rounds)))].
Proof.
  unfold scripted_demo, demo.
  destruct (@DemoSpec.sentinel_counts_as_a_miss scripted_random nat
              (warming_classifier 12) 20000 10 (Z.to_nat 20001) 0%nat 0)
    as (pre & rounds & lines & Hok & _ & _ & _ & _ & Hsc & Hout & _).
  - lia.
  - lia.
  - exists rounds, lines. auto.
Defined.

(** The demo with a classifier that has no prediction for the first two
    instances of the loop: 19998 predictions are produced, all of them
    correct, and the performance reported is 19998/20000, not
    19998/19998. *)
Lemma unanswered_instances_stay_in_the_denominator :
  fst scripted_demo = Ok tt
  /\ sample_count (snd scripted_demo) = 20000
  /\ correctly_classified (snd scripted_demo) = 19998
  /\ answered (events (snd scripted_demo)) = 19998
  /\ last (output (snd scripted_demo)) (Progress 0)
     = MyPerformance (19998 # 20000)
  /\ ~ (19998 # 20000 == inject_Z 19998 / inject_Z 19998)%Q.
Proof.
  vm_compute. repeat split; try reflexivity. discriminate.
Qed.

End DemoRuns.

(* ================================================================== *)
(** * Part III: further properties of the code *)
(* ================================================================== *)

(** ** The course of a batch *)

Module SeaMore.
Import Sea.

Section Facts.
Context {NR : NumpyRandom}.

Lemma set_row_length (j : nat) (row : list Q) (data : list (list Q)) :
  List.length (set_row j row data) = List.length data.
Proof.
  revert j; induction data as [|d data IH]; intros [|j]; cbn; auto.
Qed.

(** The batch loop writes one row per pass, from position [j] on. *)
Lemma fill_rows_steps (fuel n : nat) :
  forall (done rest : list (list Q)) (st : Store) data' st',
  (n <= List.length rest)%nat ->
  fill_rows fuel n (List.length done) (done ++ rest) st = (Ok data', st') ->
  exists rows,
    data' = done ++ rows ++ skipn n rest
    /\ List.length rows = n
    /\ sample_steps fuel st rows st'.
Proof.
  induction n as [|n IH]; intros done rest st data' st' Hlen Hrun.
  - cbn in Hrun. injection Hrun as <- <-. exists []. cbn.
    repeat split. constructor.
  - destruct rest as [|old rest]; [cbn in Hlen; lia|].
    cbn [fill_rows] in Hrun. unfold bind at 1 in Hrun.
    destruct (find_instance fuel st) as [[[[[a1 a2] a3] g]|e|] st1] eqn:Hfind;
      try discriminate.
    unfold bind at 1 in Hrun. unfold draw at 1 in Hrun.
    destruct (rand (np_random st1)) as [r s'] eqn:Hrand.
    unfold bind at 1 in Hrun. unfold attr at 1 in Hrun.
    cbn [obj] in Hrun.
    rewrite SeaSpec.set_row_middle, SeaSpec.nth_middle_row in Hrun.
    unfold bind at 1 in Hrun. unfold update at 1, modify at 1 in Hrun.
    set (row := [a1; a2; a3; inject_Z _]) in Hrun.
    set (st2 := set_obj _ _) in Hrun.
    replace (done ++ row :: rest) with ((done ++ [row]) ++ rest) in Hrun
      by (rewrite <- app_assoc; reflexivity).
    replace (S (List.length done)) with (List.length (done ++ [row])) in Hrun
      by (rewrite length_app; cbn; lia).
    apply IH in Hrun; [|cbn in Hlen; lia].
    destruct Hrun as (rows & -> & Hl & Hsteps).
    exists (row :: rows). split; [rewrite <- app_assoc; reflexivity|].
    split; [cbn; lia|].
    apply steps_next with (st1 := st2); [|exact Hsteps].
    exists a1, a2, a3, g, st1. split; [exact Hfind|].
    rewrite Hrand. cbn [fst snd]. split; reflexivity.
Qed.

(** A batch that comes back is the rows of [batch_size] passes. *)
Lemma next_instance_steps (fuel : nat) (n : Z) (st : Store) X y st' :
  next_instance fuel n st = (Ok (X, y), st') ->
  0 <= n
  /\ exists rows,
       X = map (firstn 3) rows
       /\ y = flat_map (skipn 3) rows
       /\ List.length rows = Z.to_nat n
       /\ sample_steps fuel st rows st'.
Proof.
  unfold next_instance. destruct (n <? 0) eqn:Hneg; [discriminate|].
  apply Z.ltb_ge in Hneg. intro Hrun. split; [exact Hneg|].
  unfold bind in Hrun.
  destruct (fill_rows _ _ _ _ _) as [[data'|e|] st1] eqn:Hfill;
    try discriminate.
  unfold ret in Hrun. injection Hrun as <- <- <-.
  apply (fill_rows_steps fuel (Z.to_nat n) []) in Hfill.
  2:{ unfold zeros. rewrite repeat_length. lia. }
  destruct Hfill as (rows & -> & Hl & Hsteps).
  exists rows. cbn [app].
  assert (Hnil : skipn (Z.to_nat n)
                   (zeros (Z.to_nat n) (Z.to_nat (num_numerical_attributes + 1)))
                 = []).
  { apply skipn_all2. unfold zeros. rewrite repeat_length. lia. }
  rewrite Hnil, app_nil_r. auto.
Qed.


(** Every function the list can give is the threshold function of the
    position the index wraps to. *)
Lemma lookup_wrapped (index : Z) (f : Q -> Q -> Q -> Z) :
  getitem classification_functions index = Ok f ->
  -4 <= index <= 3
  /\ forall a1 a2 a3, f a1 a2 a3 = spec_label (wrapped index) a1 a2.
Proof.
  intro Hget.
  assert (Hrange : -4 <= index <= 3).
  { destruct (Z_lt_dec index (-4)) as [Hlo|Hlo].
    - rewrite getitem_outside in Hget; [discriminate|].
      change (Z.of_nat (List.length classification_functions)) with 4. lia.
    - destruct (Z_lt_dec 3 index) as [Hhi|Hhi]; [|lia].
      rewrite getitem_outside in Hget; [discriminate|].
      change (Z.of_nat (List.length classification_functions)) with 4. lia. }
  split; [exact Hrange|].
  assert (index = -4 \/ index = -3 \/ index = -2 \/ index = -1
          \/ index = 0 \/ index = 1 \/ index = 2 \/ index = 3)
    as [ -> | [ -> | [ -> | [ -> | [ -> | [ -> | [ -> | -> ] ] ] ] ] ] ]
    by lia;
    cbn in Hget; injection Hget as <-; intros; reflexivity.
Qed.

Lemma spec_label_binary (index : Z) (a1 a2 : Q) :
  spec_label index a1 a2 = 0 \/ spec_label index a1 a2 = 1.
Proof. unfold spec_label. destruct (Qle_bool _ _); auto. Qed.

Lemma set_next_class_same (g : SEAGenerator) :
  set_next_class_should_be_zero (next_class_should_be_zero g) g = g.
Proof. destruct g; reflexivity. Qed.

(** What the rejection loop has done when it comes back with a sample:
    the features are scaled draws, the class is the threshold label of the
    function the index wraps to, the generator is as before but for the
    class wanted next, which has changed sides exactly when classes are
    balanced, and then the class found is the one that was wanted. *)
Lemma find_instance_found (fuel : nat) :
  forall (st : Store) att1 att2 att3 group st',
  find_instance fuel st = (Ok (att1, att2, att3, group), st') ->
  ((0 <= att1)%Q /\ (att1 < 10)%Q)
  /\ ((0 <= att2)%Q /\ (att2 < 10)%Q)
  /\ ((0 <= att3)%Q /\ (att3 < 10)%Q)
  /\ -4 <= classification_function_index (obj st) <= 3
  /\ group = spec_label (wrapped (classification_function_index (obj st)))
               att1 att2
  /\ obj st'
     = set_next_class_should_be_zero (next_class_should_be_zero (obj st'))
         (obj st)
  /\ (if balance_classes (obj st)
      then group = (if next_class_should_be_zero (obj st) then 0 else 1)
           /\ next_class_should_be_zero (obj st')
              = negb (next_class_should_be_zero (obj st))
      else next_class_should_be_zero (obj st')
           = next_class_should_be_zero (obj st)).
Proof.
  induction fuel as [|fuel IH]; intros st att1 att2 att3 group st' Hrun;
    [discriminate|].
  cbn [find_instance] in Hrun.
  unfold bind, draw, attr, lift_outcome, update, modify, ret in Hrun.
  pose proof (SeaSpec.scaled_draw_range (np_random st)) as H1.
  destruct (rand (np_random st)) as [r1 s1]. cbn [obj np_random fst] in *.
  pose proof (SeaSpec.scaled_draw_range s1) as H2.
  destruct (rand s1) as [r2 s2]. cbn [obj np_random fst] in *.
  pose proof (SeaSpec.scaled_draw_range s2) as H3.
  destruct (rand s2) as [r3 s3]. cbn [obj np_random fst] in *.
  destruct (getitem classification_functions
              (classification_function_index (obj st))) as [f|e|] eqn:Hf;
    try discriminate.
  destruct (lookup_wrapped _ f Hf) as [Hrange Hlabel].
  destruct (balance_classes (obj st)) eqn:Hb; cbn [negb] in Hrun.
  - cbn [obj] in Hrun.
    match type of Hrun with (if ?c then _ else _) _ = _ =>
      destruct c eqn:Hwanted end.
    + injection Hrun as <- <- <- <- <-.
      cbn [obj set_obj next_class_should_be_zero
           set_next_class_should_be_zero].
      assert (Hgroup : f (fmul 10 r1) (fmul 10 r2) (fmul 10 r3)
                       = if next_class_should_be_zero (obj st) then 0 else 1).
      { destruct (next_class_should_be_zero (obj st));
          cbn [andb orb negb] in Hwanted.
        - rewrite orb_false_r in Hwanted. apply Z.eqb_eq. exact Hwanted.
        - apply Z.eqb_eq. exact Hwanted. }
      rewrite Hlabel in Hgroup |- *. repeat split; tauto || auto.
    + specialize (IH _ _ _ _ _ _ Hrun). cbn [obj] in IH.
      rewrite Hb in IH. exact IH.
  - injection Hrun as <- <- <- <- <-. cbn [obj].
    rewrite Hlabel, set_next_class_same. repeat split; tauto || auto.
Qed.


(** What one pass leaves. *)
Lemma sample_step_facts (fuel : nat) (st : Store) (row : list Q)
    (st' : Store) :
  sample_step fuel st row st' ->
  data_row row
  /\ same_setup (obj st) (obj st')
  /\ get_last_instance (obj st') = (Some (firstn 3 row), Some (skipn 3 row))
  /\ -4 <= classification_function_index (obj st) <= 3
  /\ next_class_should_be_zero (obj st')
     = (if balance_classes (obj st)
        then negb (next_class_should_be_zero (obj st))
        else next_class_should_be_zero (obj st))
  /\ ((noise_percentage (obj st) < one_percent)%Q ->
      nth 3 row 0%Q
      = spec_row_label (wrapped (classification_function_index (obj st))) row
      /\ (balance_classes (obj st) = true ->
          nth 3 row 0%Q
          = inject_Z (if next_class_should_be_zero (obj st) then 0 else 1)))
  /\ ((101 # 100 <= noise_percentage (obj st))%Q ->
      nth 3 row 0%Q
      = spec_row_flipped (wrapped (classification_function_index (obj st)))
          row).
Proof.
  intros (a1 & a2 & a3 & g & st1 & Hfind & Hrow & Hst).
  destruct (find_instance_found fuel st _ _ _ _ _ Hfind)
    as (R1 & R2 & R3 & Hidx & Hg & Hobj & Hbal).
  pose proof (SeaSpec.noise_sum_range (np_random st1)) as [Hr0 Hr1].
  set (r := fst (rand (np_random st1))) in *.
  assert (Hnoise : noise_percentage (obj st1) = noise_percentage (obj st))
    by (rewrite Hobj; reflexivity).
  rewrite Hnoise in Hrow.
  set (idx := wrapped (classification_function_index (obj st))) in *.
  set (flip := Qle_bool (fadd one_percent r) (noise_percentage (obj st)))
    in *.
  subst row st'.
  cbn [obj set_obj set_current_instance get_last_instance current_instance_x
       current_instance_y next_class_should_be_zero nth firstn skipn].
  unfold spec_row_label, spec_row_flipped. cbn [nth].
  rewrite <- Hg.
  split; [|split; [|split; [|split; [|split; [|split]]]]].
  - exists a1, a2, a3. eexists. split; [reflexivity|].
    repeat split; try tauto.
    destruct (spec_label_binary idx a1 a2) as [Hl|Hl];
      rewrite <- Hg in Hl; rewrite Hl; destruct flip; cbn; auto.
  - rewrite Hobj. repeat split.
  - reflexivity.
  - exact Hidx.
  - destruct (balance_classes (obj st)); tauto.
  - intro Hq.
    assert (Hnf : flip = false).
    { subst flip. destruct (Qle_bool _ _) eqn:E; [|reflexivity].
      apply Qle_bool_iff in E. lra. }
    rewrite Hnf. split; [reflexivity|].
    intro Hb. rewrite Hb in Hbal. destruct Hbal as [Hw _].
    rewrite Hw. reflexivity.
  - intro Hq.
    assert (Hf : flip = true) by (subst flip; apply Qle_bool_iff; lra).
    rewrite Hf.
    destruct (spec_label_binary idx a1 a2) as [Hl|Hl];
      rewrite <- Hg in Hl; rewrite Hl; reflexivity.
Qed.


Lemma same_setup_refl (a : SEAGenerator) : same_setup a a.
Proof. repeat split. Qed.

Lemma same_setup_trans (a b c : SEAGenerator) :
  same_setup a b -> same_setup b c -> same_setup a c.
Proof.
  intros ((H1 & H2 & H3 & H4) & H5 & H6) ((K1 & K2 & K3 & K4) & K5 & K6).
  repeat split; congruence.
Qed.

(** The rows of successive passes are rows of the array, and the passes
    leave the setup alone. *)
Lemma steps_rows (fuel : nat) (st : Store) (rows : list (list Q))
    (st' : Store) :
  sample_steps fuel st rows st' ->
  Forall data_row rows /\ same_setup (obj st) (obj st').
Proof.
  induction 1 as [st|st st1 st' row rows Hstep Hrest [IHrows IHsetup]].
  - split; [constructor | apply same_setup_refl].
  - destruct (sample_step_facts _ _ _ _ Hstep) as (Hrow & Hsetup & _).
    split; [constructor; assumption|].
    apply same_setup_trans with (b := obj st1); assumption.
Qed.

(** The last instance is the last row written. *)
Lemma steps_last (fuel : nat) (st : Store) (rows : list (list Q))
    (st' : Store) :
  sample_steps fuel st rows st' ->
  rows <> [] ->
  get_last_instance (obj st')
  = (Some (firstn 3 (last rows [])), Some (skipn 3 (last rows []))).
Proof.
  induction 1 as [st|st st1 st' row rows Hstep Hrest IH]; [congruence|].
  intros _. destruct rows as [|row' rows].
  - inversion Hrest; subst.
    destruct (sample_step_facts _ _ _ _ Hstep) as (_ & _ & Hlast & _).
    exact Hlast.
  - change (last (row :: row' :: rows) []) with (last (row' :: rows) []).
    apply IH. discriminate.
Qed.

(** The labels of successive passes when no draw can flip one. *)
Lemma steps_quiet (fuel : nat) (st : Store) (rows : list (list Q))
    (st' : Store) :
  sample_steps fuel st rows st' ->
  (noise_percentage (obj st) < one_percent)%Q ->
  map (fun row => nth 3 row 0%Q) rows
  = map (spec_row_label (wrapped (classification_function_index (obj st))))
      rows
  /\ (balance_classes (obj st) = true ->
      map (fun row => nth 3 row 0%Q) rows
      = alternating (next_class_should_be_zero (obj st)) (List.length rows)
      /\ next_class_should_be_zero (obj st')
         = (if Nat.odd (List.length rows)
            then negb (next_class_should_be_zero (obj st))
            else next_class_should_be_zero (obj st))).
Proof.
  induction 1 as [st|st st1 st' row rows Hstep Hrest IH]; intro Hq.
  - split; [reflexivity|]. intros _. split; reflexivity.
  - destruct (sample_step_facts _ _ _ _ Hstep)
      as (_ & ((Hi & _ & Hb & Hn) & _) & _ & _ & Hz & Hquiet & _).
    destruct (Hquiet Hq) as [Hlabel Hwanted].
    rewrite <- Hn in IH. destruct (IH Hq) as [IHl IHb].
    rewrite <- Hi in IHl.
    split; [cbn [map]; rewrite Hlabel, IHl; reflexivity|].
    intro Hbal. rewrite <- Hb in IHb. destruct (IHb Hbal) as [IHa IHz].
    rewrite Hbal in Hz. rewrite Hz in IHa, IHz.
    cbn [map List.length alternating]. rewrite (Hwanted Hbal), IHa.
    split; [reflexivity|].
    rewrite IHz, Nat.odd_succ, <- Nat.negb_odd.
    destruct (Nat.odd (List.length rows)),
             (next_class_should_be_zero (obj st)); reflexivity.
Qed.

(** The labels of successive passes when every draw flips one. *)
Lemma steps_noisy (fuel : nat) (st : Store) (rows : list (list Q))
    (st' : Store) :
  sample_steps fuel st rows st' ->
  (101 # 100 <= noise_percentage (obj st))%Q ->
  map (fun row => nth 3 row 0%Q) rows
  = map (spec_row_flipped (wrapped (classification_function_index (obj st))))
      rows.
Proof.
  induction 1 as [st|st st1 st' row rows Hstep Hrest IH]; intro Hq;
    [reflexivity|].
  destruct (sample_step_facts _ _ _ _ Hstep)
    as (_ & ((Hi & _ & Hb & Hn) & _) & _ & _ & _ & _ & Hnoisy).
  rewrite <- Hn, <- Hi in IH.
  cbn [map]. rewrite (Hnoisy Hq), (IH Hq). reflexivity.
Qed.

(** The two slices of an array of rows. *)
Lemma labels_of_rows (rows : list (list Q)) :
  Forall data_row rows ->
  flat_map (skipn 3) rows = map (fun row => nth 3 row 0%Q) rows.
Proof.
  induction 1 as [|row rows (a & b & c & l & -> & _) _ IH]; [reflexivity|].
  change (flat_map (skipn 3) ([a; b; c; l] :: rows))
    with (l :: flat_map (skipn 3) rows).
  rewrite IH. reflexivity.
Qed.

Lemma features_of_rows (f : list Q -> Q) (rows : list (list Q)) :
  (forall row, f (firstn 3 row) = f row) ->
  map f (map (firstn 3) rows) = map f rows.
Proof.
  intro Hf. rewrite map_map. apply map_ext. exact Hf.
Qed.

Lemma spec_row_label_features (index : Z) (row : list Q) :
  spec_row_label index (firstn 3 row) = spec_row_label index row.
Proof.
  destruct row as [|a [|b [|c row]]]; reflexivity.
Qed.

Lemma spec_row_flipped_features (index : Z) (row : list Q) :
  spec_row_flipped index (firstn 3 row) = spec_row_flipped index row.
Proof.
  destruct row as [|a [|b [|c row]]]; reflexivity.
Qed.


Lemma data_row_features (row : list Q) :
  data_row row ->
  List.length (firstn 3 row) = 3%nat
  /\ Forall (fun a => (0 <= a)%Q /\ (a < 10)%Q) (firstn 3 row)
  /\ (nth 3 row 0%Q = inject_Z 0 \/ nth 3 row 0%Q = inject_Z 1)
  /\ skipn 3 row = [nth 3 row 0%Q].
Proof.
  intros (a & b & c & l & -> & Ha & Hb & Hc & Hl). cbn.
  repeat split; auto.
Qed.

Lemma last_map {A B} (f : A -> B) (l : list A) (d : A) (d' : B) :
  l <> [] -> last (map f l) d' = f (last l d).
Proof.
  induction l as [|x [|x' l] IH]; intro Hne; [congruence|reflexivity|].
  change (last (map f (x :: x' :: l)) d') with (last (map f (x' :: l)) d').
  change (last (x :: x' :: l) d) with (last (x' :: l) d).
  apply IH. discriminate.
Qed.

(** X1.  Whatever the options of the generator, a call
    [next_instance(n)] that returns gives [n] rows and [n] labels; every
    row has [get_num_attributes()] features, each in [0, 10), and every
    label is one of [get_classes()]. *)
Theorem next_instance_shape (fuel : nat) (n : Z) (st : Store)
    (X : list (list Q)) (y : list Q) (st' : Store) :
  next_instance fuel n st = (Ok (X, y), st') ->
  Z.of_nat (List.length X) = n
  /\ List.length y = List.length X
  /\ Forall (fun row =>
              Z.of_nat (List.length row) = get_num_attributes (obj st)
              /\ Forall (fun a => (0 <= a)%Q /\ (a < 10)%Q) row) X
  /\ Forall (fun l => In l (map inject_Z (get_classes (obj st)))) y.
Proof.
  intro Hrun.
  destruct (next_instance_steps _ _ _ _ _ _ Hrun)
    as (Hn & rows & -> & -> & Hlen & Hsteps).
  destruct (steps_rows _ _ _ _ Hsteps) as [Hrows _].
  rewrite (labels_of_rows rows Hrows), !length_map.
  split; [lia|]. split; [reflexivity|]. split.
  - apply Forall_map. eapply Forall_impl; [|exact Hrows].
    intros row Hrow.
    destruct (data_row_features row Hrow) as (H3 & Hf & _).
    rewrite H3. split; [reflexivity | exact Hf].
  - apply Forall_map. eapply Forall_impl; [|exact Hrows].
    intros row Hrow.
    change (get_classes (obj st)) with [0; 1].
    destruct (data_row_features row Hrow) as (_ & _ & [Hl|Hl] & _);
      rewrite Hl; [left | right; left]; reflexivity.
Qed.

(** X2.  With [balance_classes = True] and a noise below the double
    0.01 the labels of a batch alternate, starting with 1 on a fresh
    generator (0 when [next_class_should_be_zero] is set); each label is
    the threshold label of its row, the threshold being compared with
    the sum of the first two features as a double; and the flag is
    inverted by a batch of odd size and left as it was by one of even
    size, so the alternation goes on across batches. *)
Theorem next_instance_balanced (fuel : nat) (n : Z) (st : Store)
    (X : list (list Q)) (y : list Q) (st' : Store) :
  balance_classes (obj st) = true ->
  (noise_percentage (obj st) < one_percent)%Q ->
  next_instance fuel n st = (Ok (X, y), st') ->
  y = alternating (next_class_should_be_zero (obj st)) (Z.to_nat n)
  /\ y = map (spec_row_label
                (wrapped (classification_function_index (obj st)))) X
  /\ next_class_should_be_zero (obj st')
     = (if Nat.odd (Z.to_nat n)
        then negb (next_class_should_be_zero (obj st))
        else next_class_should_be_zero (obj st)).
Proof.
  intros Hbal Hq Hrun.
  destruct (next_instance_steps _ _ _ _ _ _ Hrun)
    as (Hn & rows & -> & -> & Hlen & Hsteps).
  destruct (steps_rows _ _ _ _ Hsteps) as [Hrows _].
  destruct (steps_quiet _ _ _ _ Hsteps Hq) as [Hlabel Halt].
  destruct (Halt Hbal) as [Ha Hz].
  rewrite (labels_of_rows rows Hrows).
  rewrite (features_of_rows _ rows (spec_row_label_features _)).
  rewrite Hlen in Ha, Hz.
  split; [exact Ha|]. split; [exact Hlabel | exact Hz].
Qed.

(** A batch drawn with a noise of 1.01 or more. *)
Lemma next_instance_noisy (fuel : nat) (n : Z) (st : Store)
    (X : list (list Q)) (y : list Q) (st' : Store) :
  next_instance fuel n st = (Ok (X, y), st') ->
  (101 # 100 <= noise_percentage (obj st))%Q ->
  y = map (spec_row_flipped
             (wrapped (classification_function_index (obj st)))) X.
Proof.
  intros Hrun Hq.
  destruct (next_instance_steps _ _ _ _ _ _ Hrun)
    as (Hn & rows & -> & -> & Hlen & Hsteps).
  destruct (steps_rows _ _ _ _ Hsteps) as [Hrows _].
  rewrite (labels_of_rows rows Hrows).
  rewrite (features_of_rows _ rows (spec_row_flipped_features _)).
  apply (steps_noisy _ _ _ _ Hsteps Hq).
Qed.

(** X3.  [noise_percentage] is compared with [0.01 + rand()], a double
    from the double 0.01 up to one below 1.01: below 0.01 no label is
    ever flipped, and from 1.01 on every label is flipped, with or
    without class balancing.  Not flipped, a label is the threshold
    label of its row, on the sum of the first two features as a double;
    flipped, it is the other one. *)
Theorem next_instance_noise_extremes (fuel : nat) (n : Z) (st : Store)
    (X : list (list Q)) (y : list Q) (st' : Store) :
  next_instance fuel n st = (Ok (X, y), st') ->
  ((noise_percentage (obj st) < one_percent)%Q ->
   y = map (spec_row_label
              (wrapped (classification_function_index (obj st)))) X)
  /\ ((101 # 100 <= noise_percentage (obj st))%Q ->
      y = map (spec_row_flipped
                 (wrapped (classification_function_index (obj st)))) X).
Proof.
  intro Hrun.
  destruct (next_instance_steps _ _ _ _ _ _ Hrun)
    as (Hn & rows & -> & -> & Hlen & Hsteps).
  destruct (steps_rows _ _ _ _ Hsteps) as [Hrows _].
  rewrite (labels_of_rows rows Hrows).
  rewrite (features_of_rows _ rows (spec_row_label_features _)).
  rewrite (features_of_rows _ rows (spec_row_flipped_features _)).
  split; intro Hq.
  - apply (steps_quiet _ _ _ _ Hsteps Hq).
  - apply (steps_noisy _ _ _ _ Hsteps Hq).
Qed.

(** X4.  A call for no sample, [next_instance(0)], returns two empty
    arrays and changes neither the generator nor the random state,
    whatever the options.  After a call that returned at least one
    sample, [get_last_instance()] is the last row of the batch and its
    label. *)
Theorem next_instance_last_instance (fuel : nat) (n : Z) (st : Store) :
  next_instance fuel 0 st = (Ok ([], []), st)
  /\ forall (X : list (list Q)) (y : list Q) (st' : Store),
       next_instance fuel n st = (Ok (X, y), st') ->
       1 <= n ->
       get_last_instance (obj st') = (Some (last X []), Some [last y 0%Q]).
Proof.
  split; [reflexivity|].
  intros X y st' Hrun H1.
  destruct (next_instance_steps _ _ _ _ _ _ Hrun)
    as (Hn & rows & -> & -> & Hlen & Hsteps).
  destruct (steps_rows _ _ _ _ Hsteps) as [Hrows _].
  assert (Hne : rows <> [])
    by (destruct rows; [cbn in Hlen; lia|discriminate]).
  rewrite (steps_last _ _ _ _ Hsteps Hne).
  rewrite (labels_of_rows rows Hrows).
  rewrite (last_map (firstn 3) rows [] [] Hne).
  rewrite (last_map (fun row => nth 3 row 0%Q) rows [] 0%Q Hne).
  assert (Hlast : data_row (last rows [])).
  { rewrite Forall_forall in Hrows. apply Hrows.
    destruct (exists_last Hne) as (l & x & ->).
    rewrite last_last. apply in_or_app. right. left. reflexivity. }
  destruct (data_row_features _ Hlast) as (_ & _ & _ & ->). reflexivity.
Qed.


(** Passes run the batch loop: the converse of [fill_rows_steps]. *)
Lemma steps_fill_rows (fuel : nat) (st : Store) (rows : list (list Q))
    (st' : Store) :
  sample_steps fuel st rows st' ->
  forall done rest,
  (List.length rows <= List.length rest)%nat ->
  fill_rows fuel (List.length rows) (List.length done) (done ++ rest) st
  = (Ok (done ++ rows ++ skipn (List.length rows) rest), st').
Proof.
  induction 1 as [st|st st1 st' row rows Hstep Hrest IH];
    intros done rest Hlen.
  - reflexivity.
  - destruct rest as [|old rest]; [cbn in Hlen; lia|].
    destruct Hstep as (a1 & a2 & a3 & g & st0 & Hfind & Hrow & Hst).
    cbn [List.length fill_rows]. unfold bind at 1. rewrite Hfind.
    unfold bind at 1. unfold draw at 1.
    destruct (rand (np_random st0)) as [r s'] eqn:Hrand.
    cbn [fst snd] in Hrow, Hst.
    unfold bind at 1. unfold attr at 1. cbn [obj].
    rewrite SeaSpec.set_row_middle, SeaSpec.nth_middle_row.
    unfold bind at 1. unfold update at 1, modify at 1.
    rewrite <- Hrow.
    change (Z.to_nat num_numerical_attributes) with 3%nat.
    rewrite <- Hst.
    replace (done ++ row :: rest) with ((done ++ [row]) ++ rest)
      by (rewrite <- app_assoc; reflexivity).
    replace (S (List.length done)) with (List.length (done ++ [row]))
      by (rewrite length_app; cbn; lia).
    rewrite IH by (cbn in Hlen; lia).
    rewrite <- app_assoc. reflexivity.
Qed.

Lemma steps_next_instance (fuel : nat) (st : Store) (rows : list (list Q))
    (st' : Store) :
  sample_steps fuel st rows st' ->
  next_instance fuel (Z.of_nat (List.length rows)) st
  = (Ok (map (firstn 3) rows, flat_map (skipn 3) rows), st').
Proof.
  intro Hsteps. unfold next_instance.
  replace (Z.of_nat (List.length rows) <? 0) with false
    by (symmetry; apply Z.ltb_ge; lia).
  rewrite Nat2Z.id. unfold bind.
  pose proof (steps_fill_rows _ _ _ _ Hsteps []
                (zeros (List.length rows)
                   (Z.to_nat (num_numerical_attributes + 1)))) as Hfill.
  cbn [List.length app] in Hfill. rewrite Hfill;
    [|unfold zeros; rewrite repeat_length; lia].
  rewrite skipn_all2 by (unfold zeros; rewrite repeat_length; lia).
  rewrite app_nil_r. reflexivity.
Qed.

Lemma steps_app (fuel : nat) (st st1 st2 : Store)
    (rows1 rows2 : list (list Q)) :
  sample_steps fuel st rows1 st1 ->
  sample_steps fuel st1 rows2 st2 ->
  sample_steps fuel st (rows1 ++ rows2) st2.
Proof.
  induction 1 as [st|st sta st1 row rows Hstep Hrest IH]; intro H2;
    [exact H2|].
  cbn [app]. eapply steps_next; [exact Hstep | apply IH; exact H2].
Qed.

(** X5.  Batches compose: a batch of [m] followed by a batch of [n] is
    the batch of [m + n], sample for sample, and leaves the generator in
    the same state. *)
Theorem next_instance_batches_compose (fuel : nat) (m n : Z)
    (st st1 st2 : Store) (X1 X2 : list (list Q)) (y1 y2 : list Q) :
  next_instance fuel m st = (Ok (X1, y1), st1) ->
  next_instance fuel n st1 = (Ok (X2, y2), st2) ->
  next_instance fuel (m + n) st = (Ok (X1 ++ X2, y1 ++ y2), st2).
Proof.
  intros H1 H2.
  destruct (next_instance_steps _ _ _ _ _ _ H1)
    as (Hm & rows1 & -> & -> & Hl1 & Hs1).
  destruct (next_instance_steps _ _ _ _ _ _ H2)
    as (Hn & rows2 & -> & -> & Hl2 & Hs2).
  pose proof (steps_next_instance _ _ _ _ (steps_app _ _ _ _ _ _ Hs1 Hs2))
    as Hrun.
  rewrite length_app, Hl1, Hl2, Nat2Z.inj_add, !Z2Nat.id in Hrun by lia.
  rewrite Hrun, map_app, flat_map_app. reflexivity.
Qed.

(** *** Nothing in [next_instance] writes the setup *)

Lemma keeps_ret {A} (x : A) : keeps_setup (ret x).
Proof. intro st. apply same_setup_refl. Qed.

Lemma keeps_raise {A} (e : exn) : keeps_setup (@raise Store A e).
Proof. intro st. apply same_setup_refl. Qed.

Lemma keeps_out_of_fuel {A} : keeps_setup (@out_of_fuel Store A).
Proof. intro st. apply same_setup_refl. Qed.

Lemma keeps_lift_outcome {A} (o : outcome A) : keeps_setup (lift_outcome o).
Proof. intro st. apply same_setup_refl. Qed.

Lemma keeps_draw : keeps_setup draw.
Proof.
  intro st. unfold draw. destruct (rand (np_random st)).
  apply same_setup_refl.
Qed.

Lemma keeps_attr {A} (field : SEAGenerator -> A) : keeps_setup (attr field).
Proof. intro st. apply same_setup_refl. Qed.

Lemma keeps_bind {A B} (m : M Store A) (k : A -> M Store B) :
  keeps_setup m -> (forall x, keeps_setup (k x)) -> keeps_setup (bind m k).
Proof.
  intros Hm Hk st. unfold bind. specialize (Hm st).
  destruct (m st) as [[x|e|] st1]; cbn [snd] in *; try exact Hm.
  eapply same_setup_trans; [exact Hm | apply Hk].
Qed.

Lemma keeps_set_next_class (z : bool) :
  keeps_setup (update (set_next_class_should_be_zero z)).
Proof. intro st. repeat split. Qed.

Lemma keeps_set_current (x y : list Q) :
  keeps_setup (update (set_current_instance x y)).
Proof. intro st. repeat split. Qed.

Lemma keeps_find_instance (fuel : nat) : keeps_setup (find_instance fuel).
Proof.
  induction fuel as [|fuel IH]; cbn [find_instance].
  - apply keeps_out_of_fuel.
  - repeat (apply keeps_bind; [apply keeps_draw | intro]).
    apply keeps_bind; [apply keeps_attr | intro index].
    apply keeps_bind; [apply keeps_lift_outcome | intro f].
    apply keeps_bind; [apply keeps_attr | intros [|]]; cbn [negb];
      [|apply keeps_ret].
    apply keeps_bind; [apply keeps_attr | intro z].
    destruct (_ || _); [|exact IH].
    apply keeps_bind; [apply keeps_set_next_class | intro; apply keeps_ret].
Qed.

Lemma keeps_fill_rows (fuel n : nat) :
  forall j data, keeps_setup (fill_rows fuel n j data).
Proof.
  induction n as [|n IH]; intros j data; cbn [fill_rows].
  - apply keeps_ret.
  - apply keeps_bind; [apply keeps_find_instance|].
    intros [[[att1 att2] att3] group].
    apply keeps_bind; [apply keeps_draw | intro r].
    apply keeps_bind; [apply keeps_attr | intro noise].
    apply keeps_bind; [apply keeps_set_current | intro; apply IH].
Qed.

Lemma keeps_next_instance (fuel : nat) (n : Z) :
  keeps_setup (next_instance fuel n).
Proof.
  unfold next_instance. destruct (n <? 0); [apply keeps_raise|].
  apply keeps_bind; [apply keeps_fill_rows | intro; apply keeps_ret].
Qed.

(** No sequence of calls writes the setup, whatever each call comes
    to. *)
Lemma after_calls_keeps_setup (fuel : nat) (sizes : list Z) (st : Store) :
  same_setup (obj st) (obj (after_calls fuel sizes st)).
Proof.
  revert st; induction sizes as [|n sizes IH]; intro st; cbn [after_calls].
  - apply same_setup_refl.
  - eapply same_setup_trans; [apply keeps_next_instance | apply IH].
Qed.

(** X6.  The headers and the options that the constructor stores are
    still there after [prepare_for_use()] and any sequence of
    [next_instance] calls, whether they returned or raised: three
    attribute names, as many as [get_num_attributes()], one class
    header, and as many classes as [get_num_targets()]. *)
Theorem headers_survive_sampling (classification_function seed0 : Z)
    (balance : bool) (noise : Q) (st0 : Store) (fuel : nat)
    (sizes : list Z) :
  let st := after_calls fuel sizes
              (prepare_for_use
                 (__configure classification_function seed0 balance noise
                    st0)) in
  get_attributes_header (obj st)
  = ["NumAtt0"%string; "NumAtt1"%string; "NumAtt2"%string]
  /\ Z.of_nat (List.length (get_attributes_header (obj st)))
     = get_num_attributes (obj st)
  /\ get_classes_header (obj st) = ["class"%string]
  /\ Z.of_nat (List.length (get_classes (obj st))) = get_num_targets (obj st)
  /\ classification_function_index (obj st) = classification_function
  /\ instance_seed (obj st) = seed0
  /\ balance_classes (obj st) = balance
  /\ noise_percentage (obj st) = noise.
Proof.
  intro st.
  destruct (after_calls_keeps_setup fuel sizes
              (prepare_for_use
                 (__configure classification_function seed0 balance noise
                    st0)))
    as ((Hi & Hs & Hb & Hn) & Hc & Ha).
  fold st in Hi, Hs, Hb, Hn, Hc, Ha.
  unfold get_attributes_header, get_classes_header.
  rewrite <- Ha, <- Hc, <- Hi, <- Hs, <- Hb, <- Hn.
  repeat split.
Qed.

(** X7.  [restart()] makes the generator replay its samples however much
    it has been used: after any calls, restarting gives the outcomes
    that restarting the unused generator gives. *)
Theorem restart_replays_after_use (fuel fuel' : nat) (used sizes : list Z)
    (st : Store) :
  outputs fuel sizes (restart (after_calls fuel' used st))
  = outputs fuel sizes (restart st).
Proof.
  apply SeaSpec.outputs_same_source.
  destruct (after_calls_keeps_setup fuel' used st)
    as ((Hi & Hs & Hb & Hn) & _).
  unfold same_source, restart, reseed. cbn. rewrite Hs. auto.
Qed.

(** *** An index below zero *)

Lemma respects_function_ret {A} (x : A) : respects_function (ret x).
Proof. intros a b H; split; [reflexivity | exact H]. Qed.

Lemma respects_function_bind {A B} (m : M Store A) (k : A -> M Store B) :
  respects_function m -> (forall x, respects_function (k x)) ->
  respects_function (bind m k).
Proof.
  intros Hm Hk a b H. unfold bind.
  destruct (Hm a b H) as [Ho Hs].
  destruct (m a) as [oa sa], (m b) as [ob sb]. cbn [fst snd] in *. subst ob.
  destruct oa as [x| |]; [apply Hk; exact Hs | split; auto | split; auto].
Qed.

Lemma respects_function_draw : respects_function draw.
Proof.
  intros a b (Hnp & Hrest). unfold draw. rewrite Hnp.
  destruct (rand (np_random b)) as [r s']. cbn [fst snd].
  split; [reflexivity|]. split; [reflexivity | exact Hrest].
Qed.

Lemma respects_function_attr {A} (field : SEAGenerator -> A) :
  (forall a b, same_function a b -> field (obj a) = field (obj b)) ->
  respects_function (attr field).
Proof.
  intros Hf a b H. unfold attr. cbn [fst snd].
  split; [f_equal; apply Hf; exact H | exact H].
Qed.

(** Reading the index and looking the function up, taken together. *)
Lemma respects_function_lookup {B} (k : (Q -> Q -> Q -> Z) -> M Store B) :
  (forall f, respects_function (k f)) ->
  respects_function
    (bind (attr classification_function_index)
       (fun index =>
          bind (lift_outcome (getitem classification_functions index)) k)).
Proof.
  intros Hk a b H. unfold bind, attr, lift_outcome.
  pose proof H as (_ & Hget & _). rewrite Hget.
  destruct (getitem classification_functions
              (classification_function_index (obj b))) as [f|e|].
  - apply Hk. exact H.
  - split; [reflexivity | exact H].
  - split; [reflexivity | exact H].
Qed.

Lemma respects_function_update (f : SEAGenerator -> SEAGenerator) :
  (forall a b, same_function a b ->
               same_function (set_obj f a) (set_obj f b)) ->
  respects_function (update f).
Proof.
  intros Hf a b H. unfold update, modify. cbn [fst snd].
  split; [reflexivity | apply Hf; exact H].
Qed.

Lemma respects_function_find_instance (fuel : nat) :
  respects_function (find_instance fuel).
Proof.
  induction fuel as [|fuel IH]; cbn [find_instance].
  - intros a b H; split; [reflexivity | exact H].
  - repeat (apply respects_function_bind;
            [apply respects_function_draw | intro]).
    apply respects_function_lookup. intro f.
    apply respects_function_bind.
    { apply respects_function_attr. intros a b H; apply H. }
    intros [|]; cbn [negb]; [|apply respects_function_ret].
    apply respects_function_bind.
    { apply respects_function_attr. intros a b H; apply H. }
    intro z. destruct (_ || _); [|exact IH].
    apply respects_function_bind; [|intro; apply respects_function_ret].
    apply respects_function_update.
    intros a b (H1 & H2 & H3 & H4 & H5). repeat split; assumption.
Qed.

Lemma respects_function_fill_rows (fuel n : nat) :
  forall j data, respects_function (fill_rows fuel n j data).
Proof.
  induction n as [|n IH]; intros j data; cbn [fill_rows].
  - apply respects_function_ret.
  - apply respects_function_bind; [apply respects_function_find_instance|].
    intros [[[att1 att2] att3] group].
    apply respects_function_bind; [apply respects_function_draw | intro r].
    apply respects_function_bind.
    { apply respects_function_attr. intros a b H; apply H. }
    intro noise. apply respects_function_bind; [|intro; apply IH].
    apply respects_function_update.
    intros a b (H1 & H2 & H3 & H4 & H5). repeat split; assumption.
Qed.

Lemma respects_function_next_instance (fuel : nat) (n : Z) :
  respects_function (next_instance fuel n).
Proof.
  unfold next_instance. destruct (n <? 0).
  - intros a b H; split; [reflexivity | exact H].
  - apply respects_function_bind;
      [apply respects_function_fill_rows
      | intro; apply respects_function_ret].
Qed.

Lemma getitem_wrapped (index : Z) :
  getitem classification_functions index
  = getitem classification_functions (wrapped index).
Proof.
  unfold wrapped.
  destruct ((-4 <=? index) && (index <? 0)) eqn:Hneg; [|reflexivity].
  apply andb_true_iff in Hneg as [Hlo Hhi].
  apply Z.leb_le in Hlo. apply Z.ltb_lt in Hhi.
  assert (index = -4 \/ index = -3 \/ index = -2 \/ index = -1)
    as [ -> | [ -> | [ -> | -> ] ] ] by lia; reflexivity.
Qed.

(** X8.  A classification function index of -4 to -1 is not refused:
    the list is indexed from its end, and the generator produces, call
    for call, what it produces with the index plus 4. *)
Theorem negative_index_counts_from_the_end (fuel : nat) (sizes : list Z)
    (st : Store) :
  (-4 <= classification_function_index (obj st) < 0 ->
   classification_function_index (obj (unwrapped st))
   = classification_function_index (obj st) + 4)
  /\ outputs fuel sizes st = outputs fuel sizes (unwrapped st).
Proof.
  split.
  - intro Hneg. unfold unwrapped, wrapped. cbn.
    replace (-4 <=? classification_function_index (obj st)) with true
      by (symmetry; apply Z.leb_le; lia).
    replace (classification_function_index (obj st) <? 0) with true
      by (symmetry; apply Z.ltb_lt; lia).
    reflexivity.
  - assert (H : same_function st (unwrapped st)).
    { unfold same_function, unwrapped. cbn.
      rewrite <- getitem_wrapped. auto. }
    revert H. generalize (unwrapped st) as st2. revert st.
    induction sizes as [|n sizes IH]; intros a b H; cbn [outputs];
      [reflexivity|].
    destruct (respects_function_next_instance fuel n a b H) as [Ho Hs].
    destruct (next_instance fuel n a) as [oa sa].
    destruct (next_instance fuel n b) as [ob sb]. cbn [fst snd] in *.
    rewrite Ho, (IH sa sb Hs). reflexivity.
Qed.

(** *** generate_drift *)

Lemma redraw_function_found (fuel : nat) :
  forall (new_function : Z) (st : Store) (chosen : Z) (st' : Store),
  (forall s, 0 <= fst (randint 4 s) < 4) ->
  0 <= new_function < 4 ->
  redraw_function fuel new_function st = (Ok chosen, st') ->
  chosen <> classification_function_index (obj st)
  /\ 0 <= chosen < 4
  /\ obj st' = obj st.
Proof.
  induction fuel as [|fuel IH]; intros new_function st chosen st' Hint Hnew
    Hrun; [discriminate|].
  cbn [redraw_function] in Hrun. unfold bind, attr, draw_int, ret in Hrun.
  destruct (new_function =? classification_function_index (obj st)) eqn:Heq.
  - pose proof (Hint (np_random st)) as Hr.
    destruct (randint 4 (np_random st)) as [r s']. cbn [fst] in Hr.
    apply IH in Hrun; auto.
  - apply Z.eqb_neq in Heq. injection Hrun as <- <-. auto.
Qed.

(** X9.  When [randint(4)] draws from 0 to 3, a [generate_drift()] that
    returns has changed the classification function index to another
    value, one of 0 to 3, and has changed nothing else of the generator;
    [restart()] keeps the new index. *)
Theorem generate_drift_changes_function (fuel : nat) (st st' : Store) :
  (forall s, 0 <= fst (randint 4 s) < 4) ->
  generate_drift fuel st = (Ok tt, st') ->
  classification_function_index (obj st')
    <> classification_function_index (obj st)
  /\ 0 <= classification_function_index (obj st') <= 3
  /\ obj st'
     = set_classification_function_index
         (classification_function_index (obj st')) (obj st)
  /\ classification_function_index (obj (restart st'))
     = classification_function_index (obj st').
Proof.
  intros Hint Hrun. unfold generate_drift in Hrun.
  unfold bind at 1 in Hrun. unfold draw_int at 1 in Hrun.
  pose proof (Hint (np_random st)) as Hr.
  destruct (randint 4 (np_random st)) as [r s']. cbn [fst] in Hr.
  unfold bind in Hrun.
  destruct (redraw_function fuel r _) as [[chosen|e|] st1] eqn:Hredraw;
    try discriminate.
  apply redraw_function_found in Hredraw; auto.
  destruct Hredraw as (Hne & Hc & Hobj). cbn [obj] in Hne, Hobj.
  unfold update, modify in Hrun. injection Hrun as <-.
  cbn. rewrite Hobj. repeat split; auto; lia.
Qed.

End Facts.
End SeaMore.

(** ** The exact course of a measurement *)

Module EvaluatorMore.
Import Evaluator EvaluatorSpec.

Section Loop.
Context {S : Type} {BS : BaseInstanceStream S}.
Variable clock : nat -> Q.
Variable self : EvaluateStreamGenerationSpeed.

Local Abbreviation Run := (@Run S).

Lemma percent_lines_none (a : Z) : percent_lines a a = [].
Proof. unfold percent_lines. rewrite Z.sub_diag. reflexivity. Qed.

Lemma percent_lines_first (a b : Z) :
  a < b ->
  percent_lines a b = Percent ((a + 1) * 5) :: percent_lines (a + 1) b.
Proof.
  intro Hlt. unfold percent_lines.
  replace (Z.to_nat (b - a)) with (Datatypes.S (Z.to_nat (b - (a + 1))))
    by lia.
  cbn [seq map]. f_equal.
  rewrite <- seq_shift, map_map. apply map_ext. intro i.
  f_equal. lia.
Qed.

(** The inner loop, exactly: it raises the index to the twentieths
    reached and logs one line for each index on the way. *)
Lemma log_progress_exact (m : nat) :
  forall (fuel : nat) (r : Run),
  0 < num_samples self ->
  true_percentage_index r
    <= 20 * (sample_count r + batch_size self) / num_samples self ->
  20 * (sample_count r + batch_size self) / num_samples self
    - true_percentage_index r <= Z.of_nat m ->
  (m < fuel)%nat ->
  log_progress fuel self r
  = (Ok tt,
     mkRun (stream r) (sample_count r)
       (20 * (sample_count r + batch_size self) / num_samples self)
       (timer_calls r) (history r)
       (rev (percent_lines (true_percentage_index r)
               (20 * (sample_count r + batch_size self) / num_samples self))
          ++ log r)).
Proof.
  set (q := fun r : Run =>
              20 * (sample_count r + batch_size self) / num_samples self).
  induction m as [|m IH]; intros fuel r Hns Hle Hm Hfuel;
    (destruct fuel as [|fuel]; [lia|]);
    cbn [log_progress]; unfold bind at 1; unfold get at 1;
    rewrite percentage_reached_exact;
    fold (q r) in Hle, Hm |- *;
    destruct (_ <=? _) eqn:Hreach.
  - apply Z.leb_le in Hreach.
    assert (true_percentage_index r + 1 <= q r)
      by (apply Z.div_le_lower_bound; lia).
    lia.
  - assert (Heq : q r = true_percentage_index r) by lia.
    rewrite Heq, percent_lines_none. unfold ret. destruct r; reflexivity.
  - apply Z.leb_le in Hreach.
    assert (Hnext : true_percentage_index r + 1 <= q r)
      by (apply Z.div_le_lower_bound; lia).
    unfold bind at 1. unfold next_percentage at 1, modify at 1.
    unfold bind at 1. unfold get at 1.
    unfold bind at 1. unfold info at 1, modify at 1.
    cbn [stream sample_count true_percentage_index timer_calls history log].
    rewrite IH;
      cbn [stream sample_count true_percentage_index timer_calls history log];
      fold (q r); try lia.
    rewrite (percent_lines_first (true_percentage_index r) (q r)) by lia.
    cbn [rev]. rewrite <- app_assoc. reflexivity.
  - apply Z.leb_gt in Hreach.
    assert (Hlt : q r < true_percentage_index r + 1)
      by (apply Z.div_lt_upper_bound; lia).
    assert (Heq : q r = true_percentage_index r) by lia.
    rewrite Heq, percent_lines_none. unfold ret. destruct r; reflexivity.
Qed.


Lemma percent_lines_app (a b c : Z) :
  a <= b -> b <= c ->
  percent_lines a c = percent_lines a b ++ percent_lines b c.
Proof.
  intros Hab Hbc.
  remember (Z.to_nat (b - a)) as d eqn:Hd.
  revert a Hab Hd. induction d as [|d IH]; intros a Hab Hd.
  - assert (a = b) by lia. subst a. rewrite percent_lines_none. reflexivity.
  - rewrite (percent_lines_first a c), (percent_lines_first a b) by lia.
    cbn [app]. f_equal. apply IH; lia.
Qed.

Variable init_time : Q.
Variable stream_local_max : float.
Variable limit : Z.
Hypothesis budget_within_limit : forall t count,
  budget_left self init_time stream_local_max t count = true ->
  count + batch_size self <= limit.

(** The outer loop on a stream that delivers, exactly: where it stops,
    what it has asked, read and logged. *)
Lemma measure_loop_full (n : nat) :
  forall (fuel : nat) (r : Run),
  1 <= batch_size self ->
  0 <= sample_count r ->
  0 <= true_percentage_index r ->
  (0 < num_samples self ->
   true_percentage_index r <= percentage_index_at self (sample_count r)) ->
  limit - sample_count r < (Z.of_nat n + 1) * batch_size self ->
  delivers (batch_size self) n (stream r) = true ->
  (n + 43 <= fuel)%nat ->
  exists (k : nat) (r' : Run),
    measure_loop clock fuel self init_time stream_local_max r = (Ok tt, r')
    /\ (k <= n)%nat
    /\ sample_count r' = sample_count r + Z.of_nat k * batch_size self
    /\ stream r' = after_pulls (batch_size self) k (stream r)
    /\ timer_calls r' = (timer_calls r + k + 1)%nat
    /\ history r' = EvTimer :: iterated (batch_size self) k (history r)
    /\ true_percentage_index r'
       = (if Nat.eqb k 0 then true_percentage_index r
          else percentage_index_at self (sample_count r'))
    /\ log r'
       = rev (percent_lines (true_percentage_index r)
                (true_percentage_index r')) ++ log r
    /\ budget_left self init_time stream_local_max
         (clock (timer_calls r + k)) (sample_count r') = false.
Proof.
  induction n as [|n IH]; intros fuel r Hbs Hsc Htpi Hinv Hrem Hdel Hfuel;
    (destruct fuel as [|fuel]; [lia|]); rewrite measure_loop_step;
    destruct (budget_left _ _ _ _ _) eqn:Hbudget.
  - apply budget_within_limit in Hbudget. lia.
  - exists 0%nat, (ticked r).
    cbn [ticked sample_count timer_calls history iterated Nat.iter stream
         after_pulls true_percentage_index log Nat.eqb].
    rewrite percent_lines_none, Nat.add_0_r.
    repeat split; auto; lia.
  - pose proof (budget_within_limit _ _ Hbudget) as Hlim.
    pose proof (budget_within_num_samples self _ _ _ _ Hbudget) as Hcount.
    cbn [delivers] in Hdel.
    destruct (next_instance (batch_size self) (stream r)) as [[b|e|] s']
      eqn:Hpull; try discriminate.
    set (r2 := counted _ _).
    assert (Hns : 0 < num_samples self) by lia.
    assert (Hq2 : true_percentage_index r2
                  <= 20 * (sample_count r2 + batch_size self)
                     / num_samples self).
    { subst r2. cbn [counted pulled ticked sample_count
                       true_percentage_index].
      etransitivity; [apply (Hinv Hns)|]. unfold percentage_index_at.
      apply Z.div_le_mono; lia. }
    assert (Hq40 : 20 * (sample_count r2 + batch_size self)
                   / num_samples self <= 40).
    { subst r2. cbn [counted pulled ticked sample_count].
      apply Z.div_le_upper_bound; lia. }
    rewrite (log_progress_exact 40 fuel r2); try lia.
    2:{ subst r2. cbn [counted pulled ticked true_percentage_index] in *.
        lia. }
    set (r3 := mkRun _ _ _ _ _ _).
    destruct (IH fuel r3)
      as (k & r' & Hrun & Hk & Hsc' & Hst & Ht & Hh & Hidx & Hlog & Hstop);
      subst r3 r2;
      cbn [counted pulled ticked stream sample_count timer_calls history
           true_percentage_index log] in *; try lia.
    { intros _. unfold percentage_index_at. lia. }
    { exact Hdel. }
    exists (Datatypes.S k), r'. rewrite Hrun.
    rewrite iterated_shift in Hh.
    cbn [after_pulls Nat.eqb]. rewrite Hpull. cbn [snd].
    split; [reflexivity|]. split; [lia|]. split; [lia|].
    split; [exact Hst|]. split; [lia|]. split; [exact Hh|].
    assert (Hfinal : true_percentage_index r'
                     = percentage_index_at self (sample_count r')).
    { rewrite Hidx. destruct (Nat.eqb k 0) eqn:Hk0; [|reflexivity].
      apply Nat.eqb_eq in Hk0. subst k. unfold percentage_index_at.
      rewrite Hsc'. f_equal. lia. }
    split; [exact Hfinal|]. split.
    + rewrite Hlog, app_assoc, <- rev_app_distr. f_equal. f_equal.
      symmetry. apply percent_lines_app; [exact Hq2|].
      rewrite Hidx. destruct (Nat.eqb k 0); [lia|].
      unfold percentage_index_at. apply Z.div_le_mono; lia.
    + replace (timer_calls r + Datatypes.S k)%nat
        with (Datatypes.S (timer_calls r) + k)%nat by lia.
      exact Hstop.
  - exists 0%nat, (ticked r).
    cbn [ticked sample_count timer_calls history iterated Nat.iter stream
         after_pulls true_percentage_index log Nat.eqb].
    rewrite percent_lines_none, Nat.add_0_r.
    repeat split; auto; lia.
Qed.

End Loop.

Section Whole.
Context {S : Type} {BS : BaseInstanceStream S}.
Variable clock : nat -> Q.
Variable self : EvaluateStreamGenerationSpeed.

Local Abbreviation Run := (@Run S).

Lemma budget_within_sample_limit (s : S) (init_time t : Q) (count : Z) :
  budget_left self init_time (local_max s) t count = true ->
  count + batch_size self <= sample_limit self s.
Proof.
  unfold budget_left, local_max, sample_limit. intro H.
  apply andb_true_iff in H as [H Hs]. apply andb_true_iff in H as [_ Hn].
  apply Z.leb_le in Hn.
  destruct (estimated_remaining_instances s =? -1); [exact Hn|].
  cbn [le_float] in Hs. apply Qle_bool_iff in Hs.
  rewrite <- Zle_Qle in Hs. lia.
Qed.

Lemma budget_ends_at_sample_limit (s : S) (init_time t : Q) (count : Z) :
  le_float (t - init_time) (max_time self) = true ->
  budget_left self init_time (local_max s) t count = false ->
  sample_limit self s < count + batch_size self.
Proof.
  unfold budget_left, local_max, sample_limit. intros Ht H.
  rewrite Ht in H. cbn [andb] in H.
  apply andb_false_iff in H as [H|H].
  - apply Z.leb_gt in H.
    destruct (estimated_remaining_instances s =? -1); lia.
  - destruct (estimated_remaining_instances s =? -1); [discriminate|].
    cbn [le_float] in H.
    destruct (Z.le_gt_cases (count + batch_size self)
                (estimated_remaining_instances s)) as [Hle|Hgt]; [|lia].
    rewrite Zle_Qle in Hle. apply Qle_bool_iff in Hle. congruence.
Qed.

(** The loop of [eval] when the time check never fails and the stream
    delivers: the number of iterations is the quotient of the sample
    limit by the batch size. *)
Lemma eval_loop_exact (s : S) :
  1 <= batch_size self ->
  (forall j, le_float (clock j - clock 0) (max_time self) = true) ->
  delivers (batch_size self)
    (Z.to_nat (sample_limit self s / batch_size self)) s = true ->
  forall fuel : nat,
  (Z.to_nat (sample_limit self s / batch_size self) + 43 <= fuel)%nat ->
  exists r : Run,
    let n := Z.to_nat (sample_limit self s / batch_size self) in
    measure_loop clock fuel self (clock 0) (local_max s) (begun self s)
    = (Ok tt, r)
    /\ sample_count r = Z.of_nat n * batch_size self
    /\ stream r = after_pulls (batch_size self) n s
    /\ timer_calls r = (n + 2)%nat
    /\ history r = EvTimer :: iterated (batch_size self) n [EvTimer]
    /\ true_percentage_index r
       = (if Nat.eqb n 0 then 0
          else percentage_index_at self (sample_count r))
    /\ log r = rev (percent_lines 0 (true_percentage_index r))
                 ++ [Evaluating; MeasureSpeed (num_samples self)].
Proof.
  intros Hbs Htime Hdel fuel Hfuel.
  set (n := Z.to_nat (sample_limit self s / batch_size self)) in *.
  destruct (measure_loop_full clock self (clock 0) (local_max s)
              (sample_limit self s)
              (budget_within_sample_limit s (clock 0))
              n fuel (begun self s))
    as (k & r & Hrun & Hk & Hsc & Hst & Ht & Hh & Hidx & Hlog & Hstop);
    [ exact Hbs | cbn; lia | cbn; lia
    | intro Hns; cbn [begun sample_count true_percentage_index];
      unfold percentage_index_at; apply Z.div_pos; lia
    | apply quotient_bounds_iterations; exact Hbs
    | exact Hdel | exact Hfuel |].
  cbn [begun sample_count stream timer_calls history true_percentage_index
       log] in *.
  apply budget_ends_at_sample_limit in Hstop; [|apply Htime].
  assert (Hkn : k = n).
  { destruct (Nat.eq_dec k n) as [E|E]; [exact E|exfalso].
    assert (Hlt : (k < n)%nat) by lia.
    assert (Hpos : 0 < sample_limit self s / batch_size self)
      by (subst n; lia).
    pose proof (Z.mul_div_le (sample_limit self s) (batch_size self)
                  ltac:(lia)) as Hmul.
    assert (Z.of_nat n = sample_limit self s / batch_size self)
      by (subst n; lia).
    nia. }
  subst k. exists r. cbv zeta.
  rewrite Hrun. repeat split; auto; lia.
Qed.


(** The whole run when the time check never fails and the stream
    delivers. *)
Lemma eval_exact (s : S) :
  1 <= batch_size self ->
  (forall j, le_float (clock j - clock 0) (max_time self) = true) ->
  delivers (batch_size self)
    (Z.to_nat (sample_limit self s / batch_size self)) s = true ->
  forall fuel : nat,
  (Z.to_nat (sample_limit self s / batch_size self) + 43 <= fuel)%nat ->
  let n := Z.to_nat (sample_limit self s / batch_size self) in
  let run := eval clock fuel self s in
  finished (fst run) = true
  /\ sample_count (snd run)
     = batch_size self * Z.max 0 (sample_limit self s / batch_size self)
  /\ sample_limit self s < sample_count (snd run) + batch_size self
  /\ stream (snd run) = after_pulls (batch_size self) n s
  /\ events (snd run)
     = EvTimer :: iteration_events (batch_size self) n
         ++ [EvTimer; EvTimer].
Proof.
  intros Hbs Htime Hdel fuel Hfuel n run.
  destruct (eval_loop_exact s Hbs Htime Hdel fuel Hfuel)
    as (r & Hrun & Hsc & Hst & Ht & Hh & _).
  fold n in Hrun, Hsc, Hst, Ht, Hh.
  destruct (finish_facts clock r) as (Hf & Hfsc & Hfh & _).
  assert (Hfst : stream (snd (finish clock r)) = stream r)
    by (unfold finish; destruct (Qeq_bool _ 0); reflexivity).
  subst run. rewrite eval_unfold, Hrun, events_of_history, Hfh, Hh, Hfsc,
    Hfst, Hsc, Hst.
  cbn [rev]. rewrite rev_iterated. cbn [rev app].
  rewrite <- !app_assoc. cbn [app].
  repeat split; auto.
  - subst n. lia.
  - pose proof (quotient_bounds_iterations (sample_limit self s)
                  (batch_size self) Hbs) as Hq.
    fold n in Hq. lia.
Qed.


(** The progress test comes out the same on doubles as on exact numbers
    while the count and the batch size add up to [2^48] at most: the two
    are then doubles themselves, and a quotient by 20 above their sum is
    above it by a twentieth at least, more than its rounding moves
    it. *)
Lemma percentage_reached_in_doubles (r : Run) :
  0 <= sample_count r ->
  0 <= batch_size self ->
  sample_count r + batch_size self <= 2 ^ 48 ->
  percentage_reached_double self r = percentage_reached self r.
Proof.
  intros Hc Hb Hs. unfold percentage_reached_double, percentage_reached, fadd.
  set (K := (true_percentage_index r + 1) * num_samples self).
  set (c := sample_count r) in *. set (b := batch_size self) in *.
  rewrite (Rounding.round_integer c), (Rounding.round_integer b) by lia.
  rewrite (Rounding.round_comp (inject_Z c + inject_Z b) (inject_Z (c + b)))
    by (rewrite inject_Z_plus; reflexivity).
  rewrite (Rounding.round_integer (c + b)) by lia.
  apply eq_true_iff_eq. rewrite !Qle_bool_iff, <- inject_Z_plus.
  set (t := c + b) in *.
  assert (Ht0 : (0 <= inject_Z t)%Q) by (rewrite <- (Zle_Qle 0); lia).
  assert (Ht1 : (inject_Z t <= 281474976710656)%Q).
  { change 281474976710656%Q with (inject_Z (2 ^ 48)).
    rewrite <- Zle_Qle. lia. }
  assert (EK : (inject_Z K == 20 * (inject_Z K / 20))%Q) by field.
  set (q := (inject_Z K / 20)%Q) in *.
  split; intro H.
  - destruct (Qlt_le_dec (inject_Z t) q) as [Hlt|Hle]; [exfalso | exact Hle].
    assert (HZ : 20 * t + 1 <= K).
    { assert (E : (inject_Z (20 * t) < inject_Z K)%Q).
      { rewrite inject_Z_mult. change (inject_Z 20) with 20%Q. lra. }
      rewrite <- Zlt_Qlt in E. lia. }
    rewrite Zle_Qle, inject_Z_plus, inject_Z_mult in HZ.
    change (inject_Z 20) with 20%Q in HZ. change (inject_Z 1) with 1%Q in HZ.
    assert (Hx : (inject_Z t + (1 # 20) <= q)%Q) by lra.
    pose proof (Rounding.round_le _ _ Hx) as Hr.
    assert (Ha : (inject_Z t < round (inject_Z t + (1 # 20)))%Q).
    { apply Rounding.round_above; rewrite Rounding.pow2_minus_53; lra. }
    lra.
  - rewrite <- (Rounding.round_integer t) by lia.
    apply Rounding.round_le. exact H.
Qed.



End Whole.

Section Frame.
Context {S : Type} {BS : BaseInstanceStream S}.
Variable clock : nat -> Q.
Variable self : EvaluateStreamGenerationSpeed.

Local Abbreviation Run := (@Run S).

(** Whatever the fuel, the inner loop touches the index and the log
    only, logs progress lines only, and raises nothing. *)
Lemma log_progress_frame (fuel : nat) :
  forall (r : Run) (o : outcome unit) (r' : Run),
  log_progress fuel self r = (o, r') ->
  exists lines,
    stream r' = stream r
    /\ sample_count r' = sample_count r
    /\ timer_calls r' = timer_calls r
    /\ history r' = history r
    /\ log r' = lines ++ log r
    /\ forallb is_percent lines = true
    /\ forall e, o <> Raise e.
Proof.
  induction fuel as [|fuel IH]; intros r o r' Hrun.
  - cbn in Hrun. injection Hrun as <- <-. exists [].
    repeat split; auto. discriminate.
  - cbn [log_progress] in Hrun. unfold bind at 1 in Hrun.
    unfold get at 1 in Hrun.
    destruct (percentage_reached self r).
    + unfold bind at 1 in Hrun.
      unfold next_percentage at 1, modify at 1 in Hrun.
      unfold bind at 1 in Hrun. unfold get at 1 in Hrun.
      unfold bind at 1 in Hrun. unfold info at 1, modify at 1 in Hrun.
      cbn [stream sample_count true_percentage_index timer_calls history
           log] in Hrun.
      apply IH in Hrun as (lines & H1 & H2 & H3 & H4 & H5 & H6 & H7).
      cbn [stream sample_count true_percentage_index timer_calls history
           log] in *.
      exists (lines ++ [Percent ((true_percentage_index r + 1) * 5)]).
      rewrite <- app_assoc, forallb_app, H6.
      repeat split; auto.
    + injection Hrun as <- <-. exists [].
      repeat split; auto. discriminate.
Qed.

Lemma pulls_rev (l : list Event) : pulls (rev l) = pulls l.
Proof.
  induction l as [|e l IH]; [reflexivity|].
  cbn [rev]. rewrite pulls_app, IH. unfold pulls. cbn [filter].
  destruct e; cbn [List.length]; lia.
Qed.

Variable init_time : Q.
Variable stream_local_max : float.

(** The outer loop, whatever the fuel and the stream: the count follows
    the batches that came back, an exception is the one the next call
    of the stream raised, and only progress lines are logged. *)
Lemma measure_loop_frame (fuel : nat) :
  forall (r : Run) (o : outcome unit) (r' : Run),
  measure_loop clock fuel self init_time stream_local_max r = (o, r') ->
  exists (k : nat) (lines : list LogRecord),
    sample_count r' = sample_count r + Z.of_nat k * batch_size self
    /\ log r' = lines ++ log r
    /\ forallb is_percent lines = true
    /\ match o with
       | Ok _ =>
           stream r' = after_pulls (batch_size self) k (stream r)
           /\ history r' = EvTimer :: iterated (batch_size self) k (history r)
       | Raise e =>
           next_instance (batch_size self)
             (after_pulls (batch_size self) k (stream r))
           = (Raise e, stream r')
           /\ history r'
              = EvNextInstance (batch_size self) :: EvTimer
                  :: iterated (batch_size self) k (history r)
       | OutOfFuel => True
       end.
Proof.
  induction fuel as [|fuel IH]; intros r o r' Hrun.
  - cbn in Hrun. injection Hrun as <- <-. exists 0%nat, [].
    cbn. repeat split; auto; lia.
  - rewrite measure_loop_step in Hrun.
    destruct (budget_left _ _ _ _ _).
    2:{ injection Hrun as <- <-. exists 0%nat, [].
        cbn. repeat split; auto; lia. }
    destruct (next_instance (batch_size self) (stream r)) as [[b|e|] s']
      eqn:Hpull.
    + destruct (log_progress fuel self _) as [[u|e|] r2] eqn:Hlog;
        apply log_progress_frame in Hlog
          as (lines & H1 & H2 & H3 & H4 & H5 & H6 & H7);
        cbn [fst snd counted pulled ticked stream sample_count timer_calls
             history log] in *.
      * apply IH in Hrun
          as (k & lines' & Hsc & Hl & Hp & Ho).
        exists (Datatypes.S k), (lines' ++ lines).
        rewrite Hsc, Hl, H2, H5, <- app_assoc, forallb_app, Hp, H6.
        split; [lia|]. split; [reflexivity|]. split; [reflexivity|].
        cbn [after_pulls]. rewrite Hpull. cbn [snd].
        rewrite H1, H4, iterated_shift in Ho. exact Ho.
      * exfalso. apply (H7 e). reflexivity.
      * injection Hrun as <- <-. exists 1%nat, lines.
        rewrite H2, H5. repeat split; auto; lia.
    + injection Hrun as <- <-. exists 0%nat, [].
      cbn [pulled ticked stream sample_count timer_calls history log
           after_pulls iterated Nat.iter app forallb].
      repeat split; auto; lia.
    + injection Hrun as <- <-. exists 0%nat, [].
      cbn. repeat split; auto; lia.
Qed.

Variable deadline : nat.
Hypothesis time_is_up : forall j, (deadline <= j)%nat ->
  le_float (clock j - init_time) (max_time self) = false.

(** Once the time is up at every later reading of the timer, the loop
    makes no further call of the stream. *)
Lemma measure_loop_deadline (fuel : nat) :
  forall r : Run,
  (pulls (history (snd (measure_loop clock fuel self init_time
                          stream_local_max r)))
   <= pulls (history r) + (deadline - timer_calls r))%nat.
Proof.
  induction fuel as [|fuel IH]; intro r; [cbn; lia|].
  rewrite measure_loop_step.
  destruct (budget_left _ _ _ _ _) eqn:Hbudget.
  2:{ cbn [snd ticked history]. unfold pulls. cbn [filter]. lia. }
  assert (Hlt : (timer_calls r < deadline)%nat).
  { destruct (Nat.lt_ge_cases (timer_calls r) deadline) as [H|H];
      [exact H|].
    unfold budget_left in Hbudget. rewrite (time_is_up _ H) in Hbudget.
    discriminate. }
  assert (Hone : forall h, pulls (EvNextInstance (batch_size self)
                                    :: EvTimer :: h)
                           = Datatypes.S (pulls h)) by reflexivity.
  destruct (next_instance (batch_size self) (stream r)) as [[b|e|] s'].
  - destruct (log_progress fuel self _) as [[u|e|] r2] eqn:Hlog;
      apply log_progress_frame in Hlog as (lines & H1 & H2 & H3 & H4 & _);
      cbn [fst snd counted pulled ticked stream sample_count timer_calls
           history log] in *.
    + specialize (IH r2). rewrite H3, H4, Hone in IH. lia.
    + rewrite H4, Hone. lia.
    + rewrite H4, Hone. lia.
  - cbn [snd pulled ticked history]. rewrite Hone. lia.
  - cbn [snd pulled ticked history]. rewrite Hone. lia.
Qed.

End Frame.

Section Outcomes.
Context {S : Type} {BS : BaseInstanceStream S}.
Variable clock : nat -> Q.
Variable self : EvaluateStreamGenerationSpeed.

(** An elapsed time that is over the budget by more than its rounding
    fails the time test, on exact numbers and on doubles. *)
Lemma over_time_fails (init_time t : Q) :
  over_time self (t - init_time) ->
  le_float (t - init_time) (max_time self) = false
  /\ time_left_double self init_time t = false.
Proof.
  unfold over_time, time_left_double.
  destruct (max_time self) as [m|]; [|contradiction].
  intros [Hlo Hhi]. cbn [le_float].
  pose proof (Rounding.round_above _ _ Hlo Hhi) as Hr.
  rewrite Rounding.pow2_minus_53 in Hlo, Hhi.
  split.
  - destruct (Qle_bool (t - init_time) m) eqn:E; [|reflexivity].
    apply Qle_bool_iff in E. lra.
  - destruct (Qle_bool (round (t - init_time)) m) eqn:E; [|reflexivity].
    apply Qle_bool_iff in E. lra.
Qed.

(** X13.  The time budget bounds the calls: if from the reading number
    [deadline] on (the first reading being number 0) the elapsed time
    exceeds [max_time] by more than one part in [2^53] of itself, so
    that the difference the source computes in doubles exceeds it as
    the exact one does, [eval] calls [next_instance] at most
    [deadline - 1] times, and not at all when [deadline] is 0, whatever
    the stream does and whatever the run comes to. *)
Theorem time_budget_bounds_the_calls (deadline : nat) (fuel : nat) (s : S) :
  (forall j, (deadline <= j)%nat -> over_time self (clock j - clock 0)) ->
  (pulls (events (snd (eval clock fuel self s))) <= deadline - 1)%nat
  /\ (forall j, (deadline <= j)%nat ->
        le_float (clock j - clock 0) (max_time self) = false
        /\ time_left_double self (clock 0) (clock j) = false).
Proof.
  intro Hover.
  assert (Hboth : forall j, (deadline <= j)%nat ->
            le_float (clock j - clock 0) (max_time self) = false
            /\ time_left_double self (clock 0) (clock j) = false)
    by (intros j Hj; apply over_time_fails, Hover, Hj).
  split; [|exact Hboth].
  assert (Hup : forall j, (deadline <= j)%nat ->
            le_float (clock j - clock 0) (max_time self) = false)
    by (intros j Hj; apply Hboth, Hj).
  pose proof (measure_loop_deadline clock self (clock 0) (local_max s)
                deadline Hup fuel (begun self s)) as Hp.
  rewrite events_of_history, pulls_rev, eval_unfold.
  destruct (measure_loop clock fuel self (clock 0) (local_max s)
              (begun self s)) as [[u|e|] r];
    cbn [snd begun history timer_calls] in Hp |- *;
    change (pulls [EvTimer]) with 0%nat in Hp; try lia.
  destruct (finish_facts clock r) as (_ & _ & Hh & _). rewrite Hh.
  change (pulls (EvTimer :: history r)) with (pulls (history r)). lia.
Qed.


End Outcomes.
End EvaluatorMore.

(** ** A SEAGenerator under measurement *)

Module MeasuredSea.
Import Sea Evaluator EvaluatorSpec EvaluatorMore.

Section Facts.
Context {NR : NumpyRandom}.

Lemma draws_add (a b : nat) (s : RandomState) :
  draws (a + b) s = draws a (draws b s).
Proof. unfold draws. apply Nat.iter_add. Qed.

Lemma spec_batch_draws (index : Z) (noise : Q) (n : nat) :
  forall s, snd (spec_batch index noise n s) = draws (4 * n) s.
Proof.
  induction n as [|n IH]; intro s; [reflexivity|].
  cbn [spec_batch]. unfold spec_sample.
  destruct (rand s) as [r1 s1] eqn:E1.
  destruct (rand s1) as [r2 s2] eqn:E2.
  destruct (rand s2) as [r3 s3] eqn:E3.
  destruct (rand s3) as [r4 s4] eqn:E4.
  specialize (IH s4).
  destruct (spec_batch index noise n s4) as [[X y] s5].
  cbn [snd] in *. rewrite IH.
  replace (4 * Datatypes.S n)%nat with (4 * n + 4)%nat by lia.
  rewrite draws_add. f_equal.
  cbv [draws Nat.iter nat_rect]. rewrite E1. cbn [snd]. rewrite E2.
  cbn [snd]. rewrite E3. cbn [snd]. rewrite E4. reflexivity.
Qed.

(** Without class balancing the generator serves every call of the
    evaluator, with four draws for each sample. *)
Lemma sea_stream_pulls (fuel : nat) (n : Z) (k : nat) :
  0 <= n ->
  forall st : Store,
  Demo.unbalanced st ->
  @delivers _ (sea_stream (Datatypes.S fuel)) n k st = true
  /\ np_random (@after_pulls _ (sea_stream (Datatypes.S fuel)) n k st)
     = draws (4 * (k * Z.to_nat n)) (np_random st)
  /\ same_options (obj st)
       (obj (@after_pulls _ (sea_stream (Datatypes.S fuel)) n k st)).
Proof.
  intro Hn. induction k as [|k IH]; intros st Hu.
  - cbn. repeat split; reflexivity.
  - destruct Hu as [Hb Hi].
    destruct (SeaSpec.next_instance_unbalanced fuel n st Hb ltac:(lia) Hn)
      as (X & y & st' & Hrun & Hspec & Hopt).
    pose proof (spec_batch_draws
                  (wrapped (classification_function_index (obj st)))
                  (noise_percentage (obj st)) (Z.to_nat n) (np_random st))
      as Hd.
    rewrite <- Hspec in Hd. cbn [snd] in Hd.
    assert (Hu' : Demo.unbalanced st').
    { apply (DemoSpec.unbalanced_same_options st);
        [exact Hopt | split; assumption]. }
    destruct (IH st' Hu') as (H1 & H2 & H3).
    cbn [delivers after_pulls].
    change (@Evaluator.next_instance _ (sea_stream (Datatypes.S fuel)) n st)
      with (Sea.next_instance (Datatypes.S fuel) n st).
    rewrite Hrun. cbn [snd]. split; [exact H1|]. split.
    + rewrite H2, Hd, <- draws_add. f_equal. lia.
    + destruct Hopt as (A1 & A2 & A3 & A4).
      destruct H3 as (B1 & B2 & B3 & B4).
      unfold same_options. repeat split; congruence.
Qed.


End Facts.
End MeasuredSea.

(** ** The trace of the demo *)

Module DemoMore.
Import Demo DemoSpec.
Section Facts.
Context {NR : Sea.NumpyRandom} {C : Type} {CL : Classifier C}.

Local Abbreviation Demo := (@Demo NR C).

Ltac demo_fields :=
  cbn [stream clf sample_count correctly_classified first next_id history
       printed].

Tactic Notation "demo_fields" "in" "*" :=
  cbn [stream clf sample_count correctly_classified first next_id history
       printed] in *.

(** One unfolding of the loop. *)
Lemma main_loop_step (fuel : nat) (max_samples : Z) (d : Demo) :
  main_loop (S fuel) max_samples d =
  if sample_count d <? max_samples then
    match pull (S fuel) 1 (snd (log_percent max_samples d)) with
    | (Ok (id, X, y), d2) =>
        match score y (fst (predict X (clf d2))) (after_fit id X y d2) with
        | (Ok _, d5) => main_loop fuel max_samples (snd (count_sample d5))
        | (Raise e, d5) => (Raise e, d5)
        | (OutOfFuel, d5) => (OutOfFuel, d5)
        end
    | (Raise e, d2) => (Raise e, d2)
    | (OutOfFuel, d2) => (OutOfFuel, d2)
    end
  else (Ok tt, d).
Proof.
  cbn [main_loop]. unfold bind at 1. unfold get at 1.
  destruct (sample_count d <? max_samples); [|reflexivity].
  destruct (log_percent_returns max_samples d) as (lines & Hlog).
  unfold bind at 1. rewrite Hlog. cbn [snd].
  unfold bind at 1.
  destruct (pull (S fuel) 1 _) as [[[[id X] y]|e|] d2]; try reflexivity.
  unfold bind at 1. unfold call_predict at 1. unfold after_fit.
  destruct (predict X (clf d2)) as [p c1]. cbn [fst snd].
  unfold bind at 1. unfold get at 1. demo_fields.
  unfold bind at 1.
  destruct (first d2).
  - unfold bind at 1. unfold call_partial_fit at 1, modify at 1.
    unfold set_first at 1, modify at 1. demo_fields.
    unfold bind at 1.
    destruct (score y p _) as [[u|e|] d5]; try reflexivity.
  - unfold call_partial_fit at 1, modify at 1. demo_fields.
    unfold bind at 1.
    destruct (score y p _) as [[u|e|] d5]; try reflexivity.
Qed.

Lemma score_frame (y : list Q) (p : option (list Q)) (d : Demo) :
  stream (snd (score y p d)) = stream d
  /\ clf (snd (score y p d)) = clf d
  /\ sample_count (snd (score y p d)) = sample_count d
  /\ first (snd (score y p d)) = first d
  /\ next_id (snd (score y p d)) = next_id d
  /\ history (snd (score y p d)) = history d
  /\ printed (snd (score y p d)) = printed d.
Proof.
  unfold score. destruct p as [p|]; [|cbn; auto 10].
  unfold bind, lift_outcome.
  destruct (getitem y 0); [|cbn; auto 10..].
  destruct (getitem p 0); [|cbn; auto 10..].
  destruct (Qeq_bool _ _); cbn; auto 10.
Qed.

Lemma pull_frame (fuel : nat) (n : Z) (d : Demo) :
  stream (snd (pull fuel n d)) = snd (Sea.next_instance fuel n (stream d))
  /\ clf (snd (pull fuel n d)) = clf d
  /\ sample_count (snd (pull fuel n d)) = sample_count d
  /\ first (snd (pull fuel n d)) = first d
  /\ printed (snd (pull fuel n d)) = printed d
  /\ match fst (pull fuel n d) with
     | Ok (id, X, y) =>
         fst (Sea.next_instance fuel n (stream d)) = Ok (X, y)
         /\ history (snd (pull fuel n d))
            = EvNextInstance id n X y :: history d
     | _ => history (snd (pull fuel n d)) = history d
     end.
Proof.
  unfold pull.
  destruct (Sea.next_instance fuel n (stream d)) as [[[X y]|e|] st'];
    cbn; auto 10.
Qed.

Lemma classes_once_later (k : nat) : classes_once false k = repeat None k.
Proof. destruct k; reflexivity. Qed.

Lemma fit_classes_app (l1 l2 : list Event) :
  fit_classes (l1 ++ l2) = fit_classes l1 ++ fit_classes l2.
Proof. unfold fit_classes. apply flat_map_app. Qed.

(** A batch drawn with a noise of 1.01 or more has every label
    flipped, and the draw leaves the options as they were. *)
Lemma noisy_pull (index : Z) (fuel : nat) (n : Z) (st : Sea.Store) :
  (101 # 100 <= Sea.noise_percentage (Sea.obj st))%Q ->
  Sea.wrapped (Sea.classification_function_index (Sea.obj st)) = index ->
  (101 # 100
   <= Sea.noise_percentage (Sea.obj (snd (Sea.next_instance fuel n st))))%Q
  /\ Sea.wrapped (Sea.classification_function_index
                    (Sea.obj (snd (Sea.next_instance fuel n st)))) = index
  /\ forall X y, fst (Sea.next_instance fuel n st) = Ok (X, y) ->
       y = map (Sea.spec_row_flipped index) X.
Proof.
  intros Hnoise Hidx.
  destruct (SeaMore.keeps_next_instance fuel n st)
    as ((Hi & _ & _ & Hn) & _).
  rewrite <- Hn, <- Hi. split; [exact Hnoise|]. split; [exact Hidx|].
  intros X y Hrun.
  destruct (Sea.next_instance fuel n st) as [o st'] eqn:E.
  cbn [fst] in Hrun. subst o.
  rewrite <- Hidx.
  apply (SeaMore.next_instance_noisy _ _ _ _ _ _ E). exact Hnoise.
Qed.

(** The loop, whatever it comes to: [classes] goes to the first fit
    only, and on a generator with a noise of 1.01 or more every batch
    comes with its labels flipped. *)
Lemma main_loop_frame (max_samples : Z) (index : Z) (fuel : nat) :
  forall (d : Demo) (o : outcome unit) (d' : Demo),
  main_loop fuel max_samples d = (o, d') ->
  exists (new : list Event) (k : nat),
    history d' = new ++ history d
    /\ fit_classes (rev new) = classes_once (first d) k
    /\ ((101 # 100 <= Sea.noise_percentage (Sea.obj (stream d)))%Q ->
        Sea.wrapped (Sea.classification_function_index
                       (Sea.obj (stream d))) = index ->
        Forall (flipped_batch index) new).
Proof.
  induction fuel as [|fuel IH]; intros d o d' Hrun.
  - cbn in Hrun. injection Hrun as <- <-. exists [], 0%nat.
    repeat split; auto.
  - rewrite main_loop_step in Hrun.
    destruct (sample_count d <? max_samples).
    2:{ injection Hrun as <- <-. exists [], 0%nat. repeat split; auto. }
    destruct (log_percent_returns max_samples d) as (lines & Hlog).
    rewrite Hlog in Hrun. cbn [snd] in Hrun.
    set (d1 := mkDemo _ _ _ _ _ _ _ (lines ++ printed d)) in Hrun.
    destruct (pull_frame (S fuel) 1 d1) as (P1 & P2 & P3 & P4 & P5 & P6).
    destruct (pull (S fuel) 1 d1) as [[[[id X] y]|e|] d2];
      cbn [fst snd] in *; subst d1; demo_fields in *.
    + destruct P6 as [Hnext Hh2].
      destruct (score_frame y (fst (predict X (clf d2)))
                  (after_fit id X y d2))
        as (S1 & S2 & S3 & S4 & S5 & S6 & S7).
      destruct (score y _ _) as [[u|e|] d5]; cbn [fst snd] in *.
      * apply IH in Hrun as (new & k & Hh & Hc & Hf).
        unfold count_sample, modify in Hh, Hc, Hf.
        cbn [snd] in Hh, Hc, Hf. demo_fields in *.
        rewrite S6 in Hh. rewrite S4 in Hc. rewrite S1 in Hf.
        unfold after_fit in Hh, Hc, Hf. demo_fields in *.
        rewrite Hh2 in Hh.
        eexists (new ++ [_; _; _]), (S k).
        split; [rewrite Hh, <- app_assoc; reflexivity|].
        split.
        { rewrite rev_app_distr. cbn [rev app].
          change (?a :: ?b :: ?c :: rev new)
            with ([a; b; c] ++ rev new).
          rewrite fit_classes_app, Hc, classes_once_later.
          rewrite P4. destruct (first d); reflexivity. }
        intros Hnoise Hidx.
        destruct (noisy_pull index (S fuel) 1 (stream d) Hnoise Hidx)
          as (N1 & N2 & N3).
        rewrite <- P1 in N1, N2.
        apply Forall_app. split; [apply Hf; assumption|].
        repeat constructor. cbn [flipped_batch]. apply N3. exact Hnext.
      * injection Hrun as <- <-.
        unfold after_fit in S6. demo_fields in *.
        eexists [_; _; _], 1%nat. rewrite S6, Hh2.
        split; [reflexivity|]. split.
        { cbn. rewrite P4. destruct (first d); reflexivity. }
        intros Hnoise Hidx.
        destruct (noisy_pull index (S fuel) 1 (stream d) Hnoise Hidx)
          as (N1 & N2 & N3).
        repeat constructor. cbn [flipped_batch]. apply N3. exact Hnext.
      * injection Hrun as <- <-.
        unfold after_fit in S6. demo_fields in *.
        eexists [_; _; _], 1%nat. rewrite S6, Hh2.
        split; [reflexivity|]. split.
        { cbn. rewrite P4. destruct (first d); reflexivity. }
        intros Hnoise Hidx.
        destruct (noisy_pull index (S fuel) 1 (stream d) Hnoise Hidx)
          as (N1 & N2 & N3).
        repeat constructor. cbn [flipped_batch]. apply N3. exact Hnext.
    + injection Hrun as <- <-. exists [], 0%nat. rewrite P6.
      repeat split; auto.
    + injection Hrun as <- <-. exists [], 0%nat. rewrite P6.
      repeat split; auto.
Qed.

(** The pretraining step, whatever it comes to. *)
Lemma pretrain_frame (index : Z) (fuel : nat) (train_size : Z) (d : Demo)
    (o : outcome unit) (d1 : Demo) :
  pretrain fuel train_size d = (o, d1) ->
  exists new : list Event,
    history d1 = new ++ history d
    /\ printed d1 = printed d
    /\ sample_count d1 = sample_count d
    /\ stream d1
       = (if train_size >? 0
          then snd (Sea.next_instance fuel train_size (stream d))
          else stream d)
    /\ (new = [] /\ first d1 = first d
        \/ fit_classes (rev new) = [Some [0; 1]] /\ first d1 = false)
    /\ (new = [] \/ o = Ok tt)
    /\ ((101 # 100 <= Sea.noise_percentage (Sea.obj (stream d)))%Q ->
        Sea.wrapped (Sea.classification_function_index
                       (Sea.obj (stream d))) = index ->
        Forall (flipped_batch index) new).
Proof.
  unfold pretrain. destruct (train_size >? 0).
  2:{ intro H. injection H as <- <-. exists []. cbn. auto 10. }
  unfold bind at 1.
  destruct (pull_frame fuel train_size d) as (P1 & P2 & P3 & P4 & P5 & P6).
  destruct (pull fuel train_size d) as [[[[id X] y]|e|] d2];
    cbn [fst snd] in *; intro H.
  - destruct P6 as [Hnext Hh2].
    unfold bind, get, call_partial_fit, set_first, modify in H.
    cbn [fst snd] in H. demo_fields in *. injection H as <- <-.
    demo_fields.
    eexists [_; _]. rewrite Hh2.
    split; [reflexivity|]. split; [exact P5|]. split; [exact P3|].
    split; [exact P1|]. split; [right; split; reflexivity|].
    split; [right; reflexivity|].
    intros Hnoise Hidx.
    destruct (noisy_pull index fuel train_size (stream d) Hnoise Hidx)
      as (N1 & N2 & N3).
    repeat constructor. cbn [flipped_batch]. apply N3. exact Hnext.
  - injection H as <- <-. exists []. rewrite P6. auto 10.
  - injection H as <- <-. exists []. rewrite P6. auto 10.
Qed.

Lemma report_frame (d : Demo) :
  history (snd (report d)) = history d.
Proof.
  unfold report, bind, get, emit, modify, raise. cbn [fst snd].
  demo_fields. destruct (sample_count d =? 0); reflexivity.
Qed.

(** The events of the demo, whatever it comes to. *)
Lemma demo_with_frame (max_samples train_size : Z) (fuel : nat) (c : C)
    (np : Sea.RandomState) :
  exists k : nat,
    fit_classes (events (snd (demo_with max_samples train_size fuel c np)))
    = classes_once true k
    /\ Forall (flipped_batch 1)
         (events (snd (demo_with max_samples train_size fuel c np))).
Proof.
  destruct (demo_store_unbalanced np) as (st & Hinit & Hunb & Hclasses).
  unfold demo_with. rewrite Hinit. unfold body.
  set (d0 := start (Sea.prepare_for_use st) c).
  assert (Hnoise0 : (101 # 100
                     <= Sea.noise_percentage (Sea.obj (stream d0)))%Q).
  { injection Hinit as <-. cbn. unfold Qle. cbn. lia. }
  assert (Hidx0 : Sea.wrapped (Sea.classification_function_index
                                 (Sea.obj (stream d0))) = 1).
  { injection Hinit as <-. reflexivity. }
  match goal with |- context [snd ?r] => remember r as run eqn:Hrun end.
  unfold events. rewrite rev_append_rev, app_nil_r.
  unfold bind at 1 in Hrun.
  destruct (pretrain fuel train_size d0) as [o1 d1] eqn:Hpre.
  destruct (pretrain_frame 1 fuel train_size d0 o1 d1 Hpre)
    as (pre & H1 & _ & _ & Hst & Hfirst & Hok & Hflip1).
  specialize (Hflip1 Hnoise0 Hidx0).
  change (history d0) with (@nil Event) in H1. rewrite app_nil_r in H1.
  assert (Hsetup : (101 # 100
                    <= Sea.noise_percentage (Sea.obj (stream d1)))%Q
                   /\ Sea.wrapped
                        (Sea.classification_function_index
                           (Sea.obj (stream d1))) = 1).
  { rewrite Hst. destruct (train_size >? 0); [|auto].
    destruct (noisy_pull 1 fuel train_size (stream d0) Hnoise0 Hidx0)
      as (N1 & N2 & _). auto. }
  destruct o1 as [u|e|].
  2,3: destruct Hok as [->|Hok]; [|discriminate];
       subst run; cbn [snd]; rewrite H1; exists 0%nat; split;
       [reflexivity|constructor].
  unfold bind at 1 in Hrun.
  destruct (main_loop fuel max_samples d1) as [o d2] eqn:Hloop.
  destruct (main_loop_frame max_samples 1 fuel d1 o d2 Hloop)
    as (new & k & Hh & Hc & Hflip2).
  specialize (Hflip2 (proj1 Hsetup) (proj2 Hsetup)).
  assert (Hhist : history (snd run) = history d2).
  { subst run. destruct o as [u'|e|]; cbn [snd];
      [apply report_frame|reflexivity..]. }
  rewrite Hhist, Hh, H1, rev_app_distr, fit_classes_app.
  destruct Hfirst as [[-> Hf]|[Hfit Hf]].
  - exists k. cbn [rev app fit_classes flat_map].
    rewrite Hc, Hf. split; [reflexivity|].
    apply Forall_rev. exact Hflip2.
  - exists (S k). rewrite Hfit, Hc, Hf, classes_once_later.
    split; [reflexivity|].
    apply Forall_app. split; apply Forall_rev; assumption.
Qed.

(** X16.  Whatever the two constants, the classifier and the outcome of
    the demo, [classes] is passed to the first call of [partial_fit]
    and to no other: the [classes] arguments are [[0, 1]] once and then
    [None]. *)
Theorem classes_go_to_the_first_fit_only (max_samples train_size : Z)
    (fuel : nat) (c : C) (np : Sea.RandomState) :
  exists k : nat,
    fit_classes (events (snd (demo_with max_samples train_size fuel c np)))
    = classes_once true k.
Proof.
  destruct (demo_with_frame max_samples train_size fuel c np)
    as (k & Hk & _).
  exists k. exact Hk.
Qed.

(** X17.  The demo constructs its generator with
    [noise_percentage = 6.7], which is more than 1.01: every label that
    the demo pulls, in the pretraining batch and in the loop, is the
    opposite of the threshold label of its row (function 1:
    [att1 + att2 <= 9], the sum being the double that Python
    computes). *)
Theorem demo_labels_are_all_flipped (max_samples train_size : Z)
    (fuel : nat) (c : C) (np : Sea.RandomState) (id : nat) (n : Z)
    (X : list (list Q)) (y : list Q) :
  In (EvNextInstance id n X y)
    (events (snd (demo_with max_samples train_size fuel c np))) ->
  y = map (Sea.spec_row_flipped 1) X.
Proof.
  intro Hin.
  destruct (demo_with_frame max_samples train_size fuel c np)
    as (_ & _ & Hflip).
  rewrite Forall_forall in Hflip. exact (Hflip _ Hin).
Qed.

(** *** The progress lines *)

Lemma twentieth_quotient (m count : Z) :
  1 <= m ->
  (inject_Z count / (inject_Z (20 * m) / 20) == inject_Z count / inject_Z m)%Q.
Proof.
  intro Hm. rewrite inject_Z_mult.
  assert (~ (inject_Z m == 0)%Q).
  { intro H. apply (inject_Z_injective m 0) in H. lia. }
  field. assumption.
Qed.

Lemma twentieth_floordiv (m count : Z) :
  1 <= m ->
  float_floordiv (inject_Z count) (inject_Z (20 * m) / 20) = count / m.
Proof.
  intro Hm. unfold float_floordiv.
  rewrite (Qfloor_comp _ _ (twentieth_quotient m count Hm)).
  destruct m as [|p|p]; try lia.
  rewrite <- (Qmake_Qdiv count p). reflexivity.
Qed.

Lemma twentieth_mod (m count : Z) :
  1 <= m ->
  Qeq_bool (float_mod (inject_Z count) (inject_Z (20 * m) / 20)) 0
  = (count mod m =? 0).
Proof.
  intro Hm. unfold float_mod. rewrite twentieth_floordiv by exact Hm.
  assert (Heq : (inject_Z count - inject_Z (20 * m) / 20 * inject_Z (count / m)
                 == inject_Z (count mod m))%Q).
  { rewrite Z.mod_eq by lia.
    unfold Zminus. rewrite inject_Z_plus, inject_Z_opp, !inject_Z_mult.
    field. }
  apply eq_true_iff_eq. rewrite Qeq_bool_iff, Z.eqb_eq, Heq.
  split.
  - intro H. apply (inject_Z_injective _ 0). exact H.
  - intros ->. reflexivity.
Qed.

Lemma progress_lines_first (m from : Z) (n : nat) :
  progress_lines m from (S n)
  = (if from mod m =? 0 then [Progress (from / m * 5)] else [])
      ++ progress_lines m (from + 1) n.
Proof.
  unfold progress_lines. cbn [seq flat_map].
  rewrite Z.add_0_r. f_equal.
  rewrite <- seq_shift, !flat_map_concat_map, map_map. f_equal.
  apply map_ext. intro i.
  replace (from + Z.of_nat (S i)) with (from + 1 + Z.of_nat i) by lia.
  reflexivity.
Qed.

Lemma progress_lines_add (m : Z) (a b : nat) :
  forall from,
  progress_lines m from (a + b)
  = progress_lines m from a ++ progress_lines m (from + Z.of_nat a) b.
Proof.
  induction a as [|a IH]; intro from.
  - cbn [Nat.add]. rewrite Z.add_0_r. reflexivity.
  - cbn [Nat.add]. rewrite !progress_lines_first, IH, <- app_assoc.
    do 3 f_equal. lia.
Qed.

(** Between two multiples of [m] only the first count prints. *)
Lemma progress_lines_block (m j : Z) :
  1 <= m ->
  progress_lines m (j * m) (Z.to_nat m) = [Progress (j * 5)].
Proof.
  intro Hm.
  replace (Z.to_nat m) with (S (Z.to_nat (m - 1))) by lia.
  rewrite progress_lines_first, Z.mod_mul, Z.div_mul by lia.
  cbn [Z.eqb app]. f_equal.
  unfold progress_lines. rewrite flat_map_concat_map.
  apply concat_nil_Forall, Forall_forall. intros l Hl.
  apply in_map_iff in Hl as (i & <- & Hi). apply in_seq in Hi.
  replace (j * m + 1 + Z.of_nat i) with ((1 + Z.of_nat i) + j * m) by lia.
  rewrite Z.mod_add, Z.mod_small by lia.
  destruct (1 + Z.of_nat i =? 0) eqn:E; [apply Z.eqb_eq in E; lia|].
  reflexivity.
Qed.

(** A whole run of [k] twentieths prints the [k] lines 0%, 5%, ... *)
Lemma progress_lines_twentieths (m : Z) (k : nat) :
  1 <= m ->
  progress_lines m 0 (k * Z.to_nat m)
  = map (fun i => Progress (Z.of_nat i * 5)) (seq 0 k).
Proof.
  intro Hm. induction k as [|k IH]; [reflexivity|].
  rewrite seq_S, map_app. cbn [map Nat.add].
  replace (S k * Z.to_nat m)%nat with (k * Z.to_nat m + Z.to_nat m)%nat
    by lia.
  rewrite progress_lines_add, IH. f_equal.
  replace (0 + Z.of_nat (k * Z.to_nat m)) with (Z.of_nat k * m) by lia.
  apply progress_lines_block. exact Hm.
Qed.

(** The progress line when a twentieth of [max_samples] is the whole
    number [m]. *)
Lemma log_percent_exact (m : Z) (d : Demo) :
  1 <= m ->
  log_percent (20 * m) d
  = (Ok tt,
     mkDemo (stream d) (clf d) (sample_count d) (correctly_classified d)
       (first d) (next_id d) (history d)
       (rev (progress_lines m (sample_count d) 1) ++ printed d)).
Proof.
  intro Hm. unfold log_percent, bind, get.
  rewrite twentieth_mod, twentieth_floordiv by exact Hm.
  rewrite progress_lines_first.
  change (progress_lines m (sample_count d + 1) 0) with (@nil Output).
  rewrite app_nil_r.
  destruct (sample_count d mod m =? 0).
  - reflexivity.
  - unfold ret. destruct d; reflexivity.
Qed.

(** What a loop that ends has printed. *)
Lemma main_loop_printed (m : Z) (fuel : nat) :
  1 <= m ->
  forall d d' : Demo,
  main_loop fuel (20 * m) d = (Ok tt, d') ->
  sample_count d <= sample_count d'
  /\ printed d'
     = rev (progress_lines m (sample_count d)
              (Z.to_nat (sample_count d' - sample_count d)))
         ++ printed d.
Proof.
  intro Hm. induction fuel as [|fuel IH]; intros d d' Hrun;
    [discriminate|].
  rewrite main_loop_step in Hrun.
  destruct (sample_count d <? 20 * m).
  2:{ injection Hrun as <-. rewrite Z.sub_diag. split; [lia|reflexivity]. }
  rewrite (log_percent_exact m d Hm) in Hrun. cbn [snd] in Hrun.
  set (d1 := mkDemo _ _ _ _ _ _ _ _) in Hrun.
  destruct (pull_frame (S fuel) 1 d1) as (P1 & P2 & P3 & P4 & P5 & P6).
  destruct (pull (S fuel) 1 d1) as [[[[id X] y]|e|] d2];
    cbn [fst snd] in *; try discriminate.
  destruct (score_frame y (fst (predict X (clf d2))) (after_fit id X y d2))
    as (S1 & S2 & S3 & S4 & S5 & S6 & S7).
  destruct (score y _ _) as [[u|e|] d5]; cbn [fst snd] in *;
    try discriminate.
  apply IH in Hrun as [Hle Hp].
  unfold count_sample, modify in Hle, Hp. cbn [snd] in Hle, Hp.
  demo_fields in *. unfold after_fit in S3, S7. subst d1.
  demo_fields in *. rewrite S3, P3 in Hle, Hp. rewrite S7, P5 in Hp.
  split; [lia|].
  replace (Z.to_nat (sample_count d' - sample_count d))
    with (1 + Z.to_nat (sample_count d' - (sample_count d + 1)))%nat by lia.
  rewrite progress_lines_add, rev_app_distr, <- app_assoc.
  rewrite Hp. reflexivity.
Qed.

(** X18.  When [max_samples] is [20 * m] for a whole [m >= 1], as it is
    for the 20000 of the demo, the demo prints exactly twenty progress
    lines, 0% to 95% in steps of 5, then the number of samples and the
    performance, which lies between 0 and 1. *)
Theorem demo_prints_twenty_progress_lines (m train_size : Z) (fuel : nat)
    (c : C) (np : Sea.RandomState) :
  1 <= m ->
  (Z.to_nat (20 * m) < fuel)%nat ->
  exists performance : Q,
    fst (demo_with (20 * m) train_size fuel c np) = Ok tt
    /\ output (snd (demo_with (20 * m) train_size fuel c np))
       = map (fun i => Progress (Z.of_nat i * 5)) (seq 0 20)
           ++ [SamplesAnalyzed (20 * m); MyPerformance performance]
    /\ (0 <= performance <= 1)%Q.
Proof.
  intros Hm Hfuel.
  destruct (demo_with_runs (20 * m) train_size fuel c np ltac:(lia) Hfuel)
    as (pre & c0 & rounds & lines & d' & Hrun & _ & Hlen & _ & _ & _ & _
        & Hsc & Hcc & _).
  rewrite Hrun. cbn [fst snd].
  destruct (count_rounds_bounds round_correct round_answered rounds
              correct_is_answered) as [Hb1 Hb2].
  assert (Hb3 : count_rounds round_answered rounds <= 20 * m).
  { unfold count_rounds.
    pose proof (filter_length_le round_answered rounds). lia. }
  destruct (demo_store_unbalanced np) as (st & Hinit & _ & _).
  unfold demo_with in Hrun. rewrite Hinit in Hrun. unfold body in Hrun.
  unfold bind at 1 in Hrun.
  destruct (pretrain fuel train_size _) as [o1 d1] eqn:Hpre.
  destruct (pretrain_frame 1 _ _ _ _ _ Hpre)
    as (new & _ & Hp1 & Hsc1 & _).
  cbn [start printed sample_count] in Hp1, Hsc1.
  destruct o1 as [u|e|]; try discriminate.
  unfold bind at 1 in Hrun.
  destruct (main_loop fuel (20 * m) d1) as [[u'|e|] d2] eqn:Hloop;
    try discriminate.
  destruct u'. apply (main_loop_printed m fuel Hm) in Hloop as [Hle Hp2].
  rewrite Hsc1, Hp1, app_nil_r, Z.sub_0_r in Hp2.
  unfold report, bind, get, emit, modify, raise in Hrun.
  cbn [fst snd] in Hrun. demo_fields in *.
  destruct (sample_count d2 =? 0) eqn:Hz; [discriminate|].
  injection Hrun as <-. demo_fields in *.
  exists (inject_Z (correctly_classified d2) / inject_Z (sample_count d2))%Q.
  split; [reflexivity|]. split.
  - unfold output. demo_fields.
    rewrite rev_append_rev, app_nil_r. cbn [rev].
    rewrite Hp2, rev_involutive, Hsc, <- app_assoc. cbn [app].
    f_equal.
    replace (Z.to_nat (20 * m)) with (20 * Z.to_nat m)%nat by lia.
    apply progress_lines_twentieths. exact Hm.
  - rewrite Hsc, Hcc.
    assert (Hpos : (0 < inject_Z (20 * m))%Q)
      by (rewrite <- (Zlt_Qlt 0); lia).
    split.
    + apply Qle_shift_div_l; [exact Hpos|].
      rewrite Qmult_0_l, <- (Zle_Qle 0). lia.
    + apply Qle_shift_div_r; [exact Hpos|].
      rewrite Qmult_1_l, <- Zle_Qle. lia.
Qed.

(** X19.  With [max_samples <= 0] the loop body never runs: no
    prediction is made, the demo prints [0 samples analyzed.] and the
    division for the performance raises [ZeroDivisionError]. *)
Theorem empty_budget_divides_by_zero (max_samples train_size : Z)
    (fuel : nat) (c : C) (np : Sea.RandomState) :
  max_samples <= 0 ->
  (1 <= fuel)%nat ->
  fst (demo_with max_samples train_size fuel c np) = Raise ZeroDivisionError
  /\ output (snd (demo_with max_samples train_size fuel c np))
     = [SamplesAnalyzed 0]
  /\ filter is_predict
       (events (snd (demo_with max_samples train_size fuel c np))) = []
  /\ sample_count (snd (demo_with max_samples train_size fuel c np)) = 0.
Proof.
  intros Hmax Hfuel.
  destruct (demo_store_unbalanced np) as (st & Hinit & Hunb & _).
  unfold demo_with. rewrite Hinit. unfold body.
  destruct fuel as [|fuel]; [lia|].
  set (d0 := start (Sea.prepare_for_use st) c).
  assert (Hpre : exists d1,
            pretrain (S fuel) train_size d0 = (Ok tt, d1)
            /\ sample_count d1 = 0 /\ printed d1 = []
            /\ filter is_predict (rev (history d1)) = []).
  { unfold pretrain. destruct (train_size >? 0) eqn:Hts.
    - rewrite Z.gtb_ltb in Hts. apply Z.ltb_lt in Hts.
      destruct (pull_unbalanced fuel train_size d0 Hunb ltac:(lia))
        as (X0 & y0 & st' & Hpull & _).
      unfold bind at 1. rewrite Hpull.
      unfold bind, get, call_partial_fit, set_first, modify.
      eexists. split; [reflexivity|]. subst d0. cbn. auto.
    - exists d0. unfold ret. subst d0. cbn. auto. }
  destruct Hpre as (d1 & Hrun1 & Hsc1 & Hp1 & Hh1).
  match goal with |- context [snd ?r] => remember r as run eqn:Hrun end.
  unfold bind at 1 in Hrun. rewrite Hrun1 in Hrun.
  unfold bind at 1 in Hrun. rewrite main_loop_step, Hsc1 in Hrun.
  replace (0 <? max_samples) with false in Hrun
    by (symmetry; apply Z.ltb_ge; lia).
  unfold report, bind, get, emit, modify, raise in Hrun.
  cbn [fst snd] in Hrun. demo_fields in *.
  rewrite Hsc1, Hp1 in Hrun. cbn [Z.eqb] in Hrun. subst run.
  unfold output, events. cbn [fst snd]. demo_fields.
  rewrite !rev_append_rev, !app_nil_r, Hh1. auto.
Qed.

End Facts.
End DemoMore.

(** ** Reading an InstanceHeader back *)

Module HeaderMore.

Import Header.

Lemma map_positions {A B} (g : A -> B) (l : list A) :
  forall f : nat -> B,
  (forall i x, nth_error l i = Some x -> f i = g x) ->
  map f (seq 0 (List.length l)) = map g l.
Proof.
  induction l as [|a l IH]; intros f Hf; [reflexivity|].
  cbn [List.length seq map]. f_equal.
  - apply (Hf 0%nat a). reflexivity.
  - rewrite <- seq_shift, map_map. apply IH.
    intros i x Hi. apply (Hf (S i) x). exact Hi.
Qed.

(** X20.  Reading the positions 0 to [len - 1] of a header gives back
    its entries, in order, and the default argument, -1, reads nothing:
    [get_header_label_at()] is [None] for every header. *)
Theorem get_header_label_at_reads_the_header (A : Type) (l : list A) :
  map (fun i => get_header_label_at (__init__ (Some l)) (Z.of_nat i))
    (seq 0 (List.length l))
  = map (fun x => Ok (Some x)) l
  /\ get_header_label_at (__init__ (Some l)) (-1) = Ok None
  /\ get_header_label_at (__init__ (@None (list A))) (-1) = Ok None.
Proof.
  split; [|split; reflexivity].
  apply map_positions. intros i x Hi.
  assert (Hlt : (i < List.length l)%nat)
    by (apply nth_error_Some; congruence).
  unfold get_header_label_at, __init__. cbn [header].
  replace (Z.of_nat i >? -1) with true by (symmetry; apply Z.gtb_lt; lia).
  replace (Z.of_nat i <? Z.of_nat (List.length l)) with true
    by (symmetry; apply Z.ltb_lt; lia).
  cbn [andb].
  destruct (getitem_inside A l (Z.of_nat i)) as (x' & Hnth & Hget); [lia|].
  rewrite Nat2Z.id, Hi in Hnth. injection Hnth as <-.
  rewrite Hget. reflexivity.
Qed.

End HeaderMore.

(** ** Runs of the further properties on the concrete collaborators *)

Module MoreRuns.

Import Fixtures.

#[local] Existing Instance scripted_random.

(** A run is its outcome and the state it leaves. *)
Lemma run_of_outcome {A St : Type} (r : outcome A * St) (o : outcome A) :
  fst r = o -> r = (o, snd r).
Proof. destruct r. cbn. intros ->. reflexivity. Qed.

Lemma next_instance_shape_witness :
  exists X y,
    fst (Sea.next_instance 1 2 (scripted_sea 0 false 0)) = Ok (X, y)
    /\ Z.of_nat (List.length X) = 2
    /\ List.length y = List.length X.
Proof.
  assert (E : exists X y,
            fst (Sea.next_instance 1 2 (scripted_sea 0 false 0))
            = Ok (X, y)) by (vm_compute; eauto).
  destruct E as (X & y & E).
  destruct (SeaMore.next_instance_shape _ _ _ _ _ _ (run_of_outcome _ _ E))
    as (H1 & H2 & _).
  exists X, y. auto.
Defined.

Lemma next_instance_balanced_witness :
  exists X,
    fst (Sea.next_instance 5 4 (scripted_sea 0 true 0))
    = Ok (X, [1; 0; 1; 0]%Q).
Proof.
  assert (E : exists X y,
            fst (Sea.next_instance 5 4 (scripted_sea 0 true 0))
            = Ok (X, y)) by (vm_compute; eauto).
  destruct E as (X & y & E).
  destruct (SeaMore.next_instance_balanced 5 4 (scripted_sea 0 true 0)
              X y _ eq_refl eq_refl (run_of_outcome _ _ E)) as (H1 & _).
  exists X. rewrite E, H1. reflexivity.
Defined.

Lemma next_instance_noise_extremes_witness :
  exists X y,
    fst (Sea.next_instance 1 3 (scripted_sea 2 false (3 # 2))) = Ok (X, y)
    /\ y = map (Sea.spec_row_flipped 2) X.
Proof.
  assert (E : exists X y,
            fst (Sea.next_instance 1 3 (scripted_sea 2 false (3 # 2)))
            = Ok (X, y)) by (vm_compute; eauto).
  destruct E as (X & y & E).
  destruct (SeaMore.next_instance_noise_extremes _ _ _ _ _ _
              (run_of_outcome _ _ E)) as (_ & H2).
  exists X, y. split; [exact E|]. apply H2.
  unfold Qle. simpl. lia.
Defined.

Lemma next_instance_last_instance_witness :
  Sea.next_instance 1 0 (scripted_sea 7 true 0)
  = (Ok ([], []), scripted_sea 7 true 0)
  /\ exists X y,
       fst (Sea.next_instance 1 2 (scripted_sea 0 false 0)) = Ok (X, y)
       /\ Sea.get_last_instance
            (Sea.obj (snd (Sea.next_instance 1 2 (scripted_sea 0 false 0))))
          = (Some (last X []), Some [last y 0%Q]).
Proof.
  split.
  - apply (SeaMore.next_instance_last_instance 1 0 (scripted_sea 7 true 0)).
  - assert (E : exists X y,
              fst (Sea.next_instance 1 2 (scripted_sea 0 false 0))
              = Ok (X, y)) by (vm_compute; eauto).
    destruct E as (X & y & E).
    destruct (SeaMore.next_instance_last_instance 1 2
                (scripted_sea 0 false 0)) as (_ & H1).
    exists X, y. split; [exact E|].
    apply (H1 _ _ _ (run_of_outcome _ _ E)). lia.
Defined.

Lemma next_instance_batches_compose_witness :
  let st := scripted_sea 0 true 0 in
  let st1 := snd (Sea.next_instance 5 1 st) in
  exists X1 y1 X2 y2,
    fst (Sea.next_instance 5 1 st) = Ok (X1, y1)
    /\ fst (Sea.next_instance 5 2 st1) = Ok (X2, y2)
    /\ fst (Sea.next_instance 5 (1 + 2) st) = Ok (X1 ++ X2, y1 ++ y2).
Proof.
  cbv zeta.
  assert (E : exists X1 y1 X2 y2,
            fst (Sea.next_instance 5 1 (scripted_sea 0 true 0))
            = Ok (X1, y1)
            /\ fst (Sea.next_instance 5 2
                      (snd (Sea.next_instance 5 1 (scripted_sea 0 true 0))))
               = Ok (X2, y2))
    by (vm_compute; eauto 10).
  destruct E as (X1 & y1 & X2 & y2 & E1 & E2).
  exists X1, y1, X2, y2.
  split; [exact E1|]. split; [exact E2|].
  rewrite (SeaMore.next_instance_batches_compose _ _ _ _ _ _ _ _ _ _
             (run_of_outcome _ _ E1) (run_of_outcome _ _ E2)).
  reflexivity.
Defined.

Lemma generate_drift_changes_function_witness :
  let st' := snd (Sea.generate_drift 5 (scripted_sea 0 false 0)) in
  fst (Sea.generate_drift 5 (scripted_sea 0 false 0)) = Ok tt
  /\ Sea.classification_function_index (Sea.obj st') <> 0
  /\ 0 <= Sea.classification_function_index (Sea.obj st') <= 3.
Proof.
  cbv zeta.
  assert (E : fst (Sea.generate_drift 5 (scripted_sea 0 false 0)) = Ok tt)
    by (vm_compute; reflexivity).
  destruct (SeaMore.generate_drift_changes_function 5
              (scripted_sea 0 false 0)
              (snd (Sea.generate_drift 5 (scripted_sea 0 false 0))))
    as (H1 & H2 & _).
  - intro s. cbn. apply Z.mod_pos_bound. lia.
  - exact (run_of_outcome _ _ E).
  - auto.
Defined.

(** *** The evaluator *)

Import Evaluator.

#[local] Existing Instance bounded_stream.




Lemma ticking_clock_deadline (j : nat) :
  (11 <= j)%nat ->
  over_time (mkEvaluator 100 (Fin 10) None 1)
    (ticking_clock j - ticking_clock 0).
Proof.
  intro Hj. unfold over_time, ticking_clock. cbn [max_time].
  rewrite Rounding.pow2_minus_53.
  assert (H11 : (11 <= inject_Z (Z.of_nat j))%Q).
  { change 11%Q with (inject_Z 11). rewrite <- Zle_Qle. lia. }
  change (inject_Z (Z.of_nat 0)) with 0%Q. split; lra.
Qed.

(** Ten time units on a timer that ticks once a reading. *)
Lemma time_budget_bounds_the_calls_witness :
  (pulls (events (snd (@eval _ scripted_stream ticking_clock 143
                         (mkEvaluator 100 (Fin 10) None 1)
                         (scripted_sea 0 false 0))))
   <= 10)%nat.
Proof.
  apply (proj1 (@EvaluatorMore.time_budget_bounds_the_calls _
                  scripted_stream ticking_clock
                  (mkEvaluator 100 (Fin 10) None 1) 11 143
                  (scripted_sea 0 false 0) ticking_clock_deadline)).
Defined.



(** *** The demo *)

Import Demo.

Lemma demo_labels_are_all_flipped_witness :
  match events (snd (@demo_with scripted_random nat (warming_classifier 12)
                       2 0 3 0%nat 0)) with
  | EvNextInstance _ _ X y :: _ => y = map (Sea.spec_row_flipped 1) X
  | _ => False
  end.
Proof.
  assert (E : exists id n X y rest,
            events (snd (@demo_with scripted_random nat
                           (warming_classifier 12) 2 0 3 0%nat 0))
            = EvNextInstance id n X y :: rest)
    by (vm_compute; eauto 10).
  destruct E as (id & n & X & y & rest & E).
  pose proof (@DemoMore.demo_labels_are_all_flipped scripted_random nat
                (warming_classifier 12) 2 0 3 0%nat 0 id n X y) as H.
  rewrite E in H |- *. apply H. left. reflexivity.
Defined.

(** The demo as it is written: 20000 samples after a batch of 10. *)
Lemma demo_prints_twenty_progress_lines_witness :
  exists performance : Q,
    fst (@demo scripted_random nat (warming_classifier 12)
           (Z.to_nat 20001) 0%nat 0) = Ok tt
    /\ output (snd (@demo scripted_random nat (warming_classifier 12)
                      (Z.to_nat 20001) 0%nat 0))
       = map (fun i => Progress (Z.of_nat i * 5)) (seq 0 20)
           ++ [SamplesAnalyzed 20000; MyPerformance performance]
    /\ (0 <= performance <= 1)%Q.
Proof.
  apply (@DemoMore.demo_prints_twenty_progress_lines scripted_random nat
           (warming_classifier 12) 1000 10 (Z.to_nat 20001) 0%nat 0).
  - lia.
  - lia.
Defined.

Lemma empty_budget_divides_by_zero_witness :
  let run := @demo_with scripted_random nat (warming_classifier 12)
               0 10 1 0%nat 0 in
  fst run = Raise ZeroDivisionError
  /\ output (snd run) = [SamplesAnalyzed 0]
  /\ filter is_predict (events (snd run)) = []
  /\ sample_count (snd run) = 0.
Proof.
  apply (@DemoMore.empty_budget_divides_by_zero scripted_random nat
           (warming_classifier 12) 0 10 1 0%nat 0); lia.
Defined.

End MoreRuns.
